(** * Captain's Log: recording session and transcription pipeline

    A shallow embedding of the Obsidian plugin's core (src/AudioRecordModal.ts,
    lines 1-262, and src/main.ts) together with the properties its
    specification states about it.

    - [Js]     : the JavaScript string and number primitives the code relies on,
                 over ASCII strings.
    - [Modal]  : the recording modal (class AudioRecordModal) as a transition
                 system over the modal object and the host objects it
                 references (MediaRecorder instances, promises).
    - [Plugin] : the plugin (class CaptainsLogPlugin): recording persistence,
                 the transcription pipeline and the audio-link resolver, over an
                 explicit vault, editor and settings store.

    Definitions come first; the facts proved about them follow. *)

From Stdlib Require Import ZArith Lia List String Ascii Bool Arith Sorted.
From Stdlib Require Import DecimalString DecimalNat DecimalZ.
From stdpp Require Import base option list gmap strings.

Local Open Scope string_scope.

(* ===================================================================== *)
(** ** JavaScript primitives *)
(* ===================================================================== *)

Module Js.

Local Open Scope nat_scope.

(** Truthiness of a string: only the empty string is falsy. *)
Definition truthy (s : string) : bool :=
  match s with EmptyString => false | _ => true end.

(** White space as [String.prototype.trim] sees it, within ASCII:
    TAB, LF, VT, FF, CR and SPACE. *)
Definition isWhiteSpace (c : ascii) : bool :=
  let n := nat_of_ascii c in
  ((9 <=? n) && (n <=? 13)) || (n =? 32).

Fixpoint trimStart (s : string) : string :=
  match s with
  | String c s' => if isWhiteSpace c then trimStart s' else s
  | EmptyString => EmptyString
  end.

(** [dropTrailing s] removes trailing white space: a character is kept when
    it is not white space or when something is kept after it. *)
Fixpoint trimEnd (s : string) : string :=
  match s with
  | EmptyString => EmptyString
  | String c s' =>
      match trimEnd s' with
      | EmptyString => if isWhiteSpace c then EmptyString else String c EmptyString
      | t => String c t
      end
  end.

Definition trim (s : string) : string := trimEnd (trimStart s).

(** [toLowerCase] on the ASCII letters. *)
Definition lowerAscii (c : ascii) : ascii :=
  let n := nat_of_ascii c in
  if (65 <=? n) && (n <=? 90) then ascii_of_nat (n + 32) else c.

Fixpoint toLowerCase (s : string) : string :=
  match s with
  | EmptyString => EmptyString
  | String c s' => String (lowerAscii c) (toLowerCase s')
  end.

(** Template-literal rendering of a non-negative integer counter. *)
Definition natToString (n : nat) : string :=
  NilEmpty.string_of_uint (Nat.to_uint n).

(** [Number.prototype.toString] on an integer. *)
Definition numToString (z : Z) : string :=
  NilZero.string_of_int (Z.to_int z).

(** [s.padStart(2, '0')]. *)
Definition padStart2 (s : string) : string :=
  match String.length s with
  | O => "00"
  | S O => String "0" s
  | _ => s
  end.

(** [Math.floor(a / b)] for integers [a] and a positive integer [b]. *)
Definition floorDiv (a b : Z) : Z := Z.div a b.

(** The remainder operator [%], which takes the sign of the dividend. *)
Definition rem (a b : Z) : Z := Z.rem a b.

(** Does the character occur in the string? *)
Fixpoint hasChar (c : ascii) (s : string) : bool :=
  match s with
  | EmptyString => false
  | String d s' => Ascii.eqb d c || hasChar c s'
  end.

(** [s.split(sep).pop()]: the text after the last separator (all of [s] when
    it has none). *)
Fixpoint afterLast (sep : ascii) (s : string) : string :=
  match s with
  | EmptyString => EmptyString
  | String c s' =>
      if Ascii.eqb c sep || hasChar sep s' then afterLast sep s' else s
  end.

(** [s.split(sep)]. *)
Fixpoint split (sep : ascii) (s : string) : list string :=
  match s with
  | EmptyString => [EmptyString]
  | String c s' =>
      if Ascii.eqb c sep then EmptyString :: split sep s'
      else match split sep s' with
           | piece :: pieces => String c piece :: pieces
           | [] => [String c EmptyString]
           end
  end.

(** [s.slice(n)] for [0 <= n]. *)
Fixpoint sliceFrom (n : nat) (s : string) : string :=
  match n, s with
  | S n', String _ s' => sliceFrom n' s'
  | _, _ => s
  end.

(** [s.slice(0, n)]. *)
Fixpoint sliceTo (n : nat) (s : string) : string :=
  match n, s with
  | S n', String c s' => String c (sliceTo n' s')
  | _, _ => EmptyString
  end.

End Js.

(* ===================================================================== *)
(** ** The recording modal (src/AudioRecordModal.ts) *)
(* ===================================================================== *)

Module Modal.

Local Open Scope Z_scope.

(** [MediaRecorder.state]. *)
Inductive RecordingState := inactive | recording | paused.

(** A MediaRecorder instance of the host.  Listeners are registered with
    [addEventListener] only, each call with a fresh bound function, so a
    count per event type describes them.  [stopQueued] holds between a call
    of [stop()] on an active recorder and the delivery of its 'stop' event. *)
Record Recorder := mkRecorder {
  state : RecordingState;
  stopListeners : nat;
  dataListeners : nat;
  stopQueued : bool;
}.

(** A fragment handed over by a 'dataavailable' event.  The recorder that
    delivered it is kept beside the payload, so that the provenance of what
    ends up in an artifact can be stated. *)
Record BlobPart := mkPart { origin : nat; payload : string }.

(** [new Blob(parts, { type })]. *)
Record Blob := mkBlob { parts : list BlobPart; type : string }.

(** A promise created by [open()] or [stopRecording()].  [awaiting] is the
    continuation a button handler attached with [await]: [Some transcribe]
    calls [handleAudioRecording(audioFile, transcribe, ...)]. *)
Inductive Settlement := Pending | Fulfilled (value : option Blob) | Rejected.

Record PromiseCell := mkPromise {
  settlement : Settlement;
  awaiting : option bool;
}.

(** What the modal does to its surroundings, in order. *)
Inductive Effect :=
| HandleAudioRecording (audioFile : option Blob)
    (transcribe keepAudio includeAudioFileLink : bool)
| Close
| ConsoleError (msg : string).

(** The modal object (its own fields) and the host objects it refers to. *)
Record Modal := mkModal {
  mediaRecorder : option nat;
  chunks : list BlobPart;
  resolve : option nat;
  isRecording : bool;
  timer : string;
  intervalId : option nat;
  startTime : Z;
  elapsedTime : Z;
  isResetting : bool;
  keepAudioCheckbox : bool;
  includeAudioFileLinkCheckbox : bool;
  (* host *)
  recorders : gmap nat Recorder;
  promises : list PromiseCell;
  pendingStreams : nat;
  intervals : nat;
  effects : list Effect;
}.

Definition set_mediaRecorder v m := mkModal v (chunks m) (resolve m) (isRecording m) (timer m) (intervalId m) (startTime m) (elapsedTime m) (isResetting m) (keepAudioCheckbox m) (includeAudioFileLinkCheckbox m) (recorders m) (promises m) (pendingStreams m) (intervals m) (effects m).
Definition set_chunks v m := mkModal (mediaRecorder m) v (resolve m) (isRecording m) (timer m) (intervalId m) (startTime m) (elapsedTime m) (isResetting m) (keepAudioCheckbox m) (includeAudioFileLinkCheckbox m) (recorders m) (promises m) (pendingStreams m) (intervals m) (effects m).
Definition set_resolve v m := mkModal (mediaRecorder m) (chunks m) v (isRecording m) (timer m) (intervalId m) (startTime m) (elapsedTime m) (isResetting m) (keepAudioCheckbox m) (includeAudioFileLinkCheckbox m) (recorders m) (promises m) (pendingStreams m) (intervals m) (effects m).
Definition set_isRecording v m := mkModal (mediaRecorder m) (chunks m) (resolve m) v (timer m) (intervalId m) (startTime m) (elapsedTime m) (isResetting m) (keepAudioCheckbox m) (includeAudioFileLinkCheckbox m) (recorders m) (promises m) (pendingStreams m) (intervals m) (effects m).
Definition set_timer v m := mkModal (mediaRecorder m) (chunks m) (resolve m) (isRecording m) v (intervalId m) (startTime m) (elapsedTime m) (isResetting m) (keepAudioCheckbox m) (includeAudioFileLinkCheckbox m) (recorders m) (promises m) (pendingStreams m) (intervals m) (effects m).
Definition set_intervalId v m := mkModal (mediaRecorder m) (chunks m) (resolve m) (isRecording m) (timer m) v (startTime m) (elapsedTime m) (isResetting m) (keepAudioCheckbox m) (includeAudioFileLinkCheckbox m) (recorders m) (promises m) (pendingStreams m) (intervals m) (effects m).
Definition set_startTime v m := mkModal (mediaRecorder m) (chunks m) (resolve m) (isRecording m) (timer m) (intervalId m) v (elapsedTime m) (isResetting m) (keepAudioCheckbox m) (includeAudioFileLinkCheckbox m) (recorders m) (promises m) (pendingStreams m) (intervals m) (effects m).
Definition set_elapsedTime v m := mkModal (mediaRecorder m) (chunks m) (resolve m) (isRecording m) (timer m) (intervalId m) (startTime m) v (isResetting m) (keepAudioCheckbox m) (includeAudioFileLinkCheckbox m) (recorders m) (promises m) (pendingStreams m) (intervals m) (effects m).
Definition set_isResetting v m := mkModal (mediaRecorder m) (chunks m) (resolve m) (isRecording m) (timer m) (intervalId m) (startTime m) (elapsedTime m) v (keepAudioCheckbox m) (includeAudioFileLinkCheckbox m) (recorders m) (promises m) (pendingStreams m) (intervals m) (effects m).
Definition set_checkboxes k i m := mkModal (mediaRecorder m) (chunks m) (resolve m) (isRecording m) (timer m) (intervalId m) (startTime m) (elapsedTime m) (isResetting m) k i (recorders m) (promises m) (pendingStreams m) (intervals m) (effects m).
Definition set_recorders v m := mkModal (mediaRecorder m) (chunks m) (resolve m) (isRecording m) (timer m) (intervalId m) (startTime m) (elapsedTime m) (isResetting m) (keepAudioCheckbox m) (includeAudioFileLinkCheckbox m) v (promises m) (pendingStreams m) (intervals m) (effects m).
Definition set_promises v m := mkModal (mediaRecorder m) (chunks m) (resolve m) (isRecording m) (timer m) (intervalId m) (startTime m) (elapsedTime m) (isResetting m) (keepAudioCheckbox m) (includeAudioFileLinkCheckbox m) (recorders m) v (pendingStreams m) (intervals m) (effects m).
Definition set_pendingStreams v m := mkModal (mediaRecorder m) (chunks m) (resolve m) (isRecording m) (timer m) (intervalId m) (startTime m) (elapsedTime m) (isResetting m) (keepAudioCheckbox m) (includeAudioFileLinkCheckbox m) (recorders m) (promises m) v (intervals m) (effects m).
Definition set_intervals v m := mkModal (mediaRecorder m) (chunks m) (resolve m) (isRecording m) (timer m) (intervalId m) (startTime m) (elapsedTime m) (isResetting m) (keepAudioCheckbox m) (includeAudioFileLinkCheckbox m) (recorders m) (promises m) (pendingStreams m) v (effects m).
Definition set_effects v m := mkModal (mediaRecorder m) (chunks m) (resolve m) (isRecording m) (timer m) (intervalId m) (startTime m) (elapsedTime m) (isResetting m) (keepAudioCheckbox m) (includeAudioFileLinkCheckbox m) (recorders m) (promises m) (pendingStreams m) (intervals m) v.

Definition emit (e : Effect) (m : Modal) : Modal :=
  set_effects (effects m ++ [e]) m.

(** A modal that was just constructed: the field initialisers of the class.
    The two checkboxes are created by [onOpen] from the settings handed to
    the constructor; they are given here. *)
Definition new (keepAudio includeAudioFileLink : bool) : Modal :=
  mkModal None [] None false "" None 0 0 false
          keepAudio includeAudioFileLink ∅ [] 0 0 [].

(** *** Host operations *)

(** [MediaRecorder.stop()]: nothing on an inactive recorder; otherwise the
    recorder becomes inactive and its last 'dataavailable' and its 'stop'
    event are queued. *)
Definition recorderStop (r : Recorder) : Recorder :=
  match state r with
  | inactive => r
  | _ => mkRecorder inactive (stopListeners r) (dataListeners r) true
  end.

Definition withRecorder (id : nat) (f : Recorder -> Recorder) (m : Modal) : Modal :=
  set_recorders (alter f id (recorders m)) m.

(** Settling a promise: only a pending promise changes; its awaiting
    continuation, if any, then runs with the value. *)
Definition settle (p : nat) (v : Settlement) (m : Modal) : Modal :=
  match promises m !! p with
  | Some (mkPromise Pending k) =>
      let m1 := set_promises (<[p := mkPromise v k]> (promises m)) m in
      match v, k with
      | Fulfilled audioFile, Some transcribe =>
          emit (HandleAudioRecording audioFile transcribe
                  (keepAudioCheckbox m1) (includeAudioFileLinkCheckbox m1)) m1
      | _, _ => m1
      end
  | _ => m
  end.

(** [new Promise((resolve, reject) => { this.resolve = resolve; ... })]. *)
Definition newPromise (k : option bool) (m : Modal) : Modal :=
  set_resolve (Some (length (promises m)))
    (set_promises (promises m ++ [mkPromise Pending k]) m).

(** *** Methods of the class *)

Definition padNumber (num : Z) : string := Js.padStart2 (Js.numToString num).

Definition stopTimer (m : Modal) : Modal :=
  match intervalId m with
  | Some _ => set_intervalId None m
  | None => m
  end.

Definition startTimer (m : Modal) : Modal :=
  let m1 := stopTimer m in
  set_intervalId (Some (intervals m1)) (set_intervals (S (intervals m1)) m1).

(** The value the interval callback computes and its rendering. *)
Definition elapsedTimeInSeconds (m : Modal) (now : Z) : Z :=
  Js.floorDiv (elapsedTime m) 1000 + Js.floorDiv (now - startTime m) 1000.

Definition timerText (secs : Z) : string :=
  padNumber (Js.floorDiv secs 60) +:+ ":" +:+ padNumber (Js.rem secs 60).

Definition onTick (now : Z) (m : Modal) : Modal :=
  set_timer (timerText (elapsedTimeInSeconds m now)) m.

(** [startRecording()] only requests the stream; the rest runs when the
    request is answered. *)
Definition startRecording (m : Modal) : Modal :=
  set_pendingStreams (S (pendingStreams m)) m.

Definition setupMediaRecorder (m : Modal) : Modal :=
  match mediaRecorder m with
  | Some id => withRecorder id (fun r =>
      mkRecorder (state r) (S (stopListeners r)) (dataListeners r) (stopQueued r)) m
  | None => m
  end.

(** The [then] callback of [getUserMedia]. *)
Definition onStream (now : Z) (m : Modal) : Modal :=
  let id := size (recorders m) in
  let m1 := set_recorders (<[id := mkRecorder inactive 0 0 false]> (recorders m)) m in
  let m2 := setupMediaRecorder (set_mediaRecorder (Some id) m1) in
  let m3 := withRecorder id (fun r =>
      mkRecorder recording (stopListeners r) (dataListeners r) (stopQueued r)) m2 in
  let m4 := startTimer (set_startTime now m3) in
  withRecorder id (fun r =>
      mkRecorder (state r) (stopListeners r) (S (dataListeners r)) (stopQueued r)) m4.

(** The [catch] callback of [getUserMedia]. *)
Definition onStreamError (m : Modal) : Modal :=
  let m1 := emit (ConsoleError "Error accessing microphone:") m in
  match resolve m1 with
  | Some p => settle p Rejected m1
  | None => m1
  end.

Definition onDataAvailable (data : BlobPart) (m : Modal) : Modal :=
  if isResetting m then m
  else set_chunks (chunks m ++ [data]) m.

Definition onStop (m : Modal) : Modal :=
  if isResetting m then set_isResetting false m
  else
    let blob := mkBlob (chunks m) "audio/wav" in
    match resolve m with
    | Some p => emit Close (settle p (Fulfilled (Some blob)) m)
    | None => emit (ConsoleError "Resolve function is not defined") m
    end.

Definition recorderState (m : Modal) : option RecordingState :=
  match mediaRecorder m with
  | Some id => state <$> recorders m !! id
  | None => None
  end.

Definition pauseRecording (now : Z) (m : Modal) : Modal :=
  match mediaRecorder m, recorderState m with
  | Some id, Some recording =>
      let m1 := withRecorder id (fun r =>
        mkRecorder paused (stopListeners r) (dataListeners r) (stopQueued r)) m in
      let m2 := stopTimer m1 in
      set_elapsedTime (elapsedTime m2 + (now - startTime m2)) m2
  | _, _ => m
  end.

Definition resumeOrStartRecording (now : Z) (m : Modal) : Modal :=
  let m1 :=
    match mediaRecorder m, recorderState m with
    | Some id, Some paused =>
        withRecorder id (fun r =>
          mkRecorder recording (stopListeners r) (dataListeners r) (stopQueued r)) m
    | _, _ => startRecording m
    end in
  startTimer (set_startTime now m1).

(** [hardReset()].  The assignments [onstop = null] and
    [ondataavailable = null] clear the handler properties, which this class
    never sets: the listeners added with [addEventListener] stay on the
    released recorder, and its queued events still reach [onDataAvailable]
    and [onStop]. *)
Definition hardReset (m : Modal) : Modal :=
  let m1 :=
    match mediaRecorder m with
    | Some id => set_mediaRecorder None (withRecorder id recorderStop m)
    | None => m
    end in
  let m2 := set_isResetting true m1 in
  let m3 := set_chunks [] m2 in
  let m4 := set_elapsedTime 0 m3 in
  set_timer "00:00" (stopTimer m4).

(** [stopRecording()]; [k] is the continuation of the caller's [await]. *)
Definition stopRecording (k : option bool) (m : Modal) : Modal :=
  let p := length (promises m) in
  let m1 := newPromise k m in
  match mediaRecorder m1 with
  | Some id =>
      let m2 := withRecorder id (fun r =>
        mkRecorder (state r) (S (stopListeners r)) (dataListeners r) (stopQueued r)) m1 in
      stopTimer (withRecorder id recorderStop m2)
  | None => settle p (Fulfilled None) m1
  end.

(** [open()]: [onOpen] starts recording at once, then the promise of [open]
    takes the [resolve] and [reject] slots. *)
Definition onOpen (m : Modal) : Modal :=
  set_isRecording true (startRecording (set_timer "00:00" m)).

Definition open (m : Modal) : Modal := newPromise None (onOpen m).

(** *** Button handlers registered by [onOpen] *)

Definition clickStop (m : Modal) : Modal := stopRecording (Some false) m.

Definition clickTranscribe (m : Modal) : Modal := stopRecording (Some true) m.

Definition clickPlayPause (now : Z) (m : Modal) : Modal :=
  let m1 := if isRecording m then pauseRecording now m
            else resumeOrStartRecording now m in
  set_isRecording (negb (isRecording m)) m1.

Definition clickReset (m : Modal) : Modal :=
  set_isRecording false (hardReset m).

(** *** The transition system *)

Inductive Event :=
| Open
| ClickPlayPause (now : Z)
| ClickStop
| ClickTranscribe
| ClickReset
| SetKeepAudio (checked : bool)
| SetIncludeAudioFileLink (checked : bool)
| StreamGranted (now : Z)
| StreamDenied
| DataAvailable (id : nat) (data : string)
| Stop (id : nat)
| Tick (now : Z).

(** Host events happen only when the host can raise them: a stream answer
    needs an open request, 'dataavailable' a recorder that records or is
    flushing after [stop()], 'stop' a recorder whose stop is queued, a tick
    a live interval.  An event that cannot happen leaves the state as it is. *)
Definition step (m : Modal) (e : Event) : Modal :=
  match e with
  | Open => open m
  | ClickPlayPause now => clickPlayPause now m
  | ClickStop => clickStop m
  | ClickTranscribe => clickTranscribe m
  | ClickReset => clickReset m
  | SetKeepAudio b => set_checkboxes b (includeAudioFileLinkCheckbox m) m
  | SetIncludeAudioFileLink b => set_checkboxes (keepAudioCheckbox m) b m
  | StreamGranted now =>
      match pendingStreams m with
      | S n => onStream now (set_pendingStreams n m)
      | O => m
      end
  | StreamDenied =>
      match pendingStreams m with
      | S n => onStreamError (set_pendingStreams n m)
      | O => m
      end
  | DataAvailable id data =>
      match recorders m !! id with
      | Some r =>
          if match state r with recording => true | _ => stopQueued r end
          then Nat.iter (dataListeners r) (onDataAvailable (mkPart id data)) m
          else m
      | None => m
      end
  | Stop id =>
      match recorders m !! id with
      | Some r =>
          if stopQueued r
          then Nat.iter (stopListeners r) onStop
                 (withRecorder id (fun r =>
                    mkRecorder (state r) (stopListeners r) (dataListeners r) false) m)
          else m
      | None => m
      end
  | Tick now =>
      match intervalId m with
      | Some _ => onTick now m
      | None => m
      end
  end.

Definition run (m : Modal) (es : list Event) : Modal := fold_left step es m.

(** The artifacts handed to [handleAudioRecording], in order. *)
Definition artifacts (m : Modal) : list Blob :=
  omap (fun e => match e with
                 | HandleAudioRecording (Some b) _ _ _ => Some b
                 | _ => None
                 end) (effects m).

(** *** Vocabulary for the properties *)


(** Events that touch nothing but the fragments and the display. *)
Definition quiet (e : Event) : bool :=
  match e with DataAvailable _ _ | Tick _ => true | _ => false end.


(** Pause/resume cycles: each pair is the time of a pause and the time of
    the resume that follows it. *)
Definition cycleEvents (cycles : list (Z * Z)) : list Event :=
  flat_map (fun c => [ClickPlayPause (fst c); ClickPlayPause (snd c)]) cycles.

(** The time spent recording in the intervals the cycles complete, the
    first of which started at [start]. *)
Fixpoint recorded (start : Z) (cycles : list (Z * Z)) : Z :=
  match cycles with
  | [] => 0
  | (p, r) :: cycles' => (p - start) + recorded r cycles'
  end.

(** When the interval that is still running began. *)
Fixpoint lastStart (start : Z) (cycles : list (Z * Z)) : Z :=
  match cycles with
  | [] => start
  | (_, r) :: cycles' => lastStart r cycles'
  end.


(** Agreement on everything but the fragments, the display and the clock. *)
Definition sameBut (m m' : Modal) : Prop :=
  mediaRecorder m' = mediaRecorder m /\ resolve m' = resolve m /\
  promises m' = promises m /\ recorders m' = recorders m /\
  effects m' = effects m /\ isResetting m' = isResetting m /\
  keepAudioCheckbox m' = keepAudioCheckbox m /\
  includeAudioFileLinkCheckbox m' = includeAudioFileLinkCheckbox m.


(** An effect that hands on a blob hands on one declared as audio/wav. *)
Definition wavEffect (e : Effect) : Prop :=
  match e with
  | HandleAudioRecording (Some b) _ _ _ => type b = "audio/wav"%string
  | _ => True
  end.

Definition wavValue (v : Settlement) : Prop :=
  match v with
  | Fulfilled (Some b) => type b = "audio/wav"%string
  | _ => True
  end.

(** *** Vocabulary for further properties *)

(** The fragments the recorders delivered, in the order of delivery. *)
Definition delivered (es : list Event) : list BlobPart :=
  omap (fun e => match e with
                 | DataAvailable id data => Some (mkPart id data)
                 | _ => None
                 end) es.

(** Every recorder has at most the one 'dataavailable' listener
    [startRecording] gives it. *)
Definition singleDataListener (m : Modal) : Prop :=
  map_Forall (fun _ r => (dataListeners r <= 1)%nat) (recorders m).

(** An effect that hands on a blob hands on fragments of [ds], in order. *)
Definition fromDelivered (ds : list BlobPart) (e : Effect) : Prop :=
  match e with
  | HandleAudioRecording (Some b) _ _ _ => sublist (parts b) ds
  | _ => True
  end.

(** What the modal keeps with respect to the fragments [ds] delivered so
    far: the buffer and every blob handed on are made of them, in order. *)
Definition madeOf (ds : list BlobPart) (m : Modal) : Prop :=
  sublist (chunks m) ds /\ Forall (fromDelivered ds) (effects m).

(** The calls of [handleAudioRecording] the modal made. *)
Definition handovers (m : Modal) : nat :=
  length (List.filter (fun e => match e with
                                | HandleAudioRecording _ _ _ _ => true
                                | _ => false
                                end) (effects m)).

(** The presses of the stop square and of "Transcribe". *)
Definition stopClicks (es : list Event) : nat :=
  length (List.filter (fun e => match e with
                                | ClickStop | ClickTranscribe => true
                                | _ => false
                                end) es).

(** A promise a button handler awaits, and one of them that was fulfilled. *)
Definition awaited (c : PromiseCell) : bool :=
  match awaiting c with Some _ => true | None => false end.

Definition fulfilled (c : PromiseCell) : bool :=
  match settlement c, awaiting c with
  | Fulfilled _, Some _ => true
  | _, _ => false
  end.

Definition countIf {A} (f : A -> bool) (l : list A) : nat := length (List.filter f l).

(** The calls made are the fulfilled promises of the stop buttons. *)
Definition accounted (m : Modal) : Prop :=
  handovers m = countIf fulfilled (promises m).


End Modal.

(* ===================================================================== *)
(** ** The plugin (src/main.ts) *)
(* ===================================================================== *)

Module Plugin.

Local Open Scope nat_scope.

(** *** Settings *)

Inductive InsertLocation := inline | newNote.

Record AudioPluginSettings := mkSettings {
  model : string;
  apiKey : string;
  prompt : string;
  defaultNoteFolder : string;
  recordingFilePath : string;
  keepAudio : bool;
  includeAudioFileLink : bool;
  insertTranscriptLocation : InsertLocation;
  templateFilePath : string;
}.

Definition DEFAULT_SETTINGS : AudioPluginSettings :=
  mkSettings "gemini-2.0-flash-lite" ""
    "You will be provided an audio file. Your task is to compose a concise memo from this audio file in markdown (Obsidian). If you are provided a template, follow this template as precisely as possible. Otherwise, structure the memo in a way that makes sense. Do not be conversational, simply return the memo text. Write the text in the first person perspective.
"
    "" "Captain's Log/recordings" true false newNote "".

Definition set_keepAudio v s := mkSettings (model s) (apiKey s) (prompt s) (defaultNoteFolder s) (recordingFilePath s) v (includeAudioFileLink s) (insertTranscriptLocation s) (templateFilePath s).
Definition set_includeAudioFileLink v s := mkSettings (model s) (apiKey s) (prompt s) (defaultNoteFolder s) (recordingFilePath s) (keepAudio s) v (insertTranscriptLocation s) (templateFilePath s).
Definition set_insertTranscriptLocation v s := mkSettings (model s) (apiKey s) (prompt s) (defaultNoteFolder s) (recordingFilePath s) (keepAudio s) (includeAudioFileLink s) v (templateFilePath s).

(** *** The vault *)

(** What a file holds: a note's text or the fragments of a recording. *)
Inductive Content := Text (text : string) | Binary (data : list Modal.BlobPart).

Inductive Node := FileNode (content : Content) | FolderNode.

(** The vault: its files and folders by path, in the order the host lists
    them. *)
Definition Vault := list (string * Node).

(** The fields of an Obsidian [TFile] the code reads. *)
Record TFile := mkTFile { path : string; name : string; extension : string }.

(** [vault.getAbstractFileByPath(path)]. *)
Definition getAbstractFileByPath (v : Vault) (p : string) : option Node :=
  snd <$> List.find (fun e => String.eqb (fst e) p) v.

Definition isTFile (n : option Node) : bool :=
  match n with Some (FileNode _) => true | _ => false end.

Definition isTAbstractFile (n : option Node) : bool :=
  match n with Some _ => true | None => false end.

(** The extension of a file name: what follows its last dot. *)
Definition extname (fileName : string) : string :=
  if Js.hasChar "." fileName then Js.afterLast "." fileName else "".

(** The [TFile] the host hands out for a path. *)
Definition tfileAt (p : string) : TFile :=
  let n := Js.afterLast "/" p in mkTFile p n (extname n).

(** [vault.getFiles()]. *)
Definition getFiles (v : Vault) : list TFile :=
  omap (fun e => match snd e with
                 | FileNode _ => Some (tfileAt (fst e))
                 | FolderNode => None
                 end) v.

(** [vault.delete(file)]. *)
Definition delete (v : Vault) (p : string) : Vault :=
  List.filter (fun e => negb (String.eqb (fst e) p)) v.

(** [folder.children] of the folder at [f]: the entries directly below it. *)
Definition isChildOf (f : string) (p : string) : bool :=
  let dir := f +:+ "/" in
  String.prefix dir p && negb (Js.hasChar "/" (Js.sliceFrom (String.length dir) p)).

Definition children (v : Vault) (f : string) : list (string * Node) :=
  List.filter (fun e => isChildOf f (fst e)) v.

(** Whether a file of the vault lies above the path.  Nothing can be made
    below a file. *)
Definition underFile (v : Vault) (p : string) : bool :=
  existsb (fun e => match snd e with
                    | FileNode _ => String.prefix (fst e +:+ "/") p
                    | FolderNode => false
                    end) v.

(** *** The editor of the active markdown view *)

Record Editor := mkEditor {
  doc : list string;            (* the lines of the document *)
  cursorHead : nat * nat;       (* getCursor(): line, ch *)
  cursorTo : nat * nat;         (* getCursor("to") *)
}.

Definition getLine (ed : Editor) (n : nat) : string := nth n (doc ed) "".

Definition lastLine (ed : Editor) : nat := pred (length (doc ed)).

(** [editor.replaceRange(text, { line, ch })]: the text is inserted at the
    position; line breaks in it split the line. *)
Definition replaceRange (text : string) (pos : nat * nat) (ed : Editor) : Editor :=
  let '(line, ch) := pos in
  let l := getLine ed line in
  let l' := Js.sliceTo ch l +:+ text +:+ Js.sliceFrom ch l in
  mkEditor (firstn line (doc ed) ++ Js.split "010" l' ++ skipn (S line) (doc ed))
           (cursorHead ed) (cursorTo ed).

(** [getNextNewLine(editor, ln)]: the first line from [ln] on that holds
    white space only; when the last line is reached and holds text, an empty
    line is added after it ([setLine] with a trailing line break).  The
    function recurses on the lines from [ln] on. *)
Fixpoint nextNewLine (rest : list string) (ln : nat) : nat * bool :=
  match rest with
  | [] => (ln, false)
  | l :: rest' =>
      if 0 <? String.length (Js.trim l) then
        match rest' with
        | [] => (S ln, true)
        | _ => nextNewLine rest' (S ln)
        end
      else (ln, false)
  end.

Definition getNextNewLine (ed : Editor) (ln : nat) : nat * Editor :=
  let '(newLine, added) := nextNewLine (skipn ln (doc ed)) ln in
  (newLine, if added then mkEditor (doc ed ++ [""]) (cursorHead ed) (cursorTo ed) else ed).

(** *** What the outside answers *)

(** [new Date()]: the two readings the code takes from it. *)
Record Clock := mkClock {
  isoDate : string;     (* toISOString().slice(0, 10) *)
  hours : nat;          (* getHours() *)
}.

(** The outcome of a [fetch]: it throws, or there is a response. *)
Inductive Fetch (A : Type) := NetworkError (message : string) | Response (a : A).
Arguments NetworkError {A} message.
Arguments Response {A} a.

(** The shape of the generation response the code inspects. *)
Record Part := mkPartText { text : option string }.
Record CandidateContent := mkContent { parts : option (list Part) }.
Record Candidate := mkCandidate { content : option CandidateContent }.
Record GenerateData := mkGenerateData { candidates : option (list Candidate) }.

(** The upload response: [uploadData.file] may be missing, and so may its
    [uri]. *)
Inductive UploadData := NoFile | UploadedFile (uri : option string).

Record GeneratePayload := mkPayload {
  payloadModel : string;
  payloadText : string;
  payloadMimeType : string;
  payloadFileUri : string;
}.

Record Remote := mkRemote {
  initResponse : Fetch (option string);         (* x-goog-upload-url *)
  uploadResponse : Fetch UploadData;
  generateResponse : GeneratePayload -> Fetch (option GenerateData);
}.

(** *** The plugin object and its surroundings *)

Record Plugin := mkPlugin {
  settings : AudioPluginSettings;
  writing : bool;
  transcript : string;
  (* surroundings *)
  data : option AudioPluginSettings;    (* what saveData stored last *)
  vault : Vault;
  activeView : option Editor;           (* getActiveViewOfType(MarkdownView) *)
  activeFile : option string;           (* getActiveFile(): its parent.path *)
  notices : list string;
  requests : list GeneratePayload;      (* generateContent calls made *)
  opened : list string;                 (* notes opened in a new leaf *)
}.

Definition set_settings v p := mkPlugin v (writing p) (transcript p) (data p) (vault p) (activeView p) (activeFile p) (notices p) (requests p) (opened p).
Definition set_transcript v p := mkPlugin (settings p) (writing p) v (data p) (vault p) (activeView p) (activeFile p) (notices p) (requests p) (opened p).
Definition set_data v p := mkPlugin (settings p) (writing p) (transcript p) v (vault p) (activeView p) (activeFile p) (notices p) (requests p) (opened p).
Definition set_vault v p := mkPlugin (settings p) (writing p) (transcript p) (data p) v (activeView p) (activeFile p) (notices p) (requests p) (opened p).
Definition set_activeView v p := mkPlugin (settings p) (writing p) (transcript p) (data p) (vault p) v (activeFile p) (notices p) (requests p) (opened p).
Definition set_activeFile v p := mkPlugin (settings p) (writing p) (transcript p) (data p) (vault p) (activeView p) v (notices p) (requests p) (opened p).
Definition set_notices v p := mkPlugin (settings p) (writing p) (transcript p) (data p) (vault p) (activeView p) (activeFile p) v (requests p) (opened p).
Definition set_requests v p := mkPlugin (settings p) (writing p) (transcript p) (data p) (vault p) (activeView p) (activeFile p) (notices p) v (opened p).
Definition set_opened v p := mkPlugin (settings p) (writing p) (transcript p) (data p) (vault p) (activeView p) (activeFile p) (notices p) (requests p) v.

(** What the host library and the missing module [./Utils] provide. *)
Class Host := {
  (** Obsidian's [normalizePath]. *)
  normalizePath : string -> string;
  (** [decodeURI]; [None] when it throws a [URIError]. *)
  decodeURI : string -> option string;
  (** [saveFile(app, audioFile, fileName, path)] of [./Utils]; [None] when
      it throws. *)
  saveFile : Vault -> Modal.Blob -> string -> string -> option (Vault * TFile);
  (** [workspace.getLeaf(true).openFile(file)] for the note at a path with
      a content: [None] when the new leaf stays in the background, or the
      editor that becomes the active view and the folder of what is then
      the active file. *)
  openFile : string -> string -> option (Editor * string);
}.

(** *** Asynchronous methods: state, exceptions, and loops that may not end *)

Inductive Completion (A : Type) :=
| Normal (a : A)
| Throw (message : string)
| Hang.
Arguments Normal {A} a.
Arguments Throw {A} message.
Arguments Hang {A}.

Definition Async (A : Type) : Type := Plugin -> Completion A * Plugin.

#[global] Instance Async_ret : MRet Async := fun A a p => (Normal a, p).

#[global] Instance Async_bind : MBind Async := fun A B f m p =>
  match m p with
  | (Normal a, p') => f a p'
  | (Throw msg, p') => (Throw msg, p')
  | (Hang, p') => (Hang, p')
  end.

Definition throw {A} (msg : string) : Async A := fun p => (Throw msg, p).

Definition hang {A} : Async A := fun p => (Hang, p).

(** [try { body } catch (error) { handler(error.message) }]. *)
Definition tryCatch {A} (body : Async A) (handler : string -> Async A) : Async A :=
  fun p =>
    match body p with
    | (Throw msg, p') => handler msg p'
    | r => r
    end.

Definition get : Async Plugin := fun p => (Normal p, p).

Definition modify (f : Plugin -> Plugin) : Async unit := fun p => (Normal tt, f p).

(** [new Notice(msg)]. *)
Definition Notice (msg : string) : Async unit :=
  modify (fun p => set_notices (notices p ++ [msg]) p).

(** [await fetch(...)]. *)
Definition fetch {A} (r : Fetch A) : Async A :=
  match r with
  | NetworkError msg => throw msg
  | Response a => mret a
  end.

(** *** Helpers of the class *)

(** The time-of-day bucket both [handleAudioRecording] and
    [transcribeRecording] derive from [getHours()]. *)
Definition period (hours : nat) : string :=
  if (4 <=? hours) && (hours <? 12) then "Morning"
  else if (12 <=? hours) && (hours <? 20) then "Afternoon"
  else "Night".

(** The loop the code uses wherever it makes a name unique:
<<
    let count = 1;
    while (taken(name)) { count++; name = next(count); }
>>
    [fuel] bounds the number of iterations; [None] when it runs out. *)
Fixpoint untilFree (taken : string -> bool) (next : nat -> string)
    (fuel count : nat) (name : string) : option string :=
  if taken name then
    match fuel with
    | O => None
    | S fuel' => untilFree taken next fuel' (S count) (next (S count))
    end
  else Some name.

Definition loopUntilFree (taken : string -> bool) (next : nat -> string)
    (fuel : nat) (name : string) : Async string :=
  match untilFree taken next fuel 1 name with
  | Some n => mret n
  | None => hang
  end.

Definition saveSettings : Async unit :=
  modify (fun p => set_data (Some (settings p)) p).

(** [getMimeType(file)]. *)
Definition getMimeType (file : TFile) : string :=
  let ext := Js.toLowerCase (extension file) in
  if String.eqb ext "mp3" then "audio/mp3"
  else if String.eqb ext "wav" then "audio/wav"
  else "application/octet-stream".

(** [vault.read(file)]. *)
Definition contentText (c : Content) : string :=
  match c with
  | Text t => t
  | Binary d => String.concat "" (map Modal.payload d)
  end.

(** [loadTemplateContent()]. *)
Definition loadTemplateContent : Async string :=
  p ← get;
  let templateFilePath := templateFilePath (settings p) in
  if Js.truthy templateFilePath && (0 <? String.length (Js.trim templateFilePath))
  then
    match getAbstractFileByPath (vault p) templateFilePath with
    | Some (FileNode c) => mret (contentText c)
    | _ => mret ""      (* console.warn("Template file not found at ...") *)
    end
  else mret "".

(** The instruction text sent with the audio. *)
Definition combinedPrompt (prompt templateContent : string) : string :=
  prompt +:+ (if Js.truthy templateContent
              then "

Template:
" +:+ templateContent
              else "").

(** [candidates[0].content.parts[0].text], when every test of the response
    shape passes. *)
Definition firstText (generateData : option GenerateData) : option string :=
  g ← generateData;
  cs ← candidates g;
  c ← head cs;
  ct ← content c;
  ps ← parts ct;
  pt ← head ps;
  t ← text pt;
  if Js.truthy t then Some t else None.

(** The recording's file names, first and numbered. *)
Definition recordingName (formattedDate period : string) : string :=
  "recording-" +:+ formattedDate +:+ "-" +:+ period +:+ ".mp3".

Definition recordingNameN (formattedDate period : string) (count : nat) : string :=
  "recording-" +:+ formattedDate +:+ "-" +:+ period +:+ "-"
    +:+ Js.natToString count +:+ ".mp3".

(** The note's titles, first and numbered. *)
Definition noteTitle (formattedDate ampm : string) : string :=
  "Captain's Log " +:+ formattedDate +:+ "-" +:+ ampm.

Definition noteTitleN (formattedDate ampm : string) (noteCount : nat) : string :=
  "Captain's Log " +:+ formattedDate +:+ "-" +:+ ampm +:+ "-"
    +:+ Js.natToString noteCount.

Definition present (v : Vault) (p : string) : bool :=
  isTAbstractFile (getAbstractFileByPath v p).

(** *** The link patterns of [commandGenerateTranscript]

    The two regular expressions of main.ts, lines 461 and 462, both with
    the g flag.  Each matches one or more characters other than the two
    square brackets, greedily, then a dot and mp3 or wav.  They differ in
    what must stand before the match (the lookbehind) and after it (the
    lookahead):
    - wiki links: two opening square brackets before, two closing ones
      after;
    - markdown links: before, an opening square bracket, any characters of
      the same line, a closing square bracket and an opening parenthesis;
      after, a closing parenthesis. *)
Inductive LinkPattern := WikiLink | MarkdownLink.

Definition isBracket (c : ascii) : bool :=
  Ascii.eqb c "[" || Ascii.eqb c "]".

(** Line terminators, which the dot of a pattern does not match. *)
Definition isLineTerminator (c : ascii) : bool :=
  Ascii.eqb c "010" || Ascii.eqb c "013".

(** How far the character class can reach: the length of the longest prefix
    without a square bracket. *)
Fixpoint reach (s : string) : nat :=
  match s with
  | String c s' => if isBracket c then 0 else S (reach s')
  | EmptyString => 0
  end.

(** The lookahead. *)
Definition closer (pat : LinkPattern) : string :=
  match pat with WikiLink => "]]" | MarkdownLink => ")" end.

(** With [k] characters taken by the class: do the dot and the extension
    follow, and then the lookahead? *)
Definition endsAt (pat : LinkPattern) (s : string) (k : nat) : bool :=
  let rest := Js.sliceFrom k s in
  (String.prefix ".mp3" rest || String.prefix ".wav" rest)
  && String.prefix (closer pat) (Js.sliceFrom (k + 4) s).

(** Greedy matching with backtracking: the class first takes all it can
    reach and gives characters back one at a time; the result is the length
    of the match. *)
Fixpoint backtrack (pat : LinkPattern) (s : string) (k : nat) : option nat :=
  match k with
  | O => None
  | S k' => if endsAt pat s k then Some (k + 4) else backtrack pat s k'
  end.

Definition matchHere (pat : LinkPattern) (s : string) : option nat :=
  backtrack pat s (reach s).

(** The markdown lookbehind read backwards, from the character before the
    closing bracket and the parenthesis: an opening bracket must come before
    any line terminator. *)
Fixpoint openBracketOnLine (before : string) : bool :=
  match before with
  | EmptyString => false
  | String c b =>
      if Ascii.eqb c "[" then true
      else if isLineTerminator c then false
      else openBracketOnLine b
  end.

(** The lookbehind, on the text before the position, nearest character
    first. *)
Definition lookbehind (pat : LinkPattern) (before : string) : bool :=
  match pat, before with
  | WikiLink, String "[" (String "[" _) => true
  | MarkdownLink, String "(" (String "]" b) => openBracketOnLine b
  | _, _ => false
  end.

(** The results of calling [reg.exec(text)] until it returns [null]: each
    match with its index, found from [lastIndex] on, leftmost first;
    [lastIndex] then moves to the end of the match.  [skip] counts the
    characters left before [lastIndex]. *)
Fixpoint matchesFrom (pat : LinkPattern) (before s : string) (skip idx : nat)
    : list (nat * string) :=
  match s with
  | EmptyString => []
  | String c s' =>
      match skip with
      | S k => matchesFrom pat (String c before) s' k (S idx)
      | O =>
          match (if lookbehind pat before then matchHere pat s else None) with
          | Some len =>
              (idx, Js.sliceTo len s)
                :: matchesFrom pat (String c before) s' (len - 1) (S idx)
          | None => matchesFrom pat (String c before) s' 0 (S idx)
          end
      end
  end.

Definition execAll (pat : LinkPattern) (text : string) : list (nat * string) :=
  matchesFrom pat "" text 0 0.

(** The array [commandGenerateTranscript] passes to [findFilePath]. *)
Definition regex : list LinkPattern := [WikiLink; MarkdownLink].

Section WithHost.

Context `{Host}.

(** The three places a new note can go, each with the path its loop tests
    for a title and the path the note is then created at (main.ts, lines
    360-397). *)
Inductive NoteFolder :=
| DefaultFolder (defaultFolder : string)
| ActiveFolder (folderPath : string)
| VaultRoot.

Definition testedPath (dest : NoteFolder) (title : string) : string :=
  match dest with
  | DefaultFolder d => normalizePath (d +:+ "/" +:+ title +:+ ".md")
  | ActiveFolder f => f +:+ "/" +:+ title +:+ ".md"
  | VaultRoot => title +:+ ".md"
  end.

Definition notePathOf (dest : NoteFolder) (finalTitle : string) : string :=
  match dest with
  | DefaultFolder d => normalizePath (d +:+ "/" +:+ finalTitle +:+ ".md")
  | ActiveFolder f => normalizePath (f +:+ "/" +:+ finalTitle +:+ ".md")
  | VaultRoot => finalTitle +:+ ".md"
  end.

Definition noteFolder (p : Plugin) : NoteFolder :=
  let defaultFolder := Js.trim (defaultNoteFolder (settings p)) in
  if Js.truthy defaultFolder then DefaultFolder defaultFolder
  else match activeFile p with
       | Some folderPath => ActiveFolder folderPath
       | None => VaultRoot
       end.

(** The title loop of the new-note branch. *)
Definition finalTitle (fuel : nat) (v : Vault) (dest : NoteFolder)
    (formattedDate ampm : string) : option string :=
  untilFree (fun t => present v (testedPath dest t))
            (noteTitleN formattedDate ampm) fuel 1
            (noteTitle formattedDate ampm).

(** [vault.createFolder(path)]: it throws when an entry is at the path
    already or a file lies above it, and adds the folder otherwise. *)
Definition createFolder (folderPath : string) : Async unit :=
  p ← get;
  if present (vault p) folderPath then throw "Folder already exists."
  else if underFile (vault p) folderPath then throw "ENOTDIR: not a directory"
  else modify (fun p => set_vault (vault p ++ [(folderPath, FolderNode)])%list p).

(** [vault.create(path, data)]: it throws when an entry is at the path
    already or a file lies above it, and adds the note otherwise. *)
Definition create (notePath data : string) : Async unit :=
  p ← get;
  if present (vault p) notePath then throw "File already exists."
  else if underFile (vault p) notePath then throw "ENOTDIR: not a directory"
  else modify (fun p => set_vault (vault p ++ [(notePath, FileNode (Text data))])%list p).

(** [workspace.getLeaf(true).openFile(newFile)]: the note is opened in a
    new leaf, and the host decides whether that leaf becomes the active
    view. *)
Definition openInNewLeaf (notePath data : string) : Async unit :=
  modify (fun p => set_opened (opened p ++ [notePath]) p);;
  match openFile notePath data with
  | Some (editor, folderPath) =>
      modify (fun p => set_activeFile (Some folderPath) (set_activeView (Some editor) p))
  | None => mret tt
  end.

(** The new-note branch of [transcribeRecording] (lines 336-407). *)
Definition placeInNewNote (fuel : nat) (now : Clock) (audioFile : TFile) : Async unit :=
  p ← get;
  let transcriptContent :=
    (if includeAudioFileLink (settings p)
     then "![[" +:+ path audioFile +:+ "]]

"
     else "") +:+ transcript p in
  let formattedDate := isoDate now in
  let ampm := period (hours now) in
  let dest := noteFolder p in
  match dest with
  | DefaultFolder defaultFolder =>
      if present (vault p) defaultFolder then mret tt
      else
        tryCatch (createFolder defaultFolder)
          (fun _ => Notice ("Failed to create folder: " +:+ defaultFolder
                            +:+ ". Using vault root instead."))
  | _ => mret tt
  end;;
  p ← get;
  match finalTitle fuel (vault p) dest formattedDate ampm with
  | None => hang
  | Some title =>
      let notePath := notePathOf dest title in
      tryCatch
        (create notePath transcriptContent;;
         Notice ("Transcript generated in a new note: " +:+ title +:+ ".md");;
         openInNewLeaf notePath transcriptContent)
        (fun _ => Notice "Failed to create new note for transcript.")
  end.

(** The inline branch (lines 329-334). *)
Definition placeInline : Async unit :=
  p ← get;
  match activeView p with
  | None => throw "Cannot read properties of null (reading 'editor')"
  | Some editor =>
      let '(LnToWrite, editor1) := getNextNewLine editor (fst (cursorTo editor)) in
      modify (set_activeView (Some (replaceRange (transcript p) (LnToWrite, 0) editor1)));;
      Notice "Transcript generated and inserted inline."
  end.

(** The [try] block of [transcribeRecording] (lines 247-411): upload,
    prompt assembly, generation and placement. *)
Definition transcribeBody (fuel : nat) (now : Clock) (remote : Remote)
    (audioFile : TFile) (mimeType : string) : Async unit :=
  uploadUrl ← fetch (initResponse remote);
  match uploadUrl with
  | Some url => if Js.truthy url then mret tt else throw "Failed to retrieve upload URL"
  | None => throw "Failed to retrieve upload URL"
  end;;
  uploadData ← fetch (uploadResponse remote);
  fileUri ← match uploadData with
            | NoFile => throw "Cannot read properties of undefined (reading 'uri')"
            | UploadedFile None => throw "File URI not returned from upload"
            | UploadedFile (Some uri) =>
                if Js.truthy uri then mret uri
                else throw "File URI not returned from upload"
            end;
  Notice "Audio uploaded. Generating transcript...";;
  templateContent ← loadTemplateContent;
  p ← get;
  let payload := mkPayload (model (settings p))
                   (combinedPrompt (prompt (settings p)) templateContent)
                   mimeType fileUri in
  modify (fun p => set_requests (requests p ++ [payload]) p);;
  generateData ← fetch (generateResponse remote payload);
  match firstText generateData with
  | Some t =>
      modify (set_transcript t);;
      p ← get;
      match insertTranscriptLocation (settings p) with
      | inline => placeInline
      | newNote => placeInNewNote fuel now audioFile
      end
  | None => throw "No text returned from AI model."
  end.

(** The switch to a new note when inline insertion has no note to go to
    (lines 230-234). *)
Definition fallBackToNewNote : Async unit :=
  p ← get;
  match insertTranscriptLocation (settings p), activeView p with
  | inline, None =>
      Notice "No active file open. Defaulting to generating the transcript in a new note.";;
      modify (fun p => set_settings (set_insertTranscriptLocation newNote (settings p)) p)
  | _, _ => mret tt
  end.

(** [vault.adapter.readBinary(path)], which is outside the [try] block. *)
Definition readBinary (filePath : string) : Async unit :=
  p ← get;
  match getAbstractFileByPath (vault p) filePath with
  | Some (FileNode _) => mret tt
  | _ => throw "ENOENT: no such file or directory"
  end.

(** [transcribeRecording(audioFile)]. *)
Definition transcribeRecording (fuel : nat) (now : Clock) (remote : Remote)
    (audioFile : TFile) : Async unit :=
  fallBackToNewNote;;
  Notice "Processing audio for transcription...";;
  let mimeType := getMimeType audioFile in
  readBinary (path audioFile);;
  tryCatch (transcribeBody fuel now remote audioFile mimeType)
           (fun message => Notice message).

(** [handleAudioRecording(audioFile, transcribe, keepAudio,
    includeAudioFileLink)]; [now] is the clock reading it takes, [later] the
    one [transcribeRecording] takes. *)
Definition handleAudioRecording (fuel : nat) (now later : Clock) (remote : Remote)
    (audioFile : option Modal.Blob)
    (transcribe keepAudio includeAudioFileLink : bool) : Async unit :=
  tryCatch
    (match audioFile with
     | None => mret tt       (* console.log('No audio was recorded.') *)
     | Some blob =>
         p ← get;
         let recordingFolder := Js.trim (recordingFilePath (settings p)) in
         let formattedDate := isoDate now in
         let period := period (hours now) in
         fileName ←
           (if Js.truthy recordingFolder
            then loopUntilFree
                   (fun n => present (vault p) (normalizePath (recordingFolder +:+ "/" +:+ n)))
                   (recordingNameN formattedDate period) fuel
                   (recordingName formattedDate period)
            else loopUntilFree
                   (fun n => present (vault p) n)
                   (recordingNameN formattedDate period) fuel
                   (recordingName formattedDate period));
         file ← match saveFile (vault p) blob fileName (recordingFilePath (settings p)) with
                | Some (v, file) => modify (set_vault v);; mret file
                | None => throw "saveFile failed"
                end;
         modify (fun p => set_settings
                   (set_includeAudioFileLink includeAudioFileLink
                      (set_keepAudio keepAudio (settings p))) p);;
         saveSettings;;
         p ← get;
         (if includeAudioFileLink && keepAudio &&
             match insertTranscriptLocation (settings p) with
             | newNote => false
             | inline => true
             end
          then match activeView p with
               | Some editor =>
                   let link := "![[" +:+ path file +:+ "]]" in
                   modify (set_activeView (Some (replaceRange link (cursorHead editor) editor)))
               | None => Notice "No active editor found. Audio file link not inserted."
               end
          else mret tt);;
         if transcribe then
           transcribeRecording fuel later remote file;;
           if negb keepAudio then
             modify (fun p => set_vault (delete (vault p) (path file)) p);;
             p ← get;
             let folderPath := recordingFilePath (settings p) in
             match getAbstractFileByPath (vault p) folderPath with
             | Some FolderNode =>
                 if length (children (vault p) folderPath) =? 0
                 then modify (fun p => set_vault (delete (vault p) folderPath) p)
                 else mret tt
             | Some (FileNode _) =>
                 throw "Cannot read properties of undefined (reading 'length')"
             | None => mret tt
             end
           else mret tt
         else mret tt
     end)
    (fun _ => Notice "Failed to handle audio recording").

(** [findFilePath(text, regex)]: every match of every pattern, in the
    order of the array, overwrites [filename]. *)
Fixpoint eachMatch (results : list (nat * string)) (filename : string) : Async string :=
  match results with
  | [] => mret filename
  | (_, result0) :: results' =>
      match decodeURI result0 with
      | Some decoded => eachMatch results' (Js.trim (normalizePath decoded))
      | None => throw "URI malformed"
      end
  end.

Fixpoint eachRegex (regex : list LinkPattern) (text filename : string) : Async string :=
  match regex with
  | [] => mret filename
  | reg :: regex' =>
      filename' ← eachMatch (execAll reg text) filename;
      eachRegex regex' text filename'
  end.

Definition findFilePath (text : string) (regex : list LinkPattern) : Async string :=
  filename ← eachRegex regex text "";
  if String.eqb filename "" then throw "No file found in the text."
  else
    p ← get;
    let fullPath := filename in
    if isTAbstractFile (getAbstractFileByPath (vault p) fullPath) then mret fullPath
    else
      match List.find (fun file => String.eqb (name file) (Js.afterLast "/" filename))
                      (getFiles (vault p)) with
      | Some foundFile => mret (path foundFile)
      | None => throw "File not found"
      end.

End WithHost.

(** *** Vocabulary for the properties *)

(** The [k]-th title the loop of the new-note branch tries, from 1. *)
Definition titleCandidate (formattedDate ampm : string) (k : nat) : string :=
  if k =? 1 then noteTitle formattedDate ampm else noteTitleN formattedDate ampm k.

(** The [k]-th file name the loop of [handleAudioRecording] tries, from 1. *)
Definition nameCandidate (formattedDate period : string) (k : nat) : string :=
  if k =? 1 then recordingName formattedDate period
  else recordingNameN formattedDate period k.

(** Every value [findFilePath] assigns to [filename], before decoding and
    normalising, with the index of the match: all matches of the first
    pattern, then all matches of the second. *)
Definition assignments (regex : list LinkPattern) (text : string) : list (nat * string) :=
  flat_map (fun reg => execAll reg text) regex.

(** The match [findFilePath] ends with: the last assignment. *)
Definition chosen (regex : list LinkPattern) (text : string) : option (nat * string) :=
  last (assignments regex text).

(** The reading of the specification: of all matches of all patterns, the
    one that starts last in the text. *)
Definition lastByPosition (regex : list LinkPattern) (text : string) : option (nat * string) :=
  fold_left (fun acc m =>
               match acc with
               | Some a => if fst a <? fst m then Some m else acc
               | None => Some m
               end) (assignments regex text) None.

(** A host for the worked examples.  The theorems hold for every host; the
    examples use paths made of plain segments and text without escapes, on
    which this host only joins segments with single slashes and decodes
    nothing, and a [saveFile] that stores the recording under the folder and
    name it is given.  It opens a new note in the background. *)
Definition joinSegments (s : string) : string :=
  match List.filter Js.truthy (Js.split "/" s) with
  | [] => "/"
  | segments => String.concat "/" segments
  end.

Definition exampleHost : Host := {|
  normalizePath := joinSegments;
  decodeURI := fun s => if Js.hasChar "%" s then None else Some s;
  saveFile := fun v blob fileName folder =>
    let p := joinSegments (folder +:+ "/" +:+ fileName) in
    if present v p then None
    else Some ((v ++ [(p, FileNode (Binary (Modal.parts blob)))])%list,
               mkTFile p fileName (extname fileName));
  openFile := fun _ _ => None;
|}.

(** The folder of a path, as [file.parent.path] gives it: [/] for the vault
    root. *)
Definition parentPath (p : string) : string :=
  match List.filter Js.truthy (Js.split "/" p) with
  | [] | [_] => "/"
  | segments => String.concat "/" (removelast segments)
  end.

(** The same host but for the new leaf, which becomes the active view: the
    editor shows the note, the cursor at its start. *)
Definition frontHost : Host := {|
  normalizePath := joinSegments;
  decodeURI := decodeURI (Host := exampleHost);
  saveFile := saveFile (Host := exampleHost);
  openFile := fun notePath content =>
    Some (mkEditor (Js.split "010" content) (0, 0) (0, 0), parentPath notePath);
|}.

(** The names the loop [untilFree] tries: [name] first, then [next] of the
    counter. *)
Definition tried (next : nat -> string) (count : nat) (name : string) (j : nat) : string :=
  match j with O => name | S _ => next (count + j) end.

(** What [findFilePath] makes of a match: decoded, normalised, trimmed. *)
Definition decoded `{Host} (m : string) : string :=
  Js.trim (normalizePath (default "" (decodeURI m))).

(** A relation between the state before and after that every step of a
    method maintains. *)
Definition stable (R : Plugin -> Plugin -> Prop) {A} (c : Async A) : Prop :=
  forall p, R p (snd (c p)).

(** The settings in memory and the stored data are as before. *)
Definition sameConfig (p p' : Plugin) : Prop :=
  settings p' = settings p /\ data p' = data p.

(** No generation request was made. *)
Definition sameRequests (p p' : Plugin) : Prop := requests p' = requests p.

(** Requests only accumulate, and those added declare audio/mp3. *)
Definition mp3Only (p p' : Plugin) : Prop :=
  exists sent, requests p' = (requests p ++ sent)%list /\
               Forall (fun x => payloadMimeType x = "audio/mp3") sent.

(** *** Loading the settings, and the settings tab *)

Definition set_model v s := mkSettings v (apiKey s) (prompt s) (defaultNoteFolder s) (recordingFilePath s) (keepAudio s) (includeAudioFileLink s) (insertTranscriptLocation s) (templateFilePath s).
Definition set_apiKey v s := mkSettings (model s) v (prompt s) (defaultNoteFolder s) (recordingFilePath s) (keepAudio s) (includeAudioFileLink s) (insertTranscriptLocation s) (templateFilePath s).
Definition set_prompt v s := mkSettings (model s) (apiKey s) v (defaultNoteFolder s) (recordingFilePath s) (keepAudio s) (includeAudioFileLink s) (insertTranscriptLocation s) (templateFilePath s).
Definition set_defaultNoteFolder v s := mkSettings (model s) (apiKey s) (prompt s) v (recordingFilePath s) (keepAudio s) (includeAudioFileLink s) (insertTranscriptLocation s) (templateFilePath s).
Definition set_recordingFilePath v s := mkSettings (model s) (apiKey s) (prompt s) (defaultNoteFolder s) v (keepAudio s) (includeAudioFileLink s) (insertTranscriptLocation s) (templateFilePath s).
Definition set_templateFilePath v s := mkSettings (model s) (apiKey s) (prompt s) (defaultNoteFolder s) (recordingFilePath s) (keepAudio s) (includeAudioFileLink s) (insertTranscriptLocation s) v.
Definition set_writing v p := mkPlugin (settings p) v (transcript p) (data p) (vault p) (activeView p) (activeFile p) (notices p) (requests p) (opened p).

(** What [loadData()] resolves to: [null], or the stored object, in which
    any key can be missing (a file written by an earlier version). *)
Record StoredSettings := mkStored {
  storedModel : option string;
  storedApiKey : option string;
  storedPrompt : option string;
  storedDefaultNoteFolder : option string;
  storedRecordingFilePath : option string;
  storedKeepAudio : option bool;
  storedIncludeAudioFileLink : option bool;
  storedInsertTranscriptLocation : option InsertLocation;
  storedTemplateFilePath : option string;
}.

(** The object [saveData(this.settings)] stores: every key is there. *)
Definition stored (s : AudioPluginSettings) : StoredSettings :=
  mkStored (Some (model s)) (Some (apiKey s)) (Some (prompt s))
    (Some (defaultNoteFolder s)) (Some (recordingFilePath s)) (Some (keepAudio s))
    (Some (includeAudioFileLink s)) (Some (insertTranscriptLocation s))
    (Some (templateFilePath s)).

(** [Object.assign({}, defaults, loaded)]: a key of [loaded] wins. *)
Definition objectAssign (defaults : AudioPluginSettings) (loaded : option StoredSettings)
    : AudioPluginSettings :=
  match loaded with
  | None => defaults
  | Some o =>
      mkSettings
        (default (model defaults) (storedModel o))
        (default (apiKey defaults) (storedApiKey o))
        (default (prompt defaults) (storedPrompt o))
        (default (defaultNoteFolder defaults) (storedDefaultNoteFolder o))
        (default (recordingFilePath defaults) (storedRecordingFilePath o))
        (default (keepAudio defaults) (storedKeepAudio o))
        (default (includeAudioFileLink defaults) (storedIncludeAudioFileLink o))
        (default (insertTranscriptLocation defaults) (storedInsertTranscriptLocation o))
        (default (templateFilePath defaults) (storedTemplateFilePath o))
  end.

(** [loadSettings()]; [loaded] is what [loadData()] resolves to. *)
Definition loadSettings (loaded : option StoredSettings) : Async unit :=
  modify (set_settings (objectAssign DEFAULT_SETTINGS loaded)).

(** The controls of the settings tab ([display()], main.ts 535-658): each
    [onChange] handler writes one setting and saves. *)
Inductive SettingChange :=
| ChangeApiKey (value : string)
| ChangeModel (value : string)
| ChangePrompt (value : string)
| ChangeDefaultNoteFolder (value : string)
| ChangeRecordingFilePath (value : string)
| ChangeKeepAudio (value : bool)
| ChangeIncludeAudioFileLink (value : bool)
| ChangeInsertTranscriptLocation (value : InsertLocation)
| ChangeTemplateFilePath (value : string).

Definition applyChange (c : SettingChange) (s : AudioPluginSettings) : AudioPluginSettings :=
  match c with
  | ChangeApiKey value => set_apiKey value s
  | ChangeModel value => set_model value s
  | ChangePrompt value => set_prompt value s
  | ChangeDefaultNoteFolder value => set_defaultNoteFolder (Js.trim value) s
  | ChangeRecordingFilePath value => set_recordingFilePath value s
  | ChangeKeepAudio value => set_keepAudio value s
  | ChangeIncludeAudioFileLink value => set_includeAudioFileLink value s
  | ChangeInsertTranscriptLocation value => set_insertTranscriptLocation value s
  | ChangeTemplateFilePath value => set_templateFilePath value s
  end.

Definition onChange (c : SettingChange) : Async unit :=
  modify (fun p => set_settings (applyChange c (settings p)) p);;
  saveSettings.

(** Changes made one after the other. *)
Fixpoint onChanges (cs : list SettingChange) : Async unit :=
  match cs with
  | [] => mret tt
  | c :: cs' => onChange c;; onChanges cs'
  end.

(** *** Writing into the editor *)

(** [editor.setLine(n, text)]: line [n] is replaced by the text; line
    breaks in it make further lines. *)
Definition setLine (n : nat) (text : string) (ed : Editor) : Editor :=
  mkEditor (firstn n (doc ed) ++ Js.split "010" text ++ skipn (S n) (doc ed))%list
           (cursorHead ed) (cursorTo ed).

(** [writeText(editor, lnToWrite, text)]. *)
Definition writeText (ed : Editor) (lnToWrite : nat) (text : string) : nat * Editor :=
  let '(newLine, ed1) := getNextNewLine ed lnToWrite in
  (newLine, setLine newLine (String "010" (Js.trim text) +:+ String "010" "") ed1).

(** [editor.getRange({ line: 0, ch: 0 }, position)]: the text before the
    position, its lines joined by line breaks. *)
Definition getRange (ed : Editor) (position : nat * nat) : string :=
  let '(line, ch) := position in
  String.concat (String "010" "")
    (firstn line (doc ed) ++ [Js.sliceTo ch (getLine ed line)])%list.

Section Commands.

Context `{Host}.

(** The callback [commandGenerateTranscript] runs once the linked file was
    read (main.ts 476-489). *)
Definition generateFromLink (fuel : nat) (now : Clock) (remote : Remote)
    (linked : string) : Async unit :=
  p ← get;
  if writing p then Notice "Generator is already in progress."
  else
    modify (set_writing true);;
    Notice "Generating transcript...";;
    p ← get;
    match getAbstractFileByPath (vault p) linked with
    | Some (FileNode _) => transcribeRecording fuel now remote (tfileAt linked)
    | _ => throw "File not found in vault."
    end;;
    modify (set_writing false).

(** [commandGenerateTranscript(editor)].  The promise of
    [adapter.exists(path)] and what is chained to it is not returned to the
    outer chain: a rejection there reaches no handler, so it ends the
    command without a notice. *)
Definition commandGenerateTranscript (fuel : nat) (now : Clock) (remote : Remote)
    (editor : Editor) : Async unit :=
  let position := cursorHead editor in
  let text := getRange editor position in
  tryCatch
    (linked ← findFilePath text regex;
     let fileType := Js.afterLast "." linked in
     if negb (Js.truthy fileType) then Notice "No audio file found"
     else
       tryCatch
         (p ← get;
          (if present (vault p) linked then mret tt
           else throw (linked +:+ " does not exist"));;
          readBinary linked;;
          generateFromLink fuel now remote linked)
         (fun _ => mret tt))
    (fun message => Notice message).

(** The callback of the command "Transcribe Audio" (main.ts 72-83). *)
Definition commandTranscribeAudio (fuel : nat) (now : Clock) (remote : Remote) : Async unit :=
  p ← get;
  match activeView p with
  | Some editor => commandGenerateTranscript fuel now remote editor
  | None => Notice "No active file open. The transcript will be generated in a new note."
  end.

End Commands.

(** A line that holds white space only. *)
Definition blank (l : string) : bool := negb (0 <? String.length (Js.trim l)).

(** The vault keeps every entry and their order; entries are added at the
    end only. *)
Definition vaultGrows (p p' : Plugin) : Prop :=
  exists added, vault p' = (vault p ++ added)%list.

(** Nothing was placed: vault, editor and the notes opened are as before. *)
Definition nothingPlaced (p p' : Plugin) : Prop :=
  vault p' = vault p /\ activeView p' = activeView p /\ opened p' = opened p /\
  transcript p' = transcript p.

(** A computation that ends, normally or with an error, and one that
    always ends with an error. *)
Definition ends {A} (c : Async A) : Prop :=
  forall p, (exists a p', c p = (Normal a, p')) \/ (exists message p', c p = (Throw message, p')).

Definition throws {A} (c : Async A) : Prop :=
  forall p, exists message p', c p = (Throw message, p').

(** The generation request is not answered with a text: the request fails,
    or the response lacks a text at the place the code reads. *)
Definition noText (remote : Remote) : Prop :=
  forall payload,
    match generateResponse remote payload with
    | NetworkError _ => True
    | Response generateData => firstText generateData = None
    end.

(** Nothing but the notices differs. *)
Definition onlyNotices (p p' : Plugin) : Prop :=
  settings p' = settings p /\ writing p' = writing p /\ transcript p' = transcript p /\
  data p' = data p /\ vault p' = vault p /\ activeView p' = activeView p /\
  activeFile p' = activeFile p /\ requests p' = requests p /\ opened p' = opened p.


Section Recording.

Context `{Host}.

(** The file name the loop of [handleAudioRecording] ends with (main.ts
    172-188), [None] when the fuel runs out. *)
Definition chosenRecordingName (fuel : nat) (now : Clock) (p : Plugin) : option string :=
  let recordingFolder := Js.trim (recordingFilePath (settings p)) in
  untilFree
    (fun n => if Js.truthy recordingFolder
              then present (vault p) (normalizePath (recordingFolder +:+ "/" +:+ n))
              else present (vault p) n)
    (recordingNameN (isoDate now) (period (hours now))) fuel 1
    (recordingName (isoDate now) (period (hours now))).

(** The cleanup of [handleAudioRecording] (main.ts 211-215). *)
Definition cleanup (file : TFile) : Async unit :=
  modify (fun p => set_vault (delete (vault p) (path file)) p);;
  p ← get;
  let folderPath := recordingFilePath (settings p) in
  match getAbstractFileByPath (vault p) folderPath with
  | Some FolderNode =>
      if length (children (vault p) folderPath) =? 0
      then modify (fun p => set_vault (delete (vault p) folderPath) p)
      else mret tt
  | Some (FileNode _) =>
      throw "Cannot read properties of undefined (reading 'length')"
  | None => mret tt
  end.

(** What [handleAudioRecording] does once the recording is saved and the
    settings are stored (main.ts 196-217): the link at the cursor, the
    transcription, the cleanup. *)
Definition afterSaving (fuel : nat) (later : Clock) (remote : Remote) (file : TFile)
    (transcribe keepAudio includeAudioFileLink : bool) : Async unit :=
  p ← get;
  (if includeAudioFileLink && keepAudio &&
      match insertTranscriptLocation (settings p) with
      | newNote => false
      | inline => true
      end
   then match activeView p with
        | Some editor =>
            let link := "![[" +:+ path file +:+ "]]" in
            modify (set_activeView (Some (replaceRange link (cursorHead editor) editor)))
        | None => Notice "No active editor found. Audio file link not inserted."
        end
   else mret tt);;
  if transcribe then
    transcribeRecording fuel later remote file;;
    if negb keepAudio then cleanup file else mret tt
  else mret tt.

(** The state in which that part starts: the vault as [saveFile] left it,
    the two choices of the modal written to the settings and stored. *)
Definition saved (v : Vault) (keepAudio includeAudioFileLink : bool) (p : Plugin) : Plugin :=
  let s := set_includeAudioFileLink includeAudioFileLink
             (set_keepAudio keepAudio (settings p)) in
  set_data (Some s) (set_settings s (set_vault v p)).

End Recording.

(** The stored data are as before, and so are the settings in memory but
    for the placement preference. *)
Definition choicesKept (p p' : Plugin) : Prop :=
  data p' = data p /\
  (settings p' = settings p \/
   settings p' = set_insertTranscriptLocation newNote (settings p)).

Section NewNote.

Context `{Host}.

(** The vault when the title loop of the new-note branch starts: a default
    folder that is missing was created, unless a file lies above it
    (main.ts 361-370). *)
Definition withDefaultFolder (p : Plugin) : Vault :=
  match noteFolder p with
  | DefaultFolder defaultFolder =>
      if present (vault p) defaultFolder || underFile (vault p) defaultFolder then vault p
      else (vault p ++ [(defaultFolder, FolderNode)])%list
  | _ => vault p
  end.

(** The notice of the [catch] branch, when the default folder is missing
    and cannot be created. *)
Definition folderNotice (p : Plugin) : list string :=
  match noteFolder p with
  | DefaultFolder defaultFolder =>
      if negb (present (vault p) defaultFolder) && underFile (vault p) defaultFolder
      then ["Failed to create folder: " +:+ defaultFolder +:+ ". Using vault root instead."]
      else []
  | _ => []
  end.

(** The active view and the folder of the active file once the note was
    opened in a new leaf. *)
Definition viewAfterOpening (notePath content : string) (view : option Editor)
    : option Editor :=
  match openFile notePath content with
  | Some (editor, _) => Some editor
  | None => view
  end.

Definition fileAfterOpening (notePath content : string) (file : option string)
    : option string :=
  match openFile notePath content with
  | Some (_, folderPath) => Some folderPath
  | None => file
  end.

(** The state in which the answer to the generation request is awaited,
    from the state [q] in which the fallback left the plugin: two notices
    were shown and the request was made. *)
Definition atRequest (payload : GeneratePayload) (q : Plugin) : Plugin :=
  mkPlugin (settings q) (writing q) (transcript q) (data q) (vault q) (activeView q)
    (activeFile q)
    (notices q ++ ["Processing audio for transcription...";
                   "Audio uploaded. Generating transcript..."])%list
    (requests q ++ [payload])%list (opened q).

(** The state in which the placement of the text [t] starts: the text is
    kept as well. *)
Definition atPlacement (payload : GeneratePayload) (t : string) (q : Plugin) : Plugin :=
  mkPlugin (settings q) (writing q) t (data q) (vault q) (activeView q) (activeFile q)
    (notices q ++ ["Processing audio for transcription...";
                   "Audio uploaded. Generating transcript..."])%list
    (requests q ++ [payload])%list (opened q).

(** The content of the new note (main.ts 338-343). *)
Definition transcriptContent (includeLink : bool) (audioFile : TFile) (t : string) : string :=
  (if includeLink
   then "![[" +:+ path audioFile +:+ "]]

"
   else "") +:+ t.

End NewNote.

(** Does the string hold a square bracket? *)
Fixpoint hasBracket (s : string) : bool :=
  match s with
  | EmptyString => false
  | String c s' => isBracket c || hasBracket s'
  end.

(** The text read so far, kept nearest character first, put back before
    the rest. *)
Fixpoint unread (before s : string) : string :=
  match before with
  | EmptyString => s
  | String c before' => unread before' (String c s)
  end.

(** What stands right before a link target. *)
Definition opener (pat : LinkPattern) : string :=
  match pat with WikiLink => "[[" | MarkdownLink => "](" end.

(** What the title loop depends on is as before: the vault, the default
    note folder and the active file. *)
Definition sameFolders (p p' : Plugin) : Prop :=
  vault p' = vault p /\
  defaultNoteFolder (settings p') = defaultNoteFolder (settings p) /\
  activeFile p' = activeFile p.

(** The transcript the plugin keeps is as before. *)
Definition sameTranscript (p p' : Plugin) : Prop := transcript p' = transcript p.

(** The tested paths of the candidates differ from one another. *)
Definition distinctPaths (tested : string -> string) (candidate : nat -> string) : Prop :=
  forall i j, 1 <= i -> 1 <= j -> tested (candidate i) = tested (candidate j) -> i = j.

(** While a transcription is in progress, nothing but the notices changes. *)
Definition busy (p p' : Plugin) : Prop := writing p = true -> onlyNotices p p'.

Section LoopEnds.

Context `{Host}.

(** Whether the title loop of a new note ends. *)
Definition loopEnds (fuel : nat) (now : Clock) (p : Plugin) : Prop :=
  length (vault p) < fuel /\
  distinctPaths (testedPath (noteFolder p))
    (titleCandidate (isoDate now) (period (hours now))).

End LoopEnds.

(** A computation that does not hang from any state in which [P] holds. *)
Definition noHang (P : Plugin -> Prop) {A} (c : Async A) : Prop :=
  forall q, P q -> fst (c q) <> Hang.


End Plugin.

(* ===================================================================== *)
(** * Properties of the recording modal *)
(* ===================================================================== *)

Module ModalFacts.

Import Modal.

Local Open Scope list_scope.
Local Open Scope Z_scope.

Ltac msimpl :=
  cbn -[alter lookup insert size Z.add Z.sub Z.div Z.rem Nat.iter] in *.

Ltac cases :=
  repeat (msimpl; match goal with
          | |- context [match ?x with _ => _ end] => destruct x eqn:?
          end); msimpl.

Ltac unfold_methods :=
  unfold open, onOpen, newPromise, startRecording, clickPlayPause, pauseRecording,
    resumeOrStartRecording, clickStop, clickTranscribe, stopRecording, clickReset,
    hardReset, onStream, onStreamError, setupMediaRecorder, withRecorder, startTimer,
    stopTimer, onTick, emit in *.

Lemma run_app m es1 es2 : run m (es1 ++ es2) = run (run m es1) es2.
Proof. unfold run. apply fold_left_app. Qed.

Lemma recorderState_Some m s :
  recorderState m = Some s <->
  exists id r, mediaRecorder m = Some id /\ recorders m !! id = Some r /\ state r = s.
Proof.
  unfold recorderState. split.
  - destruct (mediaRecorder m) as [id|]; [|discriminate].
    destruct (recorders m !! id) as [r|] eqn:E; simpl; [|discriminate].
    intros [= <-]. eauto.
  - intros (id & r & -> & E & <-). rewrite E. reflexivity.
Qed.

(** ** Elapsed time across pause/resume cycles *)

Lemma clickPlayPause_pause m now :
  isRecording m = true -> recorderState m = Some recording ->
  let m' := clickPlayPause now m in
  isRecording m' = false /\ recorderState m' = Some paused /\
  elapsedTime m' = elapsedTime m + (now - startTime m) /\
  startTime m' = startTime m /\ intervalId m' = None.
Proof.
  intros Hrec Hst. pose proof Hst as Hst'.
  apply recorderState_Some in Hst' as (id & r0 & Hm & Hr & Hs).
  unfold clickPlayPause, pauseRecording. rewrite Hrec, Hst, Hm.
  destruct m as [mr ch rs isrec tm iid st el irs ka il recs proms ps ivs effs].
  msimpl. subst. unfold recorderState, stopTimer. msimpl.
  destruct iid; msimpl; rewrite lookup_alter_eq, Hr; auto.
Qed.

Lemma clickPlayPause_resume m now :
  isRecording m = false -> recorderState m = Some paused ->
  let m' := clickPlayPause now m in
  isRecording m' = true /\ recorderState m' = Some recording /\
  elapsedTime m' = elapsedTime m /\
  startTime m' = now /\ is_Some (intervalId m').
Proof.
  intros Hrec Hst. pose proof Hst as Hst'.
  apply recorderState_Some in Hst' as (id & r0 & Hm & Hr & Hs).
  unfold clickPlayPause, resumeOrStartRecording. rewrite Hrec, Hst, Hm.
  destruct m as [mr ch rs isrec tm iid st el irs ka il recs proms ps ivs effs].
  msimpl. subst. unfold recorderState, startTimer, stopTimer. msimpl.
  destruct iid; msimpl; rewrite lookup_alter_eq, Hr; eauto 10.
Qed.

(** After any number of cycles the modal records again, and [elapsedTime]
    holds exactly the time of the completed intervals. *)
Lemma cycles_elapsed cycles : forall m,
  isRecording m = true -> recorderState m = Some recording ->
  is_Some (intervalId m) ->
  let m' := run m (cycleEvents cycles) in
  isRecording m' = true /\ recorderState m' = Some recording /\
  elapsedTime m' = elapsedTime m + recorded (startTime m) cycles /\
  startTime m' = lastStart (startTime m) cycles /\ is_Some (intervalId m').
Proof.
  induction cycles as [|[p r] cycles IH]; intros m Hrec Hst Hiv.
  - cbn. rewrite Z.add_0_r. auto.
  - change (run m (cycleEvents ((p, r) :: cycles)))
      with (run (clickPlayPause r (clickPlayPause p m)) (cycleEvents cycles)).
    destruct (clickPlayPause_pause m p Hrec Hst) as (H1 & H2 & H3 & H4 & H5).
    destruct (clickPlayPause_resume _ r H1 H2) as (G1 & G2 & G3 & G4 & G5).
    destruct (IH _ G1 G2 G5) as (K1 & K2 & K3 & K4 & K5).
    cbn zeta in *. rewrite K1, K2, K3, K4, G3, G4, H3. cbn [recorded lastStart].
    repeat split; auto. lia.
Qed.

(** Flooring two summands separately loses at most one unit. *)
Lemma floor_sum_bounds a b :
  a / 1000 + b / 1000 <= (a + b) / 1000 <= a / 1000 + b / 1000 + 1.
Proof.
  pose proof (Z.div_mod a 1000 ltac:(lia)).
  pose proof (Z.div_mod b 1000 ltac:(lia)).
  pose proof (Z.mod_pos_bound a 1000 ltac:(lia)).
  pose proof (Z.mod_pos_bound b 1000 ltac:(lia)).
  split.
  - apply Z.div_le_lower_bound; lia.
  - assert ((a + b) / 1000 < a / 1000 + b / 1000 + 2); [|lia].
    apply Z.div_lt_upper_bound; lia.
Qed.

(** C4, as the code has it.  In a session that is recording, after any
    sequence of pause/resume cycles, [elapsedTime] is the exact sum of the
    completed Recording intervals, whatever the number of cycles.  A tick
    at time [now] then shows [timerText] of
    floor(elapsedTime / 1000) + floor((now - startTime) / 1000): the two
    terms are floored separately.  That number is never more than the
    floor of the total recording time in seconds, and at most one less. *)
Theorem ticker_display (cycles : list (Z * Z)) (m : Modal) (now : Z) :
  isRecording m = true -> recorderState m = Some recording ->
  is_Some (intervalId m) ->
  let m' := run m (cycleEvents cycles) in
  let total := elapsedTime m + recorded (startTime m) cycles + (now - startTime m') in
  elapsedTime m' = elapsedTime m + recorded (startTime m) cycles /\
  timer (step m' (Tick now)) = timerText (elapsedTimeInSeconds m' now) /\
  elapsedTimeInSeconds m' now =
    Js.floorDiv (elapsedTime m') 1000 + Js.floorDiv (now - startTime m') 1000 /\
  Js.floorDiv total 1000 - 1 <= elapsedTimeInSeconds m' now <= Js.floorDiv total 1000.
Proof.
  intros Hrec Hst Hiv.
  destruct (cycles_elapsed cycles m Hrec Hst Hiv) as (K1 & K2 & K3 & K4 & [iv K5]).
  cbn zeta. split; [exact K3|]. split.
  { cbn [step]. rewrite K5. reflexivity. }
  split; [reflexivity|].
  unfold elapsedTimeInSeconds, Js.floorDiv. rewrite <- K3.
  pose proof (floor_sum_bounds (elapsedTime (run m (cycleEvents cycles)))
                (now - startTime (run m (cycleEvents cycles)))).
  lia.
Qed.

(** A session that records from time 0, is paused at 1999 ms and resumed at
    10000 ms; the tick comes 1001 ms later. *)
Lemma ticker_display_witness :
  let m := run (new true false) [Open; StreamGranted 0] in
  let cycles := [(1999, 10000)] in
  let now := 11001 in
  let m' := run m (cycleEvents cycles) in
  let total := elapsedTime m + recorded (startTime m) cycles + (now - startTime m') in
  (isRecording m = true /\ recorderState m = Some recording /\
   is_Some (intervalId m)) /\
  elapsedTime m' = elapsedTime m + recorded (startTime m) cycles /\
  timer (step m' (Tick now)) = timerText (elapsedTimeInSeconds m' now) /\
  elapsedTimeInSeconds m' now =
    Js.floorDiv (elapsedTime m') 1000 + Js.floorDiv (now - startTime m') 1000 /\
  Js.floorDiv total 1000 - 1 <= elapsedTimeInSeconds m' now <= Js.floorDiv total 1000.
Proof.
  cbv zeta.
  assert (isRecording (run (new true false) [Open; StreamGranted 0]) = true) as H1
    by (vm_compute; reflexivity).
  assert (recorderState (run (new true false) [Open; StreamGranted 0]) = Some recording)
    as H2 by (vm_compute; reflexivity).
  assert (is_Some (intervalId (run (new true false) [Open; StreamGranted 0]))) as H3
    by (eexists; vm_compute; reflexivity).
  split; [auto|].
  exact (ticker_display [(1999, 10000)] _ 11001 H1 H2 H3).
Defined.

(** C4, as the specification words it, fails: with 1999 ms recorded before
    a pause and 1001 ms since the resume, 3000 ms have been recorded, yet
    the tick shows two seconds. *)
Lemma ticker_floors_each_term :
  let m := run (new true false)
             [Open; StreamGranted 0; ClickPlayPause 1999; ClickPlayPause 10000] in
  elapsedTime m + (11001 - startTime m) = 3000 /\
  timerText (Js.floorDiv (elapsedTime m + (11001 - startTime m)) 1000) = "00:03"%string /\
  elapsedTimeInSeconds m 11001 = 2 /\
  timer (step m (Tick 11001)) = "00:02"%string.
Proof. vm_compute. repeat split. Qed.

(** ** Recorders, listeners and promises *)
Lemma settle_recorders p v m : recorders (settle p v m) = recorders m.
Proof. unfold settle, emit. cases; reflexivity. Qed.

Lemma onStop_recorders m : recorders (onStop m) = recorders m.
Proof. unfold onStop, emit. cases; rewrite ?settle_recorders; reflexivity. Qed.

Lemma iter_onStop_recorders n m : recorders (Nat.iter n onStop m) = recorders m.
Proof. induction n; [reflexivity|]. rewrite Nat.iter_succ, onStop_recorders. auto. Qed.

Lemma onData_recorders d m : recorders (onDataAvailable d m) = recorders m.
Proof. unfold onDataAvailable. cases; reflexivity. Qed.

Lemma iter_onData_recorders n d m : recorders (Nat.iter n (onDataAvailable d) m) = recorders m.
Proof. induction n; [reflexivity|]. rewrite Nat.iter_succ, onData_recorders. auto. Qed.







Lemma sameBut_refl m : sameBut m m.
Proof. repeat split. Qed.

Lemma sameBut_trans m1 m2 m3 : sameBut m1 m2 -> sameBut m2 m3 -> sameBut m1 m3.
Proof. unfold sameBut. intuition congruence. Qed.

Lemma sameBut_onData d m : sameBut m (onDataAvailable d m).
Proof. unfold onDataAvailable. destruct (isResetting m); repeat split. Qed.

Lemma sameBut_iter_onData n d m : sameBut m (Nat.iter n (onDataAvailable d) m).
Proof.
  induction n; [apply sameBut_refl|]. rewrite Nat.iter_succ.
  eapply sameBut_trans; [exact IHn|apply sameBut_onData].
Qed.

Lemma sameBut_quiet m e : quiet e = true -> sameBut m (step m e).
Proof.
  destruct e; try discriminate; intros _; cbn [step].
  - destruct (recorders m !! id) as [r|]; [|apply sameBut_refl].
    destruct (match state r with recording => true | _ => stopQueued r end);
      [apply sameBut_iter_onData|apply sameBut_refl].
  - destruct (intervalId m); [|apply sameBut_refl]. repeat split.
Qed.






























(** ** Restart and the discard flag *)

(** C2, evaluated.  Two sessions a user can produce.

    "Restart" pressed twice: the first restart stops recorder 0, whose stale
    fragment is dropped and whose stale 'stop' event clears the flag, as
    designed.  The second restart finds no recorder, yet [hardReset] sets
    the flag again, and no stale 'stop' event is left to clear it.  Every
    fragment of the fresh recorder 1 is then dropped, the flag is cleared by
    the first 'stop' listener of recorder 1 itself, and the second listener
    hands on an empty artifact.

    A recorder left running: the play button is pressed twice before the
    first stream is granted, so two recorders are created and recorder 0 is
    no longer referenced.  "Restart" stops recorder 1 only; recorder 0 keeps
    delivering, and its fragment "b", delivered after the flag was cleared,
    ends up in the artifact of the session started after the restart. *)
Theorem hardReset_flag_races :
  let restartTwice :=
    [Open; StreamGranted 0; DataAvailable 0 "a";
     ClickReset; DataAvailable 0 "a2"; Stop 0;
     ClickReset;
     ClickPlayPause 5; StreamGranted 6; DataAvailable 1 "b";
     ClickTranscribe; DataAvailable 1 "c"] in
  let staleHandled := run (new false false) (firstn 6 restartTwice) in
  let m := run (new false false) restartTwice in
  let leaked :=
    [Open; ClickPlayPause 1; ClickPlayPause 2; StreamGranted 3; StreamGranted 4;
     DataAvailable 0 "a";
     ClickReset; DataAvailable 1 "x"; Stop 1;
     DataAvailable 0 "b";
     ClickPlayPause 20; StreamGranted 21; DataAvailable 2 "c";
     ClickStop; DataAvailable 2 "d"; Stop 2] in
  (isResetting staleHandled = false /\ mediaRecorder staleHandled = None) /\
  (isResetting m = true /\ chunks m = [] /\
   recorders m !! 1%nat = Some (mkRecorder inactive 2 1 true)) /\
  (isResetting (step m (Stop 1)) = false /\
   artifacts (step m (Stop 1)) = [mkBlob [] "audio/wav"]) /\
  artifacts (run (new false false) leaked) =
    [mkBlob [mkPart 0 "b"; mkPart 2 "c"; mkPart 2 "d"] "audio/wav"].
Proof. vm_compute. repeat split. Qed.

(** *** A restart with a recorder in hand *)






Lemma alter_insert_eq (f : Recorder -> Recorder) (id : nat) (r : Recorder)
    (rs : gmap nat Recorder) :
  alter f id (<[id := r]> rs) = <[id := f r]> rs.
Proof.
  apply map_eq. intros i. destruct (decide (i = id)) as [->|Hne].
  - rewrite lookup_alter_eq, !lookup_insert_eq. reflexivity.
  - rewrite lookup_alter_ne, !lookup_insert_ne by congruence. reflexivity.
Qed.




(** ** The declared type of an artifact *)

Lemma settle_wav p v m :
  wavValue v -> Forall wavEffect (effects m) -> Forall wavEffect (effects (settle p v m)).
Proof.
  intros Hv Hm. unfold settle.
  destruct (promises m !! p) as [[[] k]|]; try exact Hm.
  destruct v as [|a|], k; try exact Hm.
  cbn. apply Forall_app. split; [exact Hm|]. constructor; [|constructor].
  destruct a; [exact Hv|exact I].
Qed.

Lemma onStop_wav m : Forall wavEffect (effects m) -> Forall wavEffect (effects (onStop m)).
Proof.
  intros Hm. unfold onStop. destruct (isResetting m); [exact Hm|].
  destruct (resolve m).
  - cbn. apply Forall_app. split; [|repeat constructor].
    apply settle_wav; [reflexivity|exact Hm].
  - cbn. apply Forall_app. split; [exact Hm|repeat constructor].
Qed.

Lemma iter_onStop_wav n m :
  Forall wavEffect (effects m) -> Forall wavEffect (effects (Nat.iter n onStop m)).
Proof.
  intros Hm. induction n; [exact Hm|]. rewrite Nat.iter_succ. apply onStop_wav, IHn.
Qed.

Lemma stopRecording_wav k m :
  Forall wavEffect (effects m) -> Forall wavEffect (effects (stopRecording k m)).
Proof.
  intros Hm. unfold stopRecording.
  destruct (mediaRecorder (newPromise k m)).
  - unfold stopTimer, withRecorder. cases; exact Hm.
  - apply settle_wav; [exact I|exact Hm].
Qed.

Lemma step_wav m e :
  Forall wavEffect (effects m) -> Forall wavEffect (effects (step m e)).
Proof.
  intros Hm. destruct e; cbn [step].
  - exact Hm.
  - unfold_methods. cases; exact Hm.
  - apply stopRecording_wav, Hm.
  - apply stopRecording_wav, Hm.
  - unfold_methods. cases; exact Hm.
  - exact Hm.
  - exact Hm.
  - unfold_methods. cases; exact Hm.
  - destruct (pendingStreams m); [exact Hm|]. unfold onStreamError.
    assert (Forall wavEffect (effects (emit (ConsoleError "Error accessing microphone:")
                                         (set_pendingStreams n m)))) as Hm'.
    { cbn. apply Forall_app. split; [exact Hm|repeat constructor]. }
    destruct (resolve _); [|exact Hm']. apply settle_wav; [exact I|exact Hm'].
  - change (Forall wavEffect (effects (step m (DataAvailable id data)))).
    rewrite (proj1 (proj2 (proj2 (proj2 (proj2 (sameBut_quiet m (DataAvailable id data) eq_refl)))))).
    exact Hm.
  - destruct (recorders m !! id) as [r|]; [|exact Hm].
    destruct (stopQueued r); [|exact Hm]. apply iter_onStop_wav. exact Hm.
  - change (Forall wavEffect (effects (step m (Tick now)))).
    rewrite (proj1 (proj2 (proj2 (proj2 (proj2 (sameBut_quiet m (Tick now) eq_refl)))))).
    exact Hm.
Qed.

Lemma artifacts_are_wav keep incl es :
  Forall (fun b => type b = "audio/wav"%string) (artifacts (run (new keep incl) es)).
Proof.
  assert (forall m, Forall wavEffect (effects m) ->
                    Forall (fun b => type b = "audio/wav"%string) (artifacts m)) as Hart.
  { intros m Hm. unfold artifacts. induction Hm as [|e l He Hl IH]; [constructor|].
    cbn. destruct e as [[b|] ? ? ?| |]; cbn; try exact IH. constructor; [exact He|exact IH]. }
  apply Hart.
  assert (forall m, Forall wavEffect (effects m) -> Forall wavEffect (effects (run m es))) as Hrun.
  { induction es as [|e es IH]; intros m Hm; [exact Hm|]. apply (IH (step m e)), step_wav, Hm. }
  apply Hrun. constructor.
Qed.

(** ** What an artifact is made of *)

Lemma delivered_snoc es e :
  delivered (es ++ [e]) =
  delivered es ++ match e with DataAvailable id d => [mkPart id d] | _ => [] end.
Proof. unfold delivered. rewrite omap_app. destruct e; reflexivity. Qed.

Lemma singleDataListener_alter (f : Recorder -> Recorder) (id : nat) (rs : gmap nat Recorder) :
  (forall r, (dataListeners (f r) <= dataListeners r)%nat) ->
  map_Forall (fun _ r => (dataListeners r <= 1)%nat) rs ->
  map_Forall (fun _ r => (dataListeners r <= 1)%nat) (alter f id rs).
Proof.
  intros Hf Hrs i r. rewrite lookup_alter. case_decide; subst.
  - destruct (rs !! i) as [r0|] eqn:E; simpl; [|discriminate].
    intros [= <-]. specialize (Hrs _ _ E). simpl in Hrs. specialize (Hf r0). lia.
  - apply Hrs.
Qed.

Lemma recorderStop_dataListeners r : dataListeners (recorderStop r) = dataListeners r.
Proof. unfold recorderStop. destruct (state r); reflexivity. Qed.

Ltac solve_single :=
  repeat first
    [ assumption
    | apply singleDataListener_alter;
      [ intros ?; cbn; rewrite ?recorderStop_dataListeners; lia | ] ].

Lemma singleDataListener_step m e : singleDataListener m -> singleDataListener (step m e).
Proof.
  unfold singleDataListener. intros H.
  destruct e; cbn [step]; unfold_methods.
  all: cases; rewrite ?settle_recorders, ?iter_onStop_recorders, ?iter_onData_recorders;
    msimpl; try solve [solve_single].
  all: rewrite !alter_insert_eq; apply map_Forall_insert_2; [cbn; lia | assumption].
Qed.

Lemma singleDataListener_run es : forall m, singleDataListener m -> singleDataListener (run m es).
Proof.
  induction es as [|e es IH]; intros m H; [exact H|].
  apply IH, singleDataListener_step, H.
Qed.

Lemma singleDataListener_new k i : singleDataListener (new k i).
Proof. apply map_Forall_empty. Qed.


Lemma fromDelivered_mono ds ds' e : fromDelivered ds e -> fromDelivered (ds ++ ds') e.
Proof.
  destruct e as [[b|] ? ? ?| |]; cbn; auto. intros H. apply sublist_inserts_r, H.
Qed.

Lemma madeOf_mono ds ds' m : madeOf ds m -> madeOf (ds ++ ds') m.
Proof.
  intros [H1 H2]. split; [apply sublist_inserts_r, H1|].
  eapply Forall_impl; [exact H2|]. intros e. apply fromDelivered_mono.
Qed.

Lemma settle_chunks p v m : chunks (settle p v m) = chunks m.
Proof. unfold settle, emit. cases; reflexivity. Qed.

Lemma settle_madeOf ds p v m :
  (forall b, v = Fulfilled (Some b) -> sublist (parts b) ds) ->
  madeOf ds m -> madeOf ds (settle p v m).
Proof.
  intros Hv [H1 H2]. split; [rewrite settle_chunks; exact H1|].
  unfold settle, emit.
  destruct (promises m !! p) as [[[] k]|]; try exact H2.
  destruct v as [|[b|]|], k as [t|]; cbn; try exact H2.
  - apply Forall_app. split; [exact H2|]. constructor; [|constructor].
    cbn. apply Hv. reflexivity.
  - apply Forall_app. split; [exact H2|]. repeat constructor.
Qed.

Lemma onStop_madeOf ds m : madeOf ds m -> madeOf ds (onStop m).
Proof.
  intros Hm. unfold onStop. destruct (isResetting m); [exact Hm|].
  destruct (resolve m) as [p|].
  - assert (madeOf ds (settle p (Fulfilled (Some (mkBlob (chunks m) "audio/wav"))) m)) as [H1 H2].
    { apply settle_madeOf; [|exact Hm]. intros b [= <-]. exact (proj1 Hm). }
    split; [exact H1|]. unfold emit. cbn.
    apply Forall_app. split; [exact H2|]. repeat constructor.
  - destruct Hm as [H1 H2]. split; [exact H1|]. unfold emit. cbn.
    apply Forall_app. split; [exact H2|]. repeat constructor.
Qed.

Lemma iter_onStop_madeOf ds n m : madeOf ds m -> madeOf ds (Nat.iter n onStop m).
Proof.
  intros H. induction n; [exact H|]. rewrite Nat.iter_succ. apply onStop_madeOf, IHn.
Qed.

Lemma madeOf_same ds m m' :
  chunks m' = chunks m -> effects m' = effects m -> madeOf ds m -> madeOf ds m'.
Proof. unfold madeOf. intros -> ->. auto. Qed.

Lemma stopRecording_madeOf ds k m : madeOf ds m -> madeOf ds (stopRecording k m).
Proof.
  intros Hm. unfold stopRecording.
  destruct (mediaRecorder (newPromise k m)) eqn:E.
  - revert Hm. apply madeOf_same; destruct m; unfold stopTimer; cbn; destruct intervalId0; reflexivity.
  - apply settle_madeOf; [discriminate|]. revert Hm. apply madeOf_same; reflexivity.
Qed.

Lemma madeOf_step ds m e :
  singleDataListener m -> madeOf ds m ->
  madeOf (ds ++ match e with DataAvailable id d => [mkPart id d] | _ => [] end) (step m e).
Proof.
  intros Hs Hm.
  destruct e; try (rewrite app_nil_r); cbn [step].
  - revert Hm. apply madeOf_same; reflexivity.
  - revert Hm. unfold clickPlayPause, pauseRecording, resumeOrStartRecording.
    apply madeOf_same; destruct m; unfold_methods; cases; reflexivity.
  - apply stopRecording_madeOf, Hm.
  - apply stopRecording_madeOf, Hm.
  - destruct Hm as [H1 H2]. split.
    + destruct m; unfold_methods; cases; apply sublist_nil_l.
    + destruct m; unfold_methods; cases; exact H2.
  - revert Hm. apply madeOf_same; reflexivity.
  - revert Hm. apply madeOf_same; reflexivity.
  - destruct (pendingStreams m) eqn:E; [exact Hm|].
    revert Hm. apply madeOf_same; destruct m; unfold_methods; cases; reflexivity.
  - destruct (pendingStreams m) eqn:E; [exact Hm|].
    unfold onStreamError.
    match goal with |- madeOf _ (match resolve ?x with _ => _ end) =>
      assert (madeOf ds x) as Hx
    end.
    { destruct Hm as [H1 H2]. split; [exact H1|]. unfold emit. cbn.
      apply Forall_app. split; [exact H2|]. repeat constructor. }
    destruct (resolve _); [|exact Hx]. apply settle_madeOf; [discriminate|exact Hx].
  - destruct (recorders m !! id) as [r|] eqn:E; [|apply madeOf_mono, Hm].
    destruct (match state r with recording => true | _ => stopQueued r end);
      [|apply madeOf_mono, Hm].
    specialize (Hs _ _ E). cbn in Hs.
    destruct (dataListeners r) as [|[|n]]; [apply madeOf_mono, Hm| |lia].
    cbn. unfold onDataAvailable. destruct (isResetting m); [apply madeOf_mono, Hm|].
    destruct Hm as [H1 H2]. split.
    + cbn. apply sublist_app; [exact H1|reflexivity].
    + cbn. eapply Forall_impl; [exact H2|]. intros e. apply fromDelivered_mono.
  - destruct (recorders m !! id) as [r|] eqn:E; [|exact Hm].
    destruct (stopQueued r); [|exact Hm].
    apply iter_onStop_madeOf. revert Hm. apply madeOf_same; reflexivity.
  - destruct (intervalId m); [|exact Hm]. revert Hm. apply madeOf_same; reflexivity.
Qed.

(** Every artifact is made of fragments the recorders delivered, each used
    at most once and in the order of delivery: nothing is made up,
    duplicated or reordered, although a recorder can have several 'stop'
    listeners. *)
Theorem artifacts_hold_delivered_fragments (keep incl : bool) (es : list Event) :
  let m := run (new keep incl) es in
  sublist (chunks m) (delivered es) /\
  Forall (fun b => sublist (parts b) (delivered es)) (artifacts m).
Proof.
  cbn zeta.
  assert (singleDataListener (run (new keep incl) es) /\
          madeOf (delivered es) (run (new keep incl) es)) as [_ [H1 H2]].
  { induction es as [|e es IH] using rev_ind.
    - split; [apply singleDataListener_new|]. split; [constructor|constructor].
    - destruct IH as [Hs Hm]. rewrite run_app, delivered_snoc. cbn [run fold_left]. split.
      + apply singleDataListener_step, Hs.
      + apply madeOf_step; assumption. }
  split; [exact H1|].
  unfold artifacts. rewrite Forall_forall. intros b Hb.
  apply list_elem_of_omap in Hb as (e & He & Hb).
  rewrite Forall_forall in H2. specialize (H2 e He).
  destruct e as [[b'|] ? ? ?| |]; try discriminate. injection Hb as <-. exact H2.
Qed.

(** ** One call of handleAudioRecording for each stop *)

Section Handovers.

Local Open Scope nat_scope.


Lemma countIf_app {A} (f : A -> bool) l1 l2 :
  countIf f (l1 ++ l2) = countIf f l1 + countIf f l2.
Proof. unfold countIf. rewrite List.filter_app, length_app. reflexivity. Qed.

Lemma countIf_insert {A} (f : A -> bool) (l : list A) (i : nat) (x y : A) :
  l !! i = Some x ->
  countIf f (<[i := y]> l) + (if f x then 1 else 0) = countIf f l + (if f y then 1 else 0).
Proof.
  revert i. induction l as [|a l IH]; intros [|i] H; try discriminate.
  - cbn in H. injection H as ->. unfold countIf. simpl.
    destruct (f x), (f y); simpl; lia.
  - cbn in H. specialize (IH i H). unfold countIf in *. simpl.
    destruct (f a); simpl; lia.
Qed.


Lemma handovers_emit e m :
  handovers (emit e m) =
  handovers m + match e with HandleAudioRecording _ _ _ _ => 1 | _ => 0 end.
Proof.
  unfold handovers, emit. cbn. rewrite List.filter_app, length_app. destruct e; reflexivity.
Qed.

Lemma settle_accounted p v m : accounted m -> accounted (settle p v m).
Proof.
  unfold accounted, settle. intros H.
  destruct (promises m !! p) as [[[] k]|] eqn:E; try exact H.
  pose proof (countIf_insert fulfilled (promises m) p _ (mkPromise v k) E) as Hc.
  cbn in Hc.
  destruct v as [| b |], k as [t|]; rewrite ?handovers_emit;
    unfold handovers, countIf in *; cbn in *; lia.
Qed.

Lemma settle_awaited p v m :
  countIf awaited (promises (settle p v m)) = countIf awaited (promises m).
Proof.
  unfold settle.
  destruct (promises m !! p) as [[[] k]|] eqn:E; try reflexivity.
  pose proof (countIf_insert awaited (promises m) p _ (mkPromise v k) E) as Hc.
  destruct v as [| b |], k as [t|]; unfold countIf in *; cbn in *; lia.
Qed.

Lemma settle_promises_length p v m : length (promises (settle p v m)) = length (promises m).
Proof.
  unfold settle. destruct (promises m !! p) as [[[] k]|]; try reflexivity.
  destruct v as [|b|], k; cbn; apply length_insert.
Qed.

Lemma onStop_accounted m : accounted m -> accounted (onStop m).
Proof.
  intros H. unfold onStop. destruct (isResetting m); [exact H|].
  destruct (resolve m) as [p|].
  - unfold accounted. rewrite handovers_emit.
    change (promises (emit Close ?x)) with (promises x).
    rewrite Nat.add_0_r. apply settle_accounted, H.
  - unfold accounted. rewrite handovers_emit, Nat.add_0_r. exact H.
Qed.

Lemma onStop_awaited m :
  countIf awaited (promises (onStop m)) = countIf awaited (promises m).
Proof.
  unfold onStop. destruct (isResetting m); [reflexivity|].
  destruct (resolve m) as [p|]; [|reflexivity].
  change (promises (emit Close ?x)) with (promises x). apply settle_awaited.
Qed.

Lemma iter_onStop_accounted n m : accounted m -> accounted (Nat.iter n onStop m).
Proof. intros H. induction n; [exact H|]. rewrite Nat.iter_succ. apply onStop_accounted, IHn. Qed.

Lemma iter_onStop_awaited n m :
  countIf awaited (promises (Nat.iter n onStop m)) = countIf awaited (promises m).
Proof. induction n; [reflexivity|]. rewrite Nat.iter_succ, onStop_awaited. exact IHn. Qed.

Lemma iter_onData_effects n d m : effects (Nat.iter n (onDataAvailable d) m) = effects m.
Proof. apply (sameBut_iter_onData n d m). Qed.

Lemma iter_onData_promises n d m : promises (Nat.iter n (onDataAvailable d) m) = promises m.
Proof. apply (sameBut_iter_onData n d m). Qed.

Lemma accounted_same m m' :
  effects m' = effects m -> promises m' = promises m -> accounted m -> accounted m'.
Proof. unfold accounted, handovers. intros -> ->. auto. Qed.

Lemma stopRecording_counts k m :
  accounted m ->
  accounted (stopRecording (Some k) m) /\
  countIf awaited (promises (stopRecording (Some k) m)) = S (countIf awaited (promises m)).
Proof.
  intros H. unfold stopRecording.
  assert (accounted (newPromise (Some k) m) /\
          countIf awaited (promises (newPromise (Some k) m)) = S (countIf awaited (promises m)))
    as [Ha Hc].
  { unfold accounted in *.
    change (handovers (newPromise (Some k) m)) with (handovers m).
    change (promises (newPromise (Some k) m)) with (promises m ++ [mkPromise Pending (Some k)]).
    rewrite !countIf_app.
    change (countIf fulfilled [mkPromise Pending (Some k)]) with 0.
    change (countIf awaited [mkPromise Pending (Some k)]) with 1.
    split; lia. }
  destruct (mediaRecorder (newPromise (Some k) m)) eqn:E.
  - split.
    + revert Ha. apply accounted_same; unfold stopTimer, withRecorder;
        match goal with |- context [intervalId ?x] => destruct (intervalId x) end; reflexivity.
    + rewrite <- Hc. f_equal. unfold stopTimer, withRecorder.
      match goal with |- context [intervalId ?x] => destruct (intervalId x) end; reflexivity.
  - split; [apply settle_accounted, Ha|]. rewrite settle_awaited. exact Hc.
Qed.

Lemma counts_same m m' :
  effects m' = effects m -> promises m' = promises m -> accounted m ->
  accounted m' /\ countIf awaited (promises m') = countIf awaited (promises m).
Proof. intros He Hp H. split; [exact (accounted_same _ _ He Hp H)|rewrite Hp; reflexivity]. Qed.

Lemma counts_step m e :
  accounted m ->
  accounted (step m e) /\
  countIf awaited (promises (step m e)) =
    countIf awaited (promises m) + stopClicks [e].
Proof.
  intros H.
  destruct e; cbn [step]; unfold stopClicks; cbn [List.filter length]; rewrite ?Nat.add_0_r.
  - unfold accounted in *.
    change (handovers (open m)) with (handovers m).
    change (promises (open m)) with (promises m ++ [mkPromise Pending None]).
    rewrite !countIf_app.
    change (countIf fulfilled [mkPromise Pending None]) with 0.
    change (countIf awaited [mkPromise Pending None]) with 0.
    split; lia.
  - apply counts_same; [| |exact H];
      destruct m; unfold_methods; cases; reflexivity.
  - rewrite Nat.add_1_r. apply stopRecording_counts, H.
  - rewrite Nat.add_1_r. apply stopRecording_counts, H.
  - apply counts_same; [| |exact H];
      destruct m; unfold_methods; cases; reflexivity.
  - apply counts_same; [| |exact H]; reflexivity.
  - apply counts_same; [| |exact H]; reflexivity.
  - destruct (pendingStreams m); [auto|].
    apply counts_same; [| |exact H]; destruct m; unfold_methods; cases; reflexivity.
  - destruct (pendingStreams m); [auto|]. unfold onStreamError.
    match goal with |- context [resolve ?x] => set (m1 := x) end.
    assert (accounted m1) as H1.
    { unfold accounted, m1. rewrite handovers_emit, Nat.add_0_r. exact H. }
    destruct (resolve m1) as [p|].
    + split; [apply settle_accounted, H1|]. rewrite settle_awaited. reflexivity.
    + split; [exact H1|reflexivity].
  - destruct (recorders m !! id) as [r|]; [|auto].
    destruct (match state r with recording => true | _ => stopQueued r end); [|auto].
    apply counts_same; [apply iter_onData_effects|apply iter_onData_promises|exact H].
  - destruct (recorders m !! id) as [r|]; [|auto].
    destruct (stopQueued r); [|auto].
    split; [apply iter_onStop_accounted; exact H|].
    rewrite iter_onStop_awaited. reflexivity.
  - destruct (intervalId m); [|auto]. apply counts_same; [| |exact H]; reflexivity.
Qed.

(** However often [onStop] runs (a recorder stopped by a button has two
    'stop' listeners, and stale 'stop' events arrive after a restart),
    [handleAudioRecording] is called once for each stop button promise
    that is fulfilled, hence at most once for each press of the stop
    square or of "Transcribe": no press makes the plugin save twice. *)
Theorem one_handover_per_stop_click (keep incl : bool) (es : list Event) :
  let m := run (new keep incl) es in
  handovers m = countIf fulfilled (promises m) /\
  countIf awaited (promises m) = stopClicks es /\
  handovers m <= stopClicks es.
Proof.
  cbn zeta.
  assert (accounted (run (new keep incl) es) /\
          countIf awaited (promises (run (new keep incl) es)) = stopClicks es) as [Ha Hc].
  { induction es as [|e es IH] using rev_ind; [split; reflexivity|].
    destruct IH as [Ha Hc]. rewrite run_app.
    change (run (run (new keep incl) es) [e]) with (step (run (new keep incl) es) e).
    destruct (counts_step (run (new keep incl) es) e Ha) as [Ha' Hc'].
    split; [exact Ha'|]. rewrite Hc', Hc.
    unfold stopClicks. rewrite List.filter_app, length_app. reflexivity. }
  split; [exact Ha|]. split; [exact Hc|].
  rewrite Ha, <- Hc. unfold countIf. clear.
  induction (promises (run (new keep incl) es)) as [|c l IH]; [reflexivity|].
  cbn [List.filter]. unfold fulfilled at 1, awaited at 1.
  destruct (settlement c), (awaiting c); cbn [length]; lia.
Qed.

End Handovers.

(** ** The text of the ticker *)

Lemma string_append_length (s t : string) :
  String.length (s +:+ t) = (String.length s + String.length t)%nat.
Proof. induction s as [|c s IH]; simpl; [reflexivity|]. f_equal. exact IH. Qed.

Lemma padStart2_length s : (2 <= String.length (Js.padStart2 s))%nat.
Proof.
  unfold Js.padStart2. destruct (String.length s) as [|[|n]] eqn:E; cbn; lia.
Qed.

Lemma padNumber_two_digits (bound : nat) (z : Z) :
  forallb (fun n => (String.length (padNumber (Z.of_nat n)) =? 2)%nat) (seq 0 bound) = true ->
  0 <= z < Z.of_nat bound -> String.length (padNumber z) = 2%nat.
Proof.
  intros Hall Hz. rewrite forallb_forall in Hall.
  specialize (Hall (Z.to_nat z)). rewrite Z2Nat.id in Hall by lia.
  apply Nat.eqb_eq, Hall, in_seq. lia.
Qed.

(** The display of the ticker.  For every count of seconds that is not
    negative the seconds field has two characters and the minutes field at
    least two; the minutes are not wrapped at an hour, so the display is
    MM:SS, five characters, below 100 minutes and wider from then on. *)
Theorem timerText_is_minutes_and_seconds (secs : Z) :
  0 <= secs ->
  timerText secs = padNumber (secs / 60) +:+ ":" +:+ padNumber (secs mod 60) /\
  String.length (padNumber (secs mod 60)) = 2%nat /\
  (2 <= String.length (padNumber (secs / 60)))%nat /\
  (secs < 6000 -> String.length (timerText secs) = 5%nat) /\
  (6000 <= secs -> (5 <= String.length (timerText secs))%nat).
Proof.
  intros Hs.
  assert (timerText secs = padNumber (secs / 60) +:+ ":" +:+ padNumber (secs mod 60)) as E.
  { unfold timerText, Js.floorDiv, Js.rem. rewrite Z.rem_mod_nonneg by lia. reflexivity. }
  assert (String.length (padNumber (secs mod 60)) = 2%nat) as Hsec.
  { apply (padNumber_two_digits 60); [vm_compute; reflexivity|].
    pose proof (Z.mod_pos_bound secs 60). lia. }
  split; [exact E|]. split; [exact Hsec|]. split; [apply padStart2_length|].
  rewrite E. rewrite !string_append_length, Hsec. cbn [String.length]. split.
  - intros Hlt. rewrite (padNumber_two_digits 100); [reflexivity|vm_compute; reflexivity|].
    split; [apply Z.div_pos; lia|]. apply Z.div_lt_upper_bound; lia.
  - intros _. pose proof (padStart2_length (Js.numToString (secs / 60))). unfold padNumber. lia.
Qed.


(** ** Worked examples *)

(** Two minutes and five seconds on the ticker. *)
Lemma timerText_is_minutes_and_seconds_witness :
  timerText 125 = "02:05" /\
  timerText 125 = padNumber (125 / 60) +:+ ":" +:+ padNumber (125 mod 60) /\
  String.length (padNumber (125 mod 60)) = 2%nat /\
  (2 <= String.length (padNumber (125 / 60)))%nat /\
  (125 < 6000 -> String.length (timerText 125) = 5%nat) /\
  (6000 <= 125 -> (5 <= String.length (timerText 125))%nat).
Proof.
  split; [vm_compute; reflexivity|].
  apply (timerText_is_minutes_and_seconds 125). lia.
Defined.


End ModalFacts.

(* ===================================================================== *)
(** * Properties of the plugin *)
(* ===================================================================== *)

Module PluginFacts.

Import Plugin.

Local Open Scope list_scope.
Local Open Scope nat_scope.

Lemma bind_normal {A B} (m : Async A) (f : A -> Async B) p a p' :
  m p = (Normal a, p') -> (m ≫= f) p = f a p'.
Proof. intros E. unfold mbind, Async_bind. rewrite E. reflexivity. Qed.

(** ** Strings *)

Lemma append_length (s t : string) :
  String.length (s +:+ t) = String.length s + String.length t.
Proof. induction s as [|c s IH]; simpl; [reflexivity|]. f_equal. exact IH. Qed.

Lemma append_cons (x : ascii) (a b : string) : String x a +:+ b = String x (a +:+ b).
Proof. reflexivity. Qed.

Lemma append_assoc (a b c : string) : (a +:+ b) +:+ c = a +:+ (b +:+ c).
Proof.
  induction a as [|x a IH]; [reflexivity|].
  rewrite !append_cons, IH. reflexivity.
Qed.

Lemma append_inj_l (s a b : string) : s +:+ a = s +:+ b -> a = b.
Proof. induction s as [|c s IH]; cbn; [auto|]. intros [= E]. auto. Qed.

Lemma append_inj_r (t : string) : forall a b : string, a +:+ t = b +:+ t -> a = b.
Proof.
  induction a as [|c a IH]; intros [|d b] E.
  - reflexivity.
  - apply (f_equal String.length) in E. rewrite !append_length in E. simpl in E. lia.
  - apply (f_equal String.length) in E. rewrite !append_length in E. simpl in E. lia.
  - simpl in E. injection E as -> E. f_equal. apply IH, E.
Qed.

Lemma natToString_inj (i j : nat) : Js.natToString i = Js.natToString j -> i = j.
Proof.
  unfold Js.natToString. intros E.
  apply Unsigned.to_uint_inj.
  pose proof (NilEmpty.usu (Nat.to_uint i)) as Hi.
  pose proof (NilEmpty.usu (Nat.to_uint j)) as Hj.
  rewrite E in Hi. congruence.
Qed.


(** ** The loop that makes a name unique *)

Lemma tried_shift next count name j :
  tried next (S count) (next (S count)) j = tried next count name (S j).
Proof. destruct j; cbn [tried]; f_equal; lia. Qed.

Lemma untilFree_Some taken next : forall fuel count name r,
  untilFree taken next fuel count name = Some r ->
  exists j, j <= fuel /\ r = tried next count name j /\ taken r = false /\
            forall i, i < j -> taken (tried next count name i) = true.
Proof.
  induction fuel as [|fuel IH]; intros count name r; cbn [untilFree].
  - destruct (taken name) eqn:E; [discriminate|]. intros [= <-].
    exists 0. repeat split; auto. intros i Hi. lia.
  - destruct (taken name) eqn:E.
    + intros H. apply IH in H as (j & Hj & -> & Hf & Hall).
      exists (S j). rewrite (tried_shift next count name) in *. repeat split; [lia|exact Hf|].
      intros [|i] Hi; [exact E|].
      specialize (Hall i ltac:(lia)). rewrite (tried_shift next count name) in Hall. exact Hall.
    + intros [= <-]. exists 0. repeat split; auto; lia.
Qed.

Lemma untilFree_None taken next : forall fuel count name,
  untilFree taken next fuel count name = None ->
  forall j, j <= fuel -> taken (tried next count name j) = true.
Proof.
  induction fuel as [|fuel IH]; intros count name; cbn [untilFree].
  - destruct (taken name) eqn:E; [|discriminate]. intros _ j Hj.
    replace j with 0 by lia. exact E.
  - destruct (taken name) eqn:E; [|discriminate]. intros H [|j] Hj; [exact E|].
    specialize (IH _ _ H j ltac:(lia)). rewrite (tried_shift next count name) in IH. exact IH.
Qed.

(** In a vault of [n] entries the loop ends within [n] iterations, provided
    the paths it tests differ from one another. *)
Lemma present_In v p : present v p = true -> In p (map fst v).
Proof.
  unfold present, getAbstractFileByPath.
  destruct (List.find _ v) as [[q n]|] eqn:E; [|discriminate]. intros _.
  apply find_some in E as [Hin Heq]. cbn in Heq. apply String.eqb_eq in Heq. subst.
  apply in_map_iff. exists (p, n). auto.
Qed.

Lemma untilFree_total (v : Vault) (tested : string -> string) next count name fuel :
  (forall i j, i <= length v -> j <= length v ->
     tested (tried next count name i) = tested (tried next count name j) -> i = j) ->
  length v <= fuel ->
  is_Some (untilFree (fun n => present v (tested n)) next fuel count name).
Proof.
  intros Hinj Hfuel.
  destruct (untilFree _ next fuel count name) as [r|] eqn:E; [eauto|]. exfalso.
  pose proof (untilFree_None _ _ _ _ _ E) as Hall.
  set (paths := map (fun j => tested (tried next count name j)) (seq 0 (S (length v)))).
  assert (NoDup paths) as Hnd.
  { unfold paths. apply (NoDup_fmap_2_strong (fun j => tested (tried next count name j))).
    - intros i j Hi Hj. apply elem_of_seq in Hi, Hj. apply Hinj; lia.
    - apply NoDup_seq. }
  assert (incl paths (map fst v)) as Hincl.
  { intros p Hp. unfold paths in Hp. apply in_map_iff in Hp as (j & <- & Hj).
    apply in_seq in Hj. apply present_In. apply (Hall j). lia. }
  apply NoDup_ListNoDup in Hnd.
  pose proof (NoDup_incl_length Hnd Hincl) as Hlen.
  unfold paths in Hlen. rewrite !length_map, length_seq in Hlen. lia.
Qed.


(** ** Methods that leave part of the state alone *)

Section Stable.

Context (R : Plugin -> Plugin -> Prop) `{!Reflexive R, !Transitive R}.

Lemma stable_ret {A} (a : A) : stable R (mret a).
Proof. intros p. reflexivity. Qed.

Lemma stable_throw {A} msg : stable R (@throw A msg).
Proof. intros p. reflexivity. Qed.

Lemma stable_hang {A} : stable R (@hang A).
Proof. intros p. reflexivity. Qed.

Lemma stable_get : stable R get.
Proof. intros p. reflexivity. Qed.

Lemma stable_fetch {A} (r : Fetch A) : stable R (fetch r).
Proof. destruct r; intros p; reflexivity. Qed.

Lemma stable_modify f : (forall p, R p (f p)) -> stable R (modify f).
Proof. intros Hf p. apply Hf. Qed.

Lemma stable_bind {A B} (m : Async A) (f : A -> Async B) :
  stable R m -> (forall a, stable R (f a)) -> stable R (m ≫= f).
Proof.
  intros Hm Hf p. unfold mbind, Async_bind. specialize (Hm p).
  destruct (m p) as [[a|msg|] p']; cbn in *; [|exact Hm|exact Hm].
  transitivity p'; [exact Hm|apply Hf].
Qed.

Lemma stable_tryCatch {A} (body : Async A) (handler : string -> Async A) :
  stable R body -> (forall msg, stable R (handler msg)) -> stable R (tryCatch body handler).
Proof.
  intros Hb Hh p. unfold tryCatch. specialize (Hb p).
  destruct (body p) as [[a|msg|] p']; cbn in *; [exact Hb| |exact Hb].
  transitivity p'; [exact Hb|apply Hh].
Qed.

End Stable.


#[local] Instance sameRequests_refl : Reflexive sameRequests.
Proof. intros p. reflexivity. Qed.

#[local] Instance sameRequests_trans : Transitive sameRequests.
Proof. intros p1 p2 p3 H1 H2. unfold sameRequests in *. congruence. Qed.

#[local] Instance sameConfig_refl : Reflexive sameConfig.
Proof. intros p. split; reflexivity. Qed.

#[local] Instance sameConfig_trans : Transitive sameConfig.
Proof. intros p1 p2 p3 [H1 H2] [H3 H4]. split; congruence. Qed.


Ltac stable_step :=
  first
    [ apply stable_ret; solve [typeclasses eauto]
    | apply stable_throw; solve [typeclasses eauto]
    | apply stable_hang; solve [typeclasses eauto]
    | apply stable_get; solve [typeclasses eauto]
    | apply stable_fetch; solve [typeclasses eauto]
    | apply stable_bind; [typeclasses eauto| |intros ?]
    | apply stable_tryCatch; [typeclasses eauto| |intros ?]
    | apply stable_modify; intros ?; hnf; repeat split; reflexivity
    | match goal with |- stable _ (match ?x with _ => _ end) => destruct x end
    | match goal with |- stable _ (if ?x then _ else _) => destruct x end
    | match goal with |- stable _ (let '(_, _) := ?x in _) => destruct x end ].


Ltac unfold_async :=
  repeat progress
    unfold mbind, mret, Async_bind, Async_ret, tryCatch, throw, hang, fetch, Notice,
      modify, get in *.


(** ** Titles of new notes *)

Lemma period_cases (hours : nat) :
  (4 <= hours < 12 -> period hours = "Morning") /\
  (12 <= hours < 20 -> period hours = "Afternoon") /\
  (hours < 4 \/ 20 <= hours -> period hours = "Night").
Proof.
  unfold period.
  destruct (Nat.leb_spec 4 hours), (Nat.ltb_spec hours 12),
    (Nat.leb_spec 12 hours), (Nat.ltb_spec hours 20); cbn; repeat split; intros; try reflexivity; lia.
Qed.

Lemma tried_title d a j :
  tried (noteTitleN d a) 1 (noteTitle d a) j = titleCandidate d a (S j).
Proof. destruct j; reflexivity. Qed.

Lemma tried_name d a j :
  tried (recordingNameN d a) 1 (recordingName d a) j = nameCandidate d a (S j).
Proof. destruct j; reflexivity. Qed.

Lemma titleCandidate_inj d a i j :
  1 <= i -> 1 <= j -> titleCandidate d a i = titleCandidate d a j -> i = j.
Proof.
  unfold titleCandidate, noteTitle, noteTitleN. intros Hi Hj.
  destruct (Nat.eqb_spec i 1), (Nat.eqb_spec j 1); subst; auto; intros E.
  - do 3 apply append_inj_l in E. apply (f_equal String.length) in E.
    rewrite append_length in E. simpl in E. lia.
  - do 3 apply append_inj_l in E. apply (f_equal String.length) in E.
    rewrite append_length in E. simpl in E. lia.
  - do 5 apply append_inj_l in E. apply natToString_inj, E.
Qed.

Section Titles.

Context `{Host}.

Lemma testedPath_inj dest t t' :
  match dest with DefaultFolder _ => False | _ => True end ->
  testedPath dest t = testedPath dest t' -> t = t'.
Proof.
  destruct dest as [d|f|]; cbn; intros Hd E; [contradiction| |].
  - do 2 apply append_inj_l in E. apply append_inj_r in E. exact E.
  - apply append_inj_r in E. exact E.
Qed.

(** The title of a new note is "Captain's Log", the date and the
    time-of-day bucket (Morning from 4 to 11 o'clock, Afternoon from 12 to
    19, Night otherwise); the loop tries that title and then the title with
    the suffixes -2, -3, ..., and stops at the first one whose tested path
    is not in the vault.  So the title chosen is the [k]-th candidate for
    the least [k] whose tested path is free, every earlier candidate being
    taken.  With a default folder, or with no active file, the note is
    created at the tested path; in the folder of the active file it is
    created at the normalised form of the tested path, which the loop did
    not test.  In a vault of [n] entries the loop ends within [n]
    iterations, because the tested paths differ (in the default-folder
    branch: provided the host's [normalizePath] keeps them apart).  When
    the first tested path is taken and the second is free, the result is
    the title with -2. *)
Theorem new_note_title (fuel : nat) (v : Vault) (dest : NoteFolder)
    (formattedDate : string) (hours : nat) :
  let ampm := period hours in
  let candidate := titleCandidate formattedDate ampm in
  let taken := fun title => present v (testedPath dest title) in
  ((4 <= hours < 12 -> ampm = "Morning") /\
   (12 <= hours < 20 -> ampm = "Afternoon") /\
   (hours < 4 \/ 20 <= hours -> ampm = "Night")) /\
  (candidate 1 = "Captain's Log " +:+ formattedDate +:+ "-" +:+ ampm /\
   forall k, 2 <= k -> candidate k = candidate 1 +:+ "-" +:+ Js.natToString k) /\
  match finalTitle fuel v dest formattedDate ampm with
  | Some title =>
      exists k, 1 <= k <= S fuel /\ title = candidate k /\ taken title = false /\
        (forall j, 1 <= j < k -> taken (candidate j) = true) /\
        notePathOf dest title =
          match dest with
          | ActiveFolder _ => normalizePath (testedPath dest title)
          | _ => testedPath dest title
          end
  | None => forall j, 1 <= j <= S fuel -> taken (candidate j) = true
  end /\
  (length v <= fuel ->
   (forall i j, 1 <= i -> 1 <= j ->
      testedPath dest (candidate i) = testedPath dest (candidate j) -> i = j) ->
   is_Some (finalTitle fuel v dest formattedDate ampm)) /\
  (length v <= fuel -> match dest with DefaultFolder _ => False | _ => True end ->
   is_Some (finalTitle fuel v dest formattedDate ampm)) /\
  (1 <= fuel -> taken (candidate 1) = true -> taken (candidate 2) = false ->
   finalTitle fuel v dest formattedDate ampm = Some (candidate 2)).
Proof.
  intros ampm candidate taken.
  assert (length v <= fuel ->
          (forall i j, 1 <= i -> 1 <= j ->
             testedPath dest (candidate i) = testedPath dest (candidate j) -> i = j) ->
          is_Some (finalTitle fuel v dest formattedDate ampm)) as Htotal.
  { intros Hfuel Hinj. unfold finalTitle.
    apply (untilFree_total v (testedPath dest)); [|exact Hfuel].
    intros i j _ _. rewrite !tried_title. intros E.
    assert (S i = S j); [|lia]. apply Hinj; [lia|lia|exact E]. }
  split; [apply period_cases|]. split.
  { split; [reflexivity|]. intros k Hk. unfold candidate, titleCandidate.
    destruct (Nat.eqb_spec k 1); [lia|]. cbn [Nat.eqb].
    unfold noteTitleN, noteTitle. rewrite !append_assoc. reflexivity. }
  split.
  { unfold finalTitle.
    destruct (untilFree _ _ fuel 1 _) as [title|] eqn:E.
    - apply untilFree_Some in E as (j & Hj & -> & Hf & Hall).
      exists (S j). rewrite tried_title in *. repeat split; [lia|lia|exact Hf| |].
      + intros [|i] Hi; [lia|]. specialize (Hall i ltac:(lia)).
        rewrite tried_title in Hall. exact Hall.
      + destruct dest; reflexivity.
    - intros [|j] Hj; [lia|]. pose proof (untilFree_None _ _ _ _ _ E j ltac:(lia)) as G.
      rewrite tried_title in G. exact G. }
  split; [exact Htotal|]. split.
  { intros Hfuel Hdest. apply Htotal; [exact Hfuel|].
    intros i j Hi Hj E. apply testedPath_inj in E; [|exact Hdest].
    apply (titleCandidate_inj formattedDate ampm); assumption. }
  intros Hfuel H1 H2. unfold finalTitle.
  destruct fuel as [|fuel]; [lia|]. cbn [untilFree].
  change (present v (testedPath dest (noteTitle formattedDate ampm))) with (taken (candidate 1)).
  rewrite H1.
  change (noteTitleN formattedDate ampm 2) with (candidate 2).
  destruct fuel; cbn [untilFree];
    change (present v (testedPath dest (candidate 2))) with (taken (candidate 2));
    rewrite H2; reflexivity.
Qed.

End Titles.

Section Frames.
Context `{Host}.

Lemma Notice_sameConfig msg : stable sameConfig (Notice msg).
Proof. apply stable_modify. intros p. split; reflexivity. Qed.

Lemma loadTemplateContent_sameConfig : stable sameConfig loadTemplateContent.
Proof. unfold loadTemplateContent. repeat stable_step. Qed.

Lemma placeInNewNote_sameConfig fuel now file : stable sameConfig (placeInNewNote fuel now file).
Proof. unfold placeInNewNote. repeat first [apply Notice_sameConfig | stable_step]. Qed.

Lemma placeInline_sameConfig : stable sameConfig placeInline.
Proof. unfold placeInline. repeat first [apply Notice_sameConfig | stable_step]. Qed.

Lemma transcribeBody_sameConfig fuel now remote file mime :
  stable sameConfig (transcribeBody fuel now remote file mime).
Proof.
  unfold transcribeBody.
  repeat first [apply Notice_sameConfig | apply loadTemplateContent_sameConfig
               | apply placeInline_sameConfig | apply placeInNewNote_sameConfig
               | stable_step].
Qed.


Lemma fallBackToNewNote_inline p :
  insertTranscriptLocation (settings p) = inline -> activeView p = None ->
  fallBackToNewNote p =
    (Normal tt,
     set_settings (set_insertTranscriptLocation newNote (settings p))
       (set_notices
          (notices p ++
           ["No active file open. Defaulting to generating the transcript in a new note."])
          p)).
Proof.
  intros Hloc Hview. unfold fallBackToNewNote.
  rewrite (bind_normal get _ p p p eq_refl). rewrite Hloc, Hview. reflexivity.
Qed.

Lemma fallBackToNewNote_other p :
  insertTranscriptLocation (settings p) = newNote \/ is_Some (activeView p) ->
  fallBackToNewNote p = (Normal tt, p).
Proof.
  intros Hc. unfold fallBackToNewNote.
  rewrite (bind_normal get _ p p p eq_refl).
  destruct Hc as [->|[ed ->]]; [reflexivity|].
  destruct (insertTranscriptLocation (settings p)); reflexivity.
Qed.

Lemma readBinary_sameConfig filePath : stable sameConfig (readBinary filePath).
Proof. unfold readBinary. repeat stable_step. Qed.

(** After the fallback, nothing in [transcribeRecording] touches the
    settings or the stored data. *)
Lemma afterFallback_sameConfig fuel now remote audioFile :
  stable sameConfig
    (Notice "Processing audio for transcription...";;
     readBinary (path audioFile);;
     tryCatch (transcribeBody fuel now remote audioFile (getMimeType audioFile))
              (fun message => Notice message)).
Proof.
  repeat first [apply Notice_sameConfig | apply readBinary_sameConfig
               | apply transcribeBody_sameConfig | stable_step].
Qed.


(** Otherwise, that is when placement in a new note is configured or a
    markdown view is active, [transcribeRecording] leaves every setting and
    the stored data as they were, whatever the outcome of the requests. *)
Lemma no_fallback_no_change fuel now remote audioFile p :
  insertTranscriptLocation (settings p) = newNote \/ is_Some (activeView p) ->
  let p' := snd (transcribeRecording fuel now remote audioFile p) in
  settings p' = settings p /\ data p' = data p.
Proof.
  intros Hc. cbn zeta. unfold transcribeRecording.
  rewrite (bind_normal _ _ _ _ _ (fallBackToNewNote_other p Hc)).
  apply (afterFallback_sameConfig fuel now remote audioFile p).
Qed.


Lemma Notice_sameRequests msg : stable sameRequests (Notice msg).
Proof. apply stable_modify. intros p. reflexivity. Qed.

Lemma placeInNewNote_sameRequests fuel now file :
  stable sameRequests (placeInNewNote fuel now file).
Proof. unfold placeInNewNote. repeat first [apply Notice_sameRequests | stable_step]. Qed.

Lemma placeInline_sameRequests : stable sameRequests placeInline.
Proof. unfold placeInline. repeat first [apply Notice_sameRequests | stable_step]. Qed.

Lemma append_nil_r (s : string) : s +:+ "" = s.
Proof. induction s as [|c s IH]; [reflexivity|]. change (String c (s +:+ "") = String c s). congruence. Qed.

Lemma length_zero_empty (s : string) : (0 <? String.length s) = false -> s = "".
Proof. destruct s; [reflexivity|discriminate]. Qed.

(** [loadTemplateContent] reads the settings and the vault, returns, and
    changes nothing. *)
Lemma loadTemplateContent_ext p q :
  settings q = settings p -> vault q = vault p ->
  exists t, loadTemplateContent p = (Normal t, p) /\ loadTemplateContent q = (Normal t, q).
Proof.
  intros Hs Hv. unfold loadTemplateContent.
  rewrite (bind_normal get _ p p p eq_refl), (bind_normal get _ q q q eq_refl).
  rewrite Hs, Hv.
  destruct (Js.truthy _ && _); [|eauto].
  destruct (getAbstractFileByPath _ _) as [[c|]|]; eauto.
Qed.

Lemma loadTemplateContent_missing p :
  Js.trim (templateFilePath (settings p)) = "" \/
  isTFile (getAbstractFileByPath (vault p) (templateFilePath (settings p))) = false ->
  loadTemplateContent p = (Normal "", p).
Proof.
  intros Hm. unfold loadTemplateContent.
  rewrite (bind_normal get _ p p p eq_refl).
  destruct Hm as [Hm|Hm].
  - rewrite Hm. rewrite andb_false_r. reflexivity.
  - destruct (Js.truthy _ && _); [|reflexivity].
    destruct (getAbstractFileByPath _ _) as [[c|]|]; [discriminate|reflexivity|reflexivity].
Qed.

(** The one generation request [transcribeBody] makes, if it gets that
    far. *)
Lemma transcribeBody_request fuel now remote audioFile mimeType p :
  exists t, loadTemplateContent p = (Normal t, p) /\
   (requests (snd (transcribeBody fuel now remote audioFile mimeType p)) = requests p \/
    exists fileUri,
      requests (snd (transcribeBody fuel now remote audioFile mimeType p)) =
      requests p ++ [mkPayload (model (settings p))
                       (combinedPrompt (prompt (settings p)) t) mimeType fileUri]).
Proof.
  set (q := set_notices (notices p ++ ["Audio uploaded. Generating transcript..."]) p).
  destruct (loadTemplateContent_ext p q eq_refl eq_refl) as (t & Ht & Hq).
  exists t. split; [exact Ht|].
  unfold transcribeBody.
  destruct (initResponse remote) as [msg|[url|]] eqn:E1;
    [left; unfold_async; cbn; reflexivity| |left; unfold_async; cbn; reflexivity].
  destruct (Js.truthy url) eqn:E2; [|left; unfold_async; cbn; rewrite E2; reflexivity].
  destruct (uploadResponse remote) as [msg|[|[uri|]]] eqn:E3;
    try (left; unfold_async; cbn; rewrite E2; reflexivity).
  destruct (Js.truthy uri) eqn:E4; [|left; unfold_async; cbn; rewrite E2; cbn; rewrite E4; reflexivity].
  right. exists uri.
  unfold_async. cbn. rewrite E2. cbn. rewrite E4. cbn. fold q. rewrite Hq. cbn.
  destruct (generateResponse remote _) as [msg|generateData]; cbn; [reflexivity|].
  destruct (firstText generateData) as [text|]; cbn; [|reflexivity].
  destruct (insertTranscriptLocation (settings p)).
  - match goal with |- context [placeInline ?x] =>
      rewrite (placeInline_sameRequests x) end. reflexivity.
  - match goal with |- context [placeInNewNote ?f ?n ?a ?x] =>
      rewrite (placeInNewNote_sameRequests f n a x) end. reflexivity.
Qed.

End Frames.

(** ** Extensions and content types *)

Lemma hasChar_append c (a b : string) :
  Js.hasChar c (a +:+ b) = Js.hasChar c a || Js.hasChar c b.
Proof.
  induction a as [|x a IH]; [reflexivity|].
  rewrite append_cons. cbn [Js.hasChar]. rewrite IH. apply orb_assoc.
Qed.

Lemma afterLast_append c (a b : string) :
  Js.hasChar c b = true -> Js.afterLast c (a +:+ b) = Js.afterLast c b.
Proof.
  intros Hb. induction a as [|x a IH]; [reflexivity|].
  rewrite append_cons. cbn [Js.afterLast]. rewrite hasChar_append, Hb, orb_true_r, orb_true_r.
  exact IH.
Qed.

Lemma extname_mp3 (s : string) : extname (s +:+ ".mp3") = "mp3".
Proof.
  unfold extname. rewrite hasChar_append. replace (Js.hasChar "." ".mp3") with true by reflexivity.
  rewrite orb_true_r. rewrite afterLast_append by reflexivity. reflexivity.
Qed.

Lemma nameCandidate_mp3 d p k : extname (nameCandidate d p k) = "mp3".
Proof.
  unfold nameCandidate, recordingName, recordingNameN.
  destruct (k =? 1); rewrite <- ?append_assoc; apply extname_mp3.
Qed.

Lemma getMimeType_mp3 (file : TFile) :
  extension file = "mp3" -> getMimeType file = "audio/mp3".
Proof. intros E. unfold getMimeType. rewrite E. reflexivity. Qed.


#[local] Instance mp3Only_refl : Reflexive mp3Only.
Proof. intros p. exists []. rewrite app_nil_r. split; [reflexivity|constructor]. Qed.

#[local] Instance mp3Only_trans : Transitive mp3Only.
Proof.
  intros p1 p2 p3 (l1 & E1 & F1) (l2 & E2 & F2). exists (l1 ++ l2).
  rewrite E2, E1, app_assoc. split; [reflexivity|]. apply Forall_app. auto.
Qed.

Lemma stable_weaken (R R' : Plugin -> Plugin -> Prop) {A} (c : Async A) :
  (forall p p', R p p' -> R' p p') -> stable R c -> stable R' c.
Proof. intros HR Hc p. apply HR, Hc. Qed.

Lemma sameRequests_mp3Only p p' : sameRequests p p' -> mp3Only p p'.
Proof. intros E. exists []. rewrite app_nil_r. split; [exact E|constructor]. Qed.

Lemma stable_bind_with (R : Plugin -> Plugin -> Prop) `{!Transitive R} {A B}
    (Q : A -> Prop) (m : Async A) (f : A -> Async B) :
  (forall p a p', m p = (Normal a, p') -> Q a) ->
  stable R m -> (forall a, Q a -> stable R (f a)) -> stable R (m ≫= f).
Proof.
  intros HQ Hm Hf p. unfold mbind, Async_bind. specialize (Hm p). specialize (HQ p).
  destruct (m p) as [[a|msg|] p']; cbn in *; [|exact Hm|exact Hm].
  transitivity p'; [exact Hm|]. apply Hf. apply (HQ a p'). reflexivity.
Qed.

Section Mp3.
Context `{Host}.

Lemma fallBackToNewNote_sameRequests : stable sameRequests fallBackToNewNote.
Proof. unfold fallBackToNewNote. repeat first [apply Notice_sameRequests | stable_step]. Qed.

Lemma readBinary_sameRequests filePath : stable sameRequests (readBinary filePath).
Proof. unfold readBinary. repeat stable_step. Qed.

Lemma transcribeBody_mp3Only fuel now remote audioFile :
  stable mp3Only (transcribeBody fuel now remote audioFile "audio/mp3").
Proof.
  intros p.
  destruct (transcribeBody_request fuel now remote audioFile "audio/mp3" p)
    as (t & _ & [E|[uri E]]).
  - apply sameRequests_mp3Only. exact E.
  - eexists. split; [exact E|]. repeat constructor.
Qed.

Lemma transcribeRecording_mp3Only fuel now remote audioFile :
  extension audioFile = "mp3" ->
  stable mp3Only (transcribeRecording fuel now remote audioFile).
Proof.
  intros Hext. unfold transcribeRecording. rewrite (getMimeType_mp3 _ Hext).
  apply stable_bind; [typeclasses eauto| |intros _].
  { apply (stable_weaken sameRequests); [apply sameRequests_mp3Only|].
    apply fallBackToNewNote_sameRequests. }
  apply stable_bind; [typeclasses eauto| |intros _].
  { apply (stable_weaken sameRequests); [apply sameRequests_mp3Only|].
    apply Notice_sameRequests. }
  apply stable_bind; [typeclasses eauto| |intros _].
  { apply (stable_weaken sameRequests); [apply sameRequests_mp3Only|].
    apply readBinary_sameRequests. }
  apply stable_tryCatch; [typeclasses eauto| |intros msg].
  - apply transcribeBody_mp3Only.
  - apply (stable_weaken sameRequests); [apply sameRequests_mp3Only|].
    apply Notice_sameRequests.
Qed.

End Mp3.

Lemma Notice_mp3Only msg : stable mp3Only (Notice msg).
Proof.
  apply (stable_weaken sameRequests); [apply sameRequests_mp3Only|apply Notice_sameRequests].
Qed.

Lemma saveSettings_mp3Only : stable mp3Only saveSettings.
Proof. apply stable_modify. intros p. apply sameRequests_mp3Only. exact eq_refl. Qed.

Ltac mp3_step :=
  first
    [ apply stable_ret; solve [typeclasses eauto]
    | apply stable_throw; solve [typeclasses eauto]
    | apply stable_hang; solve [typeclasses eauto]
    | apply stable_get; solve [typeclasses eauto]
    | apply Notice_mp3Only
    | apply saveSettings_mp3Only
    | apply stable_bind; [typeclasses eauto| |intros ?]
    | apply stable_modify; intros ?; apply sameRequests_mp3Only; exact eq_refl
    | match goal with |- stable _ (match ?x with _ => _ end) => destruct x end
    | match goal with |- stable _ (if ?x then _ else _) => destruct x end ].

Section Mp3Pipeline.

Context `{Host}.

(** Whatever happens in [handleAudioRecording], every generation request it
    causes declares audio/mp3, provided [saveFile] keeps the extension of the
    file name it is given. *)
Lemma handleAudioRecording_mp3Only fuel now later remote audioFile transcribe keep incl :
  (forall v blob fileName folder v' file,
     saveFile v blob fileName folder = Some (v', file) ->
     extension file = extname fileName) ->
  stable mp3Only
    (handleAudioRecording fuel now later remote audioFile transcribe keep incl).
Proof.
  intros Hlaw. unfold handleAudioRecording.
  apply stable_tryCatch; [typeclasses eauto| |intros msg; apply Notice_mp3Only].
  destruct audioFile as [blob|]; [|apply stable_ret; typeclasses eauto].
  apply stable_bind; [typeclasses eauto|apply stable_get; typeclasses eauto|intros p].
  cbn zeta.
  apply (stable_bind_with mp3Only (fun fileName => extname fileName = "mp3")).
  - intros q a q'. unfold loopUntilFree.
    destruct (Js.truthy _);
      (destruct (untilFree _ _ fuel 1 _) as [r|] eqn:E; [|discriminate];
       intros [= <- _]; apply untilFree_Some in E as (j & _ & -> & _);
       rewrite tried_name; apply nameCandidate_mp3).
  - unfold loopUntilFree. repeat mp3_step.
  - intros fileName Hname.
    apply (stable_bind_with mp3Only (fun file => extension file = "mp3")).
    + intros q a q'.
      destruct (saveFile _ _ _ _) as [[v file]|] eqn:E; [|discriminate].
      intros [= <- _]. rewrite (Hlaw _ _ _ _ _ _ E). exact Hname.
    + repeat mp3_step.
    + intros file Hext.
      repeat first [apply (transcribeRecording_mp3Only _ _ _ _ Hext) | mp3_step].
Qed.

End Mp3Pipeline.

(** ** The audio-link resolver *)

(** Matches come out in the order of their positions. *)
Lemma matchesFrom_positions pat : forall s before skip idx,
  Forall (fun i => idx + skip <= i) (map fst (matchesFrom pat before s skip idx)) /\
  StronglySorted lt (map fst (matchesFrom pat before s skip idx)).
Proof.
  induction s as [|c s IH]; intros before skip idx; cbn [matchesFrom].
  - split; constructor.
  - destruct skip as [|k].
    + destruct (if lookbehind pat before then matchHere pat (String c s) else None) as [len|].
      * destruct (IH (String c before) (len - 1) (S idx)) as [Hall Hs].
        cbn [map fst]. split.
        -- constructor; [lia|]. eapply Forall_impl; [exact Hall|]. cbn. intros; lia.
        -- constructor; [exact Hs|]. eapply Forall_impl; [exact Hall|]. cbn. intros; lia.
      * destruct (IH (String c before) 0 (S idx)) as [Hall Hs]. split; [|exact Hs].
        eapply Forall_impl; [exact Hall|]. cbn. intros; lia.
    + destruct (IH (String c before) k (S idx)) as [Hall Hs]. split; [|exact Hs].
      eapply Forall_impl; [exact Hall|]. cbn. intros; lia.
Qed.

Lemma sorted_last_max (l : list (nat * string)) :
  StronglySorted lt (map fst l) ->
  forall i m, (i, m) ∈ l -> exists j m', last l = Some (j, m') /\ i <= j.
Proof.
  induction l as [|[i0 m0] l IH]; intros Hs i m Hin.
  - apply elem_of_nil in Hin. contradiction.
  - cbn [map fst] in Hs. apply StronglySorted_inv in Hs as [Hs Hall].
    destruct l as [|x l].
    + apply list_elem_of_singleton in Hin. injection Hin as -> ->.
      exists i0, m0. split; [reflexivity|lia].
    + change (last ((i0, m0) :: x :: l)) with (last (x :: l)).
      apply elem_of_cons in Hin as [Hin|Hin].
      * injection Hin as -> ->.
        destruct (last (x :: l)) as [[j m']|] eqn:E.
        -- exists j, m'. split; [reflexivity|].
           assert ((j, m') ∈ x :: l) as Hj by (apply last_Some_elem_of; exact E).
           rewrite Forall_forall in Hall. specialize (Hall j).
           assert (i0 < j); [|lia]. apply Hall.
           apply list_elem_of_In, in_map_iff. exists (j, m'). split; [reflexivity|].
           apply list_elem_of_In. exact Hj.
        -- apply last_None in E. discriminate.
      * apply (IH Hs i m Hin).
Qed.

Section Resolver.
Context `{Host}.

Lemma eachMatch_last results : forall filename p,
  (forall i m, (i, m) ∈ results -> is_Some (decodeURI m)) ->
  eachMatch results filename p =
    (Normal (match last results with
             | Some (_, m) => decoded m
             | None => filename
             end), p).
Proof.
  induction results as [|[i0 m0] results IH]; intros filename p Hdec; cbn [eachMatch].
  - reflexivity.
  - destruct (Hdec i0 m0 ltac:(left)) as [d Hd]. rewrite Hd.
    rewrite IH by (intros i m Hin; apply (Hdec i m); right; exact Hin).
    destruct results as [|x results]; [cbn; unfold decoded; rewrite Hd; reflexivity|].
    change (last ((i0, m0) :: x :: results)) with (last (x :: results)).
    destruct (last (x :: results)) as [[j m']|] eqn:E; [reflexivity|].
    apply last_None in E. discriminate.
Qed.

Lemma chosen_regex text :
  chosen regex text =
    match last (execAll MarkdownLink text) with
    | Some r => Some r
    | None => last (execAll WikiLink text)
    end.
Proof.
  unfold chosen, assignments, regex. cbn [flat_map]. rewrite app_nil_r.
  rewrite last_app. reflexivity.
Qed.

(** How [findFilePath] comes to its choice when every match decodes.  It
    runs the patterns in the order of the array and every match overwrites
    [filename].  With the array
    [commandGenerateTranscript] passes, the match that remains is the last
    markdown-style match when the text has one, wherever the wiki-style
    matches stand, and the last wiki-style match otherwise.  Within one
    syntax the matches come in the order of their positions, so the last is
    the one closest to the end of the span.  The path returned is that
    match decoded, normalised and trimmed when the vault has it, else the
    first file of the vault with the same name. *)
Theorem findFilePath_takes_last_markdown_link (text : string) (p : Plugin) :
  (forall i m, (i, m) ∈ assignments regex text -> is_Some (decodeURI m)) ->
  chosen regex text =
    match last (execAll MarkdownLink text) with
    | Some r => Some r
    | None => last (execAll WikiLink text)
    end /\
  (forall pat i m, (i, m) ∈ execAll pat text ->
     exists j m', last (execAll pat text) = Some (j, m') /\ i <= j) /\
  eachRegex regex text "" p =
    (Normal (match chosen regex text with
             | Some (_, m) => decoded m
             | None => ""
             end), p) /\
  match chosen regex text with
  | None => findFilePath text regex p = (Throw "No file found in the text.", p)
  | Some (_, m) =>
      decoded m <> "" ->
      findFilePath text regex p =
        (if present (vault p) (decoded m) then Normal (decoded m)
         else match List.find (fun file => String.eqb (name file) (Js.afterLast "/" (decoded m)))
                              (getFiles (vault p)) with
              | Some foundFile => Normal (path foundFile)
              | None => Throw "File not found"
              end, p)
  end.
Proof.
  intros Hdec.
  assert (eachRegex regex text "" p =
          (Normal (match chosen regex text with
                   | Some (_, m) => decoded m
                   | None => ""
                   end), p)) as Heach.
  { unfold regex. cbn [eachRegex].
    assert (forall i m, (i, m) ∈ execAll WikiLink text -> is_Some (decodeURI m)) as HW.
    { intros i m Hin. apply (Hdec i m). unfold assignments, regex. cbn [flat_map].
      apply elem_of_app. left. exact Hin. }
    assert (forall i m, (i, m) ∈ execAll MarkdownLink text -> is_Some (decodeURI m)) as HM.
    { intros i m Hin. apply (Hdec i m). unfold assignments, regex. cbn [flat_map].
      apply elem_of_app. right. rewrite app_nil_r. exact Hin. }
    rewrite (bind_normal _ _ _ _ _ (eachMatch_last _ "" p HW)).
    rewrite (bind_normal _ _ _ _ _ (eachMatch_last _ _ p HM)).
    fold regex. rewrite chosen_regex.
    destruct (last (execAll MarkdownLink text)) as [[j m]|]; reflexivity. }
  split; [apply chosen_regex|]. split.
  { intros pat i m Hin. apply (sorted_last_max _ (proj2 (matchesFrom_positions pat text "" 0 0)) i m Hin). }
  split; [exact Heach|].
  unfold findFilePath. rewrite (bind_normal _ _ _ _ _ Heach).
  destruct (chosen regex text) as [[j m]|]; [|reflexivity].
  intros Hne. destruct (String.eqb_spec (decoded m) ""); [contradiction|].
  rewrite (bind_normal get _ p p p eq_refl).
  unfold present. destruct (isTAbstractFile _); [reflexivity|].
  destruct (List.find _ _); reflexivity.
Qed.

End Resolver.

(** C3.  The resolver is to return the reference closest before the
    cursor, whatever its syntax.  Two links of one syntax resolve to the
    later one, and so does a wiki-style link followed by a markdown-style
    link.  But [findFilePath] runs the wiki-style pattern over the whole
    span before the markdown-style pattern, every match overwriting
    [filename]: a markdown-style link followed by a wiki-style link
    resolves to the markdown-style one, although the wiki-style link is
    the closest before the cursor. *)
Theorem chosen_is_not_last_by_position :
  let p := mkPlugin DEFAULT_SETTINGS false "" None
             [("a.mp3", FileNode (Binary [])); ("b.wav", FileNode (Binary []))]
             None None [] [] [] in
  let text := "[x](a.mp3) [[b.wav]]" in
  @findFilePath exampleHost "[[a.mp3]] and later [[b.wav]]" regex p = (Normal "b.wav", p) /\
  @findFilePath exampleHost "[x](a.mp3) and later [y](b.wav)" regex p = (Normal "b.wav", p) /\
  @findFilePath exampleHost "[[a.mp3]] [y](b.wav)" regex p = (Normal "b.wav", p) /\
  execAll WikiLink text = [(13, "b.wav")] /\
  execAll MarkdownLink text = [(4, "a.mp3")] /\
  chosen regex text = Some (4, "a.mp3") /\
  lastByPosition regex text = Some (13, "b.wav") /\
  @findFilePath exampleHost text regex p = (Normal "a.mp3", p).
Proof. vm_compute. repeat split. Qed.




(** ** The name of a recording *)



(** C10.  The name of a recording is to be unique among the files that
    exist where it is saved.  The loop of [handleAudioRecording] looks for
    the name under the trimmed recording folder, while [saveFile] is handed
    the folder as configured.  With the folder "recordings" two recordings
    of one morning get two names.  With "recordings " (a space typed after
    it, which the settings tab stores as it is) the first recording is
    saved below "recordings "; for the second one the loop finds nothing
    at recordings/recording-2024-01-01-Morning.mp3, whatever the host's
    [normalizePath] makes of that path as long as nothing is there, and
    chooses the name of the first again.  The example host's [saveFile]
    refuses a path that exists, so the second recording is not saved: the
    vault is as before and the only notice tells the failure. *)
Theorem recording_name_is_not_unique_where_saved :
  let configured := fun folder =>
    mkSettings "gemini-2.0-flash" "key" "Summarise." "" folder true false newNote "" in
  let start := fun folder =>
    mkPlugin (configured folder) false "" None [] None None [] [] [] in
  let now := mkClock "2024-01-01" 9 in
  let remote := mkRemote (NetworkError "offline") (NetworkError "offline")
                  (fun _ => NetworkError "offline") in
  let first := Modal.mkBlob [Modal.mkPart 0 "first"] "audio/wav" in
  let second := Modal.mkBlob [Modal.mkPart 1 "second"] "audio/wav" in
  let record := fun blob p =>
    snd (@handleAudioRecording exampleHost 3 now now remote (Some blob) false true false p) in
  let p1 := record first (start "recordings ") in
  vault (record second (record first (start "recordings"))) =
    [("recordings/recording-2024-01-01-Morning.mp3",
      FileNode (Binary [Modal.mkPart 0 "first"]));
     ("recordings/recording-2024-01-01-Morning-2.mp3",
      FileNode (Binary [Modal.mkPart 1 "second"]))] /\
  vault p1 = [("recordings /recording-2024-01-01-Morning.mp3",
               FileNode (Binary [Modal.mkPart 0 "first"]))] /\
  (forall host : Host,
     present (vault p1)
       (normalizePath (Host := host) "recordings/recording-2024-01-01-Morning.mp3") = false ->
     @chosenRecordingName host 3 now p1 = Some "recording-2024-01-01-Morning.mp3") /\
  @chosenRecordingName exampleHost 3 now p1 = Some "recording-2024-01-01-Morning.mp3" /\
  saveFile (Host := exampleHost) (vault p1) second "recording-2024-01-01-Morning.mp3"
    (recordingFilePath (settings p1)) = None /\
  vault (record second p1) = vault p1 /\
  notices (record second p1) = ["Failed to handle audio recording"].
Proof.
  cbv zeta. split; [vm_compute; reflexivity|]. split; [vm_compute; reflexivity|]. split.
  - intros host Hfree. unfold chosenRecordingName.
    match goal with |- untilFree ?taken _ _ _ ?name = _ =>
      assert (taken name = false) as Ht
    end.
    { exact Hfree. }
    cbn [untilFree]. rewrite Ht. reflexivity.
  - vm_compute. repeat split.
Qed.

(** ** Worked sessions *)

(** A second log on the same morning: the vault has the first one. *)
Lemma new_note_title_witness :
  let v := [("Captain's Log 2024-01-01-Morning.md", FileNode (Text "first log"))] in
  let candidate := titleCandidate "2024-01-01" (period 9) in
  let taken := fun title => present v (@testedPath exampleHost VaultRoot title) in
  (1 <= 1 /\ taken (candidate 1) = true /\ taken (candidate 2) = false) /\
  @finalTitle exampleHost 1 v VaultRoot "2024-01-01" (period 9) = Some (candidate 2) /\
  candidate 2 = "Captain's Log 2024-01-01-Morning-2" /\
  @notePathOf exampleHost VaultRoot (candidate 2) = "Captain's Log 2024-01-01-Morning-2.md".
Proof.
  cbv zeta.
  pose proof (@new_note_title exampleHost 1
                [("Captain's Log 2024-01-01-Morning.md", FileNode (Text "first log"))]
                VaultRoot "2024-01-01" 9) as (_ & _ & _ & _ & _ & Hsecond).
  cbv zeta in Hsecond.
  split; [repeat split; reflexivity|].
  split; [exact (Hsecond (le_n 1) eq_refl eq_refl)|].
  split; reflexivity.
Defined.

(** The same through the pipeline, with no file active at either time: two
    recordings transcribed on one morning give two notes, the second with
    the suffix -2. *)
Lemma second_log_of_the_morning :
  let configured := mkSettings "gemini-2.0-flash" "key" "Summarise." "" "recordings"
                      true false newNote "" in
  let p := mkPlugin configured false "" None
             [("recordings/a.mp3", FileNode (Binary []));
              ("recordings/b.mp3", FileNode (Binary []))] None None [] [] [] in
  let remote := mkRemote (Response (Some "https://upload.example"))
                  (Response (UploadedFile (Some "files/1")))
                  (fun _ => Response (Some (mkGenerateData (Some
                     [mkCandidate (Some (mkContent (Some [mkPartText (Some "Hello")])))])))) in
  let now := mkClock "2024-01-01" 9 in
  let p1 := snd (@transcribeRecording exampleHost 3 now remote (tfileAt "recordings/a.mp3") p) in
  let p2 := snd (@transcribeRecording exampleHost 3 now remote (tfileAt "recordings/b.mp3") p1) in
  map fst (vault p2) =
    ["recordings/a.mp3"; "recordings/b.mp3";
     "Captain's Log 2024-01-01-Morning.md"; "Captain's Log 2024-01-01-Morning-2.md"].
Proof. vm_compute. reflexivity. Qed.

(** C8, evaluated.  Default settings: no default note folder, placement in a
    new note.  The first log of the morning is created in the vault root
    and opened, so it is the active file when the second recording is
    transcribed, and the folder of the active file is the vault root, whose
    path is "/".  The loop then tests the un-normalised path that starts
    with two slashes, which no file has, and appends no suffix; the note
    path is the normalised path, the path of the first log; creating the
    note fails and the second transcript is not stored.  The branch with a
    default folder normalises the path it tests, and the branch without an
    active file tests the very path it creates. *)
Theorem second_log_beside_a_root_note_fails :
  let configured := mkSettings "gemini-2.0-flash-lite" "key" "Summarise." ""
                      "recordings" true false newNote "" in
  let p := mkPlugin configured false "" None
             [("recordings/a.mp3", FileNode (Binary []));
              ("recordings/b.mp3", FileNode (Binary []))] None None [] [] [] in
  let remote := mkRemote (Response (Some "https://upload.example"))
                  (Response (UploadedFile (Some "files/1")))
                  (fun _ => Response (Some (mkGenerateData (Some
                     [mkCandidate (Some (mkContent (Some [mkPartText (Some "Hello")])))])))) in
  let now := mkClock "2024-01-01" 9 in
  let p1 := snd (@transcribeRecording exampleHost 3 now remote (tfileAt "recordings/a.mp3") p) in
  let p2 := snd (@transcribeRecording exampleHost 3 now remote (tfileAt "recordings/b.mp3")
                   (set_activeFile (Some "/") p1)) in
  map fst (vault p1) =
    ["recordings/a.mp3"; "recordings/b.mp3"; "Captain's Log 2024-01-01-Morning.md"] /\
  @testedPath exampleHost (ActiveFolder "/") (titleCandidate "2024-01-01" (period 9) 1) =
    "//Captain's Log 2024-01-01-Morning.md" /\
  @finalTitle exampleHost 3 (vault p1) (ActiveFolder "/") "2024-01-01" (period 9) =
    Some "Captain's Log 2024-01-01-Morning" /\
  @notePathOf exampleHost (ActiveFolder "/") "Captain's Log 2024-01-01-Morning" =
    "Captain's Log 2024-01-01-Morning.md" /\
  vault p2 = vault p1 /\
  last (notices p2) = Some "Failed to create new note for transcript.".
Proof. vm_compute. repeat split. Qed.


(** Inline placement is configured and a note is open. *)
Lemma no_fallback_no_change_witness :
  let configured := mkSettings "gemini-2.0-flash" "key" "Summarise." "" "recordings"
                      true false inline "" in
  let p := mkPlugin configured false "" (Some configured)
             [("recordings/a.mp3", FileNode (Binary []))]
             (Some (mkEditor ["# Day"] (0, 5) (0, 5))) None [] [] [] in
  let remote := mkRemote (Response (Some "https://upload.example"))
                  (Response (UploadedFile (Some "files/1")))
                  (fun _ => Response None) in
  let p' := snd (@transcribeRecording exampleHost 3 (mkClock "2024-01-01" 9) remote
                   (tfileAt "recordings/a.mp3") p) in
  is_Some (activeView p) /\ settings p' = settings p /\ data p' = data p.
Proof.
  cbv zeta. split; [eexists; reflexivity|].
  exact (@no_fallback_no_change exampleHost 3 (mkClock "2024-01-01" 9)
           (mkRemote (Response (Some "https://upload.example"))
              (Response (UploadedFile (Some "files/1")))
              (fun _ => Response None))
           (tfileAt "recordings/a.mp3")
           (mkPlugin (mkSettings "gemini-2.0-flash" "key" "Summarise." "" "recordings"
                        true false inline "")
              false ""
              (Some (mkSettings "gemini-2.0-flash" "key" "Summarise." "" "recordings"
                       true false inline ""))
              [("recordings/a.mp3", FileNode (Binary []))]
              (Some (mkEditor ["# Day"] (0, 5) (0, 5))) None [] [] [])
           (or_intror (ex_intro _ _ eq_refl))).
Defined.

(** C5, as the specification words it, fails.  Inline placement is
    configured.  A first recording is transcribed while no note is open:
    the text goes to a new note.  Then the note journal/Day.md is opened
    and a second recording is transcribed: the preference this invocation
    reads is newNote, the open note is left as it was, a second new note
    appears beside it, and the next [saveSettings] stores newNote. *)
Lemma fallback_outlives_the_invocation :
  let configured := mkSettings "gemini-2.0-flash" "key" "Summarise." "" "recordings"
                      true false inline "" in
  let p0 := mkPlugin configured false "" (Some configured)
              [("journal", FolderNode);
               ("journal/Day.md", FileNode (Text "# Day"));
               ("recordings/a.mp3", FileNode (Binary []));
               ("recordings/b.mp3", FileNode (Binary []))] None None [] [] [] in
  let remote := mkRemote (Response (Some "https://upload.example"))
                  (Response (UploadedFile (Some "files/1")))
                  (fun _ => Response (Some (mkGenerateData (Some
                     [mkCandidate (Some (mkContent (Some [mkPartText (Some "Hello")])))])))) in
  let now := mkClock "2024-01-01" 9 in
  let editor := mkEditor ["# Day"] (0, 5) (0, 5) in
  let p1 := snd (@transcribeRecording exampleHost 5 now remote (tfileAt "recordings/a.mp3") p0) in
  let p2 := snd (@transcribeRecording exampleHost 5 now remote (tfileAt "recordings/b.mp3")
                   (set_activeFile (Some "journal") (set_activeView (Some editor) p1))) in
  insertTranscriptLocation (settings p0) = inline /\
  insertTranscriptLocation (settings p1) = newNote /\
  insertTranscriptLocation (settings p2) = newNote /\
  activeView p2 = Some editor /\
  map fst (vault p2) =
    ["journal"; "journal/Day.md"; "recordings/a.mp3"; "recordings/b.mp3";
     "Captain's Log 2024-01-01-Morning.md";
     "journal/Captain's Log 2024-01-01-Morning.md"] /\
  data p2 = Some configured /\
  data (snd (saveSettings p2)) = Some (set_insertTranscriptLocation newNote configured).
Proof. vm_compute. repeat split. Qed.

(** A markdown-style link between two wiki-style links. *)
Lemma findFilePath_takes_last_markdown_link_witness :
  let text := "[[a.mp3]] [x](b.wav) [[c.mp3]]" in
  let p := mkPlugin DEFAULT_SETTINGS false "" None
             [("a.mp3", FileNode (Binary [])); ("b.wav", FileNode (Binary []));
              ("c.mp3", FileNode (Binary []))]
             None None [] [] [] in
  (forall i m, (i, m) ∈ assignments regex text ->
               is_Some (decodeURI (Host := exampleHost) m)) /\
  execAll WikiLink text = [(2, "a.mp3"); (23, "c.mp3")] /\
  execAll MarkdownLink text = [(14, "b.wav")] /\
  chosen regex text = Some (14, "b.wav") /\
  @eachRegex exampleHost regex text "" p = (Normal "b.wav", p) /\
  @findFilePath exampleHost text regex p = (Normal "b.wav", p).
Proof.
  cbv zeta.
  assert (forall i m, (i, m) ∈ assignments regex "[[a.mp3]] [x](b.wav) [[c.mp3]]" ->
                      is_Some (decodeURI (Host := exampleHost) m)) as Hdec.
  { intros i m Hin.
    change (assignments regex "[[a.mp3]] [x](b.wav) [[c.mp3]]")
      with [(2, "a.mp3"); (23, "c.mp3"); (14, "b.wav")] in Hin.
    apply list_elem_of_In in Hin.
    destruct Hin as [[= <- <-]|[[= <- <-]|[[= <- <-]|[]]]]; eexists; reflexivity. }
  split; [exact Hdec|]. split; [vm_compute; reflexivity|]. split; [vm_compute; reflexivity|].
  pose proof (@findFilePath_takes_last_markdown_link exampleHost
                "[[a.mp3]] [x](b.wav) [[c.mp3]]"
                (mkPlugin DEFAULT_SETTINGS false "" None
                   [("a.mp3", FileNode (Binary [])); ("b.wav", FileNode (Binary []));
                    ("c.mp3", FileNode (Binary []))]
                   None None [] [] []) Hdec) as (H1 & _ & H3 & H4).
  split; [exact H1|]. split; [exact H3|].
  change (chosen regex "[[a.mp3]] [x](b.wav) [[c.mp3]]") with (Some (14, "b.wav")) in H4.
  apply H4. discriminate.
Defined.

(** ** Cleanup after a failed generation *)

(** C1, evaluated.  A recording is made with keep-audio off and "Transcribe"
    pressed; the upload succeeds and the generation response has no
    candidates.  [transcribeRecording] catches its own error, shows it and
    returns; [handleAudioRecording] then deletes the recording, and the
    folder it emptied, although nothing was placed.  With keep-audio on,
    the same session keeps the recording. *)
Theorem failed_generation_deletes_recording :
  let configured := mkSettings "gemini-2.0-flash" "key" "Summarise." "" "recordings"
                      true false newNote "" in
  let p := mkPlugin configured false "" None [("recordings", FolderNode)]
             None None [] [] [] in
  let noText := mkRemote (Response (Some "https://upload.example"))
                  (Response (UploadedFile (Some "files/1")))
                  (fun _ => Response (Some (mkGenerateData None))) in
  let now := mkClock "2024-01-01" 9 in
  let blob := Modal.mkBlob [Modal.mkPart 0 "a"] "audio/wav" in
  let session keepAudio :=
    @handleAudioRecording exampleHost 3 now now noText (Some blob) true keepAudio false p in
  fst (session false) = Normal tt /\
  notices (snd (session false)) =
    ["Processing audio for transcription...";
     "Audio uploaded. Generating transcript...";
     "No text returned from AI model."] /\
  vault (snd (session false)) = [] /\
  vault (snd (session true)) =
    [("recordings", FolderNode);
     ("recordings/recording-2024-01-01-Morning.mp3",
      FileNode (Binary [Modal.mkPart 0 "a"]))].
Proof. vm_compute. repeat split. Qed.

(** ** The embed in a new note *)

(** C7, evaluated.  With keep-audio off and include-link on, the new note
    still starts with the embed of the recording, which
    [handleAudioRecording] then deletes: the embed points at nothing.  The
    sibling path, the link [handleAudioRecording] inserts at the cursor for
    inline placement, does test both settings: it appears with keep-audio
    on and not with keep-audio off. *)
Theorem new_note_embed_ignores_keepAudio :
  let configured := mkSettings "gemini-2.0-flash" "key" "Summarise." "" "recordings"
                      true false newNote "" in
  let p := mkPlugin configured false "" None [("recordings", FolderNode)]
             None None [] [] [] in
  let remote := mkRemote (Response (Some "https://upload.example"))
                  (Response (UploadedFile (Some "files/1")))
                  (fun _ => Response (Some (mkGenerateData (Some
                     [mkCandidate (Some (mkContent (Some [mkPartText (Some "Hello")])))])))) in
  let now := mkClock "2024-01-01" 9 in
  let blob := Modal.mkBlob [Modal.mkPart 0 "a"] "audio/wav" in
  let editor := mkEditor ["# Day"; "notes"; ""] (1, 2) (1, 2) in
  let inlineP := set_activeView (Some editor)
                   (set_settings (set_insertTranscriptLocation inline configured) p) in
  let session q keepAudio :=
    snd (@handleAudioRecording exampleHost 3 now now remote (Some blob) true keepAudio true q) in
  vault (session p false) =
    [("Captain's Log 2024-01-01-Morning.md",
      FileNode (Text "![[recordings/recording-2024-01-01-Morning.mp3]]

Hello"))] /\
  (doc <$> activeView (session inlineP false)) = Some ["# Day"; "notes"; "Hello"] /\
  (doc <$> activeView (session inlineP true)) =
    Some ["# Day"; "no![[recordings/recording-2024-01-01-Morning.mp3]]tes"; "Hello"].
Proof. vm_compute. repeat split. Qed.

(** ** Writing into the note *)

Lemma blank_trim l : blank l = true <-> Js.trim l = "".
Proof.
  unfold blank. destruct (Js.trim l) eqn:E; cbn; split; intros; congruence.
Qed.

Lemma nextNewLine_spec : forall rest ln n added,
  rest <> [] -> nextNewLine rest ln = (n, added) ->
  ln <= n /\
  (forall i, i < n - ln -> blank (nth i rest "") = false) /\
  (if added then n - ln = length rest
   else n - ln < length rest /\ blank (nth (n - ln) rest "") = true).
Proof.
  induction rest as [|l rest IH]; intros ln n added Hne; [contradiction|].
  cbn [nextNewLine]. destruct (0 <? String.length (Js.trim l)) eqn:E.
  - destruct rest as [|l' rest'].
    + intros [= <- <-]. split; [lia|]. split.
      * intros i Hi. replace i with 0 by lia. cbn. unfold blank. rewrite E. reflexivity.
      * cbn. lia.
    + intros H. apply IH in H as (H1 & H2 & H3); [|discriminate].
      split; [lia|]. split.
      * intros [|i] Hi; [cbn; unfold blank; rewrite E; reflexivity|].
        cbn [nth]. apply H2. lia.
      * replace (n - ln) with (S (n - S ln)) by lia.
        destruct added; [cbn [length] in *; lia|].
        cbn [nth length] in *. split; [lia|apply H3].
  - intros [= <- <-]. split; [lia|]. split; [intros i Hi; lia|].
    rewrite Nat.sub_diag. cbn. split; [lia|]. unfold blank. rewrite E. reflexivity.
Qed.

Lemma getNextNewLine_spec (ed : Editor) (ln : nat) :
  ln < length (doc ed) ->
  let n := fst (getNextNewLine ed ln) in
  let ed' := snd (getNextNewLine ed ln) in
  ln <= n <= length (doc ed) /\
  n < length (doc ed') /\
  Js.trim (getLine ed' n) = "" /\
  (forall i, ln <= i < n -> Js.trim (getLine ed i) <> "") /\
  (doc ed' = doc ed \/ (n = length (doc ed) /\ doc ed' = doc ed ++ [""])) /\
  cursorHead ed' = cursorHead ed /\ cursorTo ed' = cursorTo ed.
Proof.
  intros Hln. cbn zeta. unfold getNextNewLine.
  destruct (nextNewLine (skipn ln (doc ed)) ln) as [n added] eqn:E.
  assert (skipn ln (doc ed) <> []) as Hne.
  { intros H. apply (f_equal (@length string)) in H. rewrite length_skipn in H. cbn in H. lia. }
  destruct (nextNewLine_spec _ _ _ _ Hne E) as (H1 & H2 & H3).
  rewrite length_skipn in H3.
  assert (forall i, ln <= i < n -> Js.trim (getLine ed i) <> "") as Htext.
  { intros i Hi Hb. apply blank_trim in Hb. specialize (H2 (i - ln) ltac:(lia)).
    rewrite nth_skipn in H2. replace (ln + (i - ln)) with i in H2 by lia.
    unfold getLine in Hb. congruence. }
  destruct added; cbn [fst snd doc cursorHead cursorTo].
  - split; [lia|]. split; [rewrite length_app; cbn; lia|]. split.
    + unfold getLine. cbn [doc]. rewrite app_nth2 by lia.
      replace (n - length (doc ed)) with 0 by lia. reflexivity.
    + split; [exact Htext|]. split; [right; split; [lia|reflexivity]|]. split; reflexivity.
  - destruct H3 as [H3 H4]. split; [lia|]. split; [lia|]. split.
    + apply blank_trim. rewrite nth_skipn in H4.
      replace (ln + (n - ln)) with n in H4 by lia. exact H4.
    + split; [exact Htext|]. split; [left; reflexivity|]. split; reflexivity.
Qed.

(** [getNextNewLine] returns the first line at or after [ln] that holds
    white space only; every line between holds text.  When there is no such
    line, one empty line is added at the end and that line is returned.
    Nothing else in the document changes. *)
Theorem getNextNewLine_finds_first_blank_line (ed : Editor) (ln : nat) :
  ln < length (doc ed) ->
  let n := fst (getNextNewLine ed ln) in
  let ed' := snd (getNextNewLine ed ln) in
  ln <= n <= length (doc ed) /\
  n < length (doc ed') /\
  Js.trim (getLine ed' n) = "" /\
  (forall i, ln <= i < n -> Js.trim (getLine ed i) <> "") /\
  (doc ed' = doc ed \/ (n = length (doc ed) /\ doc ed' = doc ed ++ [""])) /\
  cursorHead ed' = cursorHead ed /\ cursorTo ed' = cursorTo ed.
Proof. apply getNextNewLine_spec. Qed.

(** The lines around line [n], which [getNextNewLine] returned, are the
    same in the document it returns and in the one it was given. *)
Lemma getNextNewLine_around (ed : Editor) (ln : nat) :
  ln < length (doc ed) ->
  let n := fst (getNextNewLine ed ln) in
  let ed' := snd (getNextNewLine ed ln) in
  getLine ed' n = getLine ed n /\ firstn n (doc ed') = firstn n (doc ed) /\
  skipn (S n) (doc ed') = skipn (S n) (doc ed).
Proof.
  intros Hln. pose proof (getNextNewLine_spec ed ln Hln) as H. cbn zeta in *.
  destruct H as (H1 & H2 & H3 & H4 & H5 & H6 & H7).
  destruct (getNextNewLine ed ln) as [n ed']. cbn [fst snd] in *.
  unfold getLine. destruct H5 as [->|[-> ->]]; [auto|].
  rewrite app_nth2 by lia. rewrite Nat.sub_diag.
  rewrite (nth_overflow (doc ed)) by lia. split; [reflexivity|].
  rewrite firstn_app, Nat.sub_diag, firstn_all. cbn [firstn]. rewrite app_nil_r.
  split; [reflexivity|].
  rewrite !skipn_all2; [reflexivity|lia|rewrite length_app; cbn; lia].
Qed.

Lemma sliceTo_0 s : Js.sliceTo 0 s = "".
Proof. destruct s; reflexivity. Qed.

Lemma sliceFrom_0 s : Js.sliceFrom 0 s = s.
Proof. destruct s; reflexivity. Qed.

(** Inline placement keeps the note.  The transcript goes to the first line
    at or after the cursor's line that holds white space only (a new last
    line when there is none): the lines before it and the lines after it
    are as they were, and no line that holds text is overwritten or split. *)
Theorem inline_placement_keeps_the_note (p : Plugin) (ed : Editor) :
  activeView p = Some ed -> fst (cursorTo ed) < length (doc ed) ->
  exists n,
    fst (cursorTo ed) <= n <= length (doc ed) /\
    Js.trim (getLine ed n) = "" /\
    (forall i, fst (cursorTo ed) <= i < n -> Js.trim (getLine ed i) <> "") /\
    placeInline p =
      (Normal tt,
       set_notices (notices p ++ ["Transcript generated and inserted inline."])
         (set_activeView
            (Some (mkEditor
                     (firstn n (doc ed)
                        ++ Js.split "010" (transcript p +:+ getLine ed n)
                        ++ skipn (S n) (doc ed))
                     (cursorHead ed) (cursorTo ed))) p)).
Proof.
  intros Hview Hln.
  pose proof (getNextNewLine_spec ed _ Hln) as H. cbn zeta in H.
  destruct H as (H1 & H2 & H3 & H4 & H5 & H6 & H7).
  pose proof (getNextNewLine_around ed _ Hln) as (G1 & G2 & G3). cbn zeta in *.
  exists (fst (getNextNewLine ed (fst (cursorTo ed)))).
  unfold placeInline. rewrite (bind_normal get _ p p p eq_refl). rewrite Hview.
  destruct (getNextNewLine ed (fst (cursorTo ed))) as [n ed'] eqn:E. cbn [fst snd] in *.
  split; [lia|]. split; [rewrite <- G1; exact H3|]. split; [exact H4|].
  unfold replaceRange. rewrite sliceTo_0, sliceFrom_0, G1, G2, G3, H6, H7.
  reflexivity.
Qed.

Lemma split_newline_end s :
  Js.split "010" (s +:+ String "010" "") = Js.split "010" s ++ [""].
Proof.
  induction s as [|c s IH]; [reflexivity|].
  rewrite append_cons. cbn [Js.split]. rewrite IH.
  destruct (Ascii.eqb c "010"); [reflexivity|].
  destruct (Js.split "010" s) as [|piece pieces] eqn:E; [|reflexivity].
  destruct s; cbn in E; [discriminate|].
  destruct (Ascii.eqb _ _); [discriminate|]. destruct (Js.split _ _); discriminate.
Qed.

(** [writeText] finds the first line at or after [lnToWrite] that holds
    white space only (adding a last line when there is none) and replaces
    it by an empty line, the trimmed text and another empty line.  The
    lines before it, among them every line that holds text, and the lines
    after it are as they were; the line number is returned. *)
Theorem writeText_replaces_a_blank_line (ed : Editor) (lnToWrite : nat) (text : string) :
  lnToWrite < length (doc ed) ->
  let n := fst (writeText ed lnToWrite text) in
  let ed' := snd (writeText ed lnToWrite text) in
  n = fst (getNextNewLine ed lnToWrite) /\
  lnToWrite <= n <= length (doc ed) /\
  Js.trim (getLine ed n) = "" /\
  (forall i, lnToWrite <= i < n -> Js.trim (getLine ed i) <> "") /\
  doc ed' = firstn n (doc ed) ++ [""] ++ Js.split "010" (Js.trim text) ++ [""]
              ++ skipn (S n) (doc ed) /\
  cursorHead ed' = cursorHead ed /\ cursorTo ed' = cursorTo ed.
Proof.
  intros Hln.
  pose proof (getNextNewLine_spec ed _ Hln) as H. cbn zeta in H.
  destruct H as (H1 & H2 & H3 & H4 & H5 & H6 & H7).
  pose proof (getNextNewLine_around ed _ Hln) as (G1 & G2 & G3). cbn zeta in *.
  unfold writeText.
  destruct (getNextNewLine ed lnToWrite) as [n ed1] eqn:E. cbn [fst snd] in *.
  split; [reflexivity|]. split; [lia|]. split; [rewrite <- G1; exact H3|].
  split; [exact H4|]. unfold setLine. cbn [doc cursorHead cursorTo].
  rewrite G2, G3, H6, H7. split; [|split; reflexivity].
  rewrite split_newline_end.
  change (Js.split "010" (String "010" (Js.trim text)))
    with ("" :: Js.split "010" (Js.trim text)).
  cbn [app]. rewrite <- !app_assoc. reflexivity.
Qed.

(** ** What the resolver returns *)

Lemma In_present (v : Vault) e : In e v -> present v (fst e) = true.
Proof.
  intros Hin. unfold present, getAbstractFileByPath.
  destruct (List.find _ v) eqn:E; [reflexivity|].
  apply (find_none _ _ E) in Hin. rewrite String.eqb_refl in Hin. discriminate.
Qed.

Lemma getFiles_present (v : Vault) f : f ∈ getFiles v -> present v (path f) = true.
Proof.
  unfold getFiles. intros Hf. apply list_elem_of_omap in Hf as ([q n] & Hin & Hq).
  cbn in Hq. destruct n; [|discriminate]. injection Hq as <-. cbn.
  apply list_elem_of_In in Hin. apply (In_present v _ Hin).
Qed.

Section ResolverMore.
Context `{Host}.

Lemma eachMatch_cases results : forall filename p,
  (exists f, eachMatch results filename p = (Normal f, p)) \/
  eachMatch results filename p = (Throw "URI malformed", p).
Proof.
  induction results as [|[i m] results IH]; intros filename p; cbn [eachMatch].
  - left. eexists. reflexivity.
  - destruct (decodeURI m); [apply IH|right; reflexivity].
Qed.

Lemma eachRegex_cases regs text : forall filename p,
  (exists f, eachRegex regs text filename p = (Normal f, p)) \/
  eachRegex regs text filename p = (Throw "URI malformed", p).
Proof.
  induction regs as [|reg regs IH]; intros filename p; cbn [eachRegex].
  - left. eexists. reflexivity.
  - destruct (eachMatch_cases (execAll reg text) filename p) as [[f E]|E].
    + rewrite (bind_normal _ _ _ _ _ E). apply IH.
    + right. unfold mbind, Async_bind. rewrite E. reflexivity.
Qed.

Lemma findFilePath_outcome (text : string) (regs : list LinkPattern) (p : Plugin) :
  snd (findFilePath text regs p) = p /\
  match fst (findFilePath text regs p) with
  | Normal linked => present (vault p) linked = true
  | Throw message =>
      message = "URI malformed" \/ message = "No file found in the text." \/
      message = "File not found"
  | Hang => False
  end.
Proof.
  unfold findFilePath.
  destruct (eachRegex_cases regs text "" p) as [[f E]|E].
  - rewrite (bind_normal _ _ _ _ _ E).
    destruct (String.eqb f ""); [cbn; auto|].
    rewrite (bind_normal get _ p p p eq_refl).
    destruct (isTAbstractFile (getAbstractFileByPath (vault p) f)) eqn:Ef; [cbn; auto|].
    destruct (List.find _ (getFiles (vault p))) as [found|] eqn:Efind; [|cbn; auto].
    cbn. split; [reflexivity|]. apply getFiles_present.
    apply find_some in Efind as [Hin _]. apply list_elem_of_In, Hin.
  - unfold mbind, Async_bind. rewrite E. cbn. auto.
Qed.

(** [findFilePath] only reads.  A path it returns is the path of an entry
    of the vault, a file or a folder; otherwise it fails with one of three
    messages, and it always ends. *)
Theorem findFilePath_returns_a_vault_path (text : string) (regs : list LinkPattern)
    (p : Plugin) :
  snd (findFilePath text regs p) = p /\
  match fst (findFilePath text regs p) with
  | Normal linked => present (vault p) linked = true
  | Throw message =>
      message = "URI malformed" \/ message = "No file found in the text." \/
      message = "File not found"
  | Hang => False
  end.
Proof. apply findFilePath_outcome. Qed.

End ResolverMore.

(** ** What the patterns match *)

Lemma sliceTo_length k : forall s, k <= String.length s -> String.length (Js.sliceTo k s) = k.
Proof.
  induction k as [|k IH]; intros [|c s] Hk; cbn in *; try lia. f_equal. apply IH. lia.
Qed.

Lemma sliceTo_add a b : forall s,
  Js.sliceTo (a + b) s = Js.sliceTo a s +:+ Js.sliceTo b (Js.sliceFrom a s).
Proof.
  induction a as [|a IH]; intros s.
  - destruct s; [destruct b|]; reflexivity.
  - destruct s as [|c s]; [destruct b; reflexivity|]. cbn [Nat.add Js.sliceTo Js.sliceFrom].
    rewrite IH. reflexivity.
Qed.

Lemma prefix_sliceTo p : forall s,
  String.prefix p s = true -> Js.sliceTo (String.length p) s = p.
Proof.
  induction p as [|c p IH]; intros s Hp; [destruct s; reflexivity|].
  destruct s as [|d s]; [discriminate|]. cbn in Hp.
  destruct (Ascii.ascii_dec c d) as [->|]; [|discriminate].
  cbn. f_equal. apply IH, Hp.
Qed.

Lemma reach_length s : reach s <= String.length s.
Proof. induction s as [|c s IH]; cbn; [lia|]. destruct (isBracket c); lia. Qed.

Lemma sliceTo_reach k : forall s, k <= reach s -> hasBracket (Js.sliceTo k s) = false.
Proof.
  induction k as [|k IH]; intros [|c s] Hk; try reflexivity.
  cbn in Hk. destruct (isBracket c) eqn:E; [lia|]. cbn. rewrite E. apply IH. lia.
Qed.

Lemma backtrack_Some pat s : forall k len,
  backtrack pat s k = Some len ->
  exists j, 1 <= j <= k /\ len = j + 4 /\ endsAt pat s j = true.
Proof.
  induction k as [|k IH]; intros len; cbn [backtrack]; [discriminate|].
  destruct (endsAt pat s (S k)) eqn:E.
  - intros [= <-]. exists (S k). repeat split; [lia|lia|exact E].
  - intros Hb. apply IH in Hb as (j & Hj & -> & He). exists j. repeat split; [lia|lia|exact He].
Qed.

Lemma sliceFrom_add a b : forall s, Js.sliceFrom (a + b) s = Js.sliceFrom b (Js.sliceFrom a s).
Proof.
  induction a as [|a IH]; intros s.
  - destruct s; [destruct b|]; reflexivity.
  - destruct s as [|c s]; [destruct b; reflexivity|]. cbn [Nat.add Js.sliceFrom]. apply IH.
Qed.

(** A match found at the start of [s]. *)
Lemma matchHere_shape pat s len :
  matchHere pat s = Some len ->
  exists body ext,
    Js.sliceTo len s = body +:+ "." +:+ ext /\ (ext = "mp3" \/ ext = "wav") /\
    body <> "" /\ hasBracket body = false /\
    String.length (Js.sliceTo len s) = len /\
    String.prefix (closer pat) (Js.sliceFrom len s) = true.
Proof.
  unfold matchHere. intros Hb.
  apply backtrack_Some in Hb as (j & Hj & -> & He).
  unfold endsAt in He. apply andb_prop in He as [Hext Hclose].
  pose proof (reach_length s) as Hr.
  assert (exists ext, (ext = "mp3" \/ ext = "wav") /\
            Js.sliceTo 4 (Js.sliceFrom j s) = "." +:+ ext) as (ext & Hx & Hs4).
  { apply orb_prop in Hext as [Hp|Hp]; apply prefix_sliceTo in Hp; cbn in Hp; eauto. }
  exists (Js.sliceTo j s), ext. rewrite sliceTo_add, Hs4.
  split; [reflexivity|]. split; [exact Hx|]. split.
  - intros E. apply (f_equal String.length) in E. rewrite sliceTo_length in E by lia.
    cbn in E. lia.
  - split; [apply sliceTo_reach; lia|]. split; [|exact Hclose].
    rewrite append_length, sliceTo_length by lia.
    destruct Hx as [-> | ->]; reflexivity.
Qed.

Lemma unread_app b : forall s, unread b s = unread b "" +:+ s.
Proof.
  induction b as [|c b IH]; intros s; [reflexivity|]. cbn [unread].
  rewrite (IH (String c s)), (IH (String c "")), append_assoc. reflexivity.
Qed.

Lemma unread_length b : forall s,
  String.length (unread b s) = String.length b + String.length s.
Proof.
  induction b as [|c b IH]; intros s; [reflexivity|]. cbn [unread].
  rewrite IH. cbn. lia.
Qed.

Lemma sliceFrom_append pre s : Js.sliceFrom (String.length pre) (pre +:+ s) = s.
Proof.
  induction pre as [|c pre IH]; [destruct s; reflexivity|]. cbn. exact IH.
Qed.

Lemma sliceTo_append pre s : Js.sliceTo (String.length pre) (pre +:+ s) = pre.
Proof.
  induction pre as [|c pre IH]; [destruct s; reflexivity|]. cbn. f_equal. exact IH.
Qed.

Lemma unread_slices b s :
  Js.sliceFrom (String.length b) (unread b s) = s /\
  Js.sliceTo (String.length b) (unread b s) = unread b "".
Proof.
  pose proof (unread_length b "") as Hl. cbn in Hl. rewrite Nat.add_0_r in Hl.
  rewrite unread_app, <- Hl. split; [apply sliceFrom_append|apply sliceTo_append].
Qed.

Lemma lookbehind_opener pat b :
  lookbehind pat b = true -> exists pre, unread b "" = pre +:+ opener pat.
Proof.
  intros Hl. destruct b as [|c1 b]; [destruct pat; discriminate|].
  destruct pat.
  - destruct c1 as [[] [] [] [] [] [] [] []]; try discriminate.
    destruct b as [|c2 b]; [discriminate|].
    destruct c2 as [[] [] [] [] [] [] [] []]; try discriminate.
    exists (unread b ""). cbn [unread]. apply unread_app.
  - destruct c1 as [[] [] [] [] [] [] [] []]; try discriminate.
    destruct b as [|c2 b]; [discriminate|].
    destruct c2 as [[] [] [] [] [] [] [] []]; try discriminate.
    exists (unread b ""). cbn [unread]. apply unread_app.
Qed.

Lemma matchesFrom_found pat : forall s before skip idx i m,
  String.length before = idx ->
  (i, m) ∈ matchesFrom pat before s skip idx ->
  exists b' s' len,
    unread b' s' = unread before s /\ String.length b' = i /\
    lookbehind pat b' = true /\ matchHere pat s' = Some len /\ m = Js.sliceTo len s'.
Proof.
  induction s as [|c s IH]; intros before skip idx i m Hlen; cbn [matchesFrom].
  - intros Hin. apply elem_of_nil in Hin. contradiction.
  - assert (String.length (String c before) = S idx) as Hlen' by (cbn; lia).
    destruct skip as [|k].
    + destruct (lookbehind pat before) eqn:El.
      * destruct (matchHere pat (String c s)) as [len|] eqn:Em.
        -- intros Hin. apply elem_of_cons in Hin as [Hin|Hin].
           ++ injection Hin as -> ->. exists before, (String c s), len. auto.
           ++ apply (IH _ _ _ _ _ Hlen') in Hin. exact Hin.
        -- intros Hin. apply (IH _ _ _ _ _ Hlen') in Hin. exact Hin.
      * intros Hin. apply (IH _ _ _ _ _ Hlen') in Hin. exact Hin.
    + intros Hin. apply (IH _ _ _ _ _ Hlen') in Hin. exact Hin.
Qed.

(** What the two patterns of [commandGenerateTranscript] can match.  A
    match is a piece of the text, at the index reported: a non-empty name
    without square brackets, a dot, and mp3 or wav in lower case.  It
    stands right after the two opening brackets of a wiki link or the "]("
    of a markdown link, and right before what closes the link. *)
Theorem matches_are_audio_link_targets (pat : LinkPattern) (text : string) (i : nat)
    (m : string) :
  (i, m) ∈ execAll pat text ->
  Js.sliceTo (String.length m) (Js.sliceFrom i text) = m /\
  (exists body ext,
     m = body +:+ "." +:+ ext /\ (ext = "mp3" \/ ext = "wav") /\
     body <> "" /\ hasBracket body = false) /\
  (exists pre, Js.sliceTo i text = pre +:+ opener pat) /\
  String.prefix (closer pat) (Js.sliceFrom (i + String.length m) text) = true.
Proof.
  unfold execAll. intros Hin.
  apply matchesFrom_found in Hin as (b & s & len & Hu & Hi & Hlb & Hm & ->); [|reflexivity].
  cbn [unread] in Hu. subst text.
  destruct (unread_slices b s) as [Hfrom Hto]. rewrite Hi in Hfrom, Hto.
  destruct (matchHere_shape pat s len Hm) as (body & ext & Hs & Hx & Hb & Hnb & Hl & Hc).
  rewrite Hl, Hfrom. split; [reflexivity|]. split; [exists body, ext; auto|]. split.
  - rewrite Hto. apply lookbehind_opener, Hlb.
  - rewrite sliceFrom_add, Hfrom. exact Hc.
Qed.

(** ** Transcribing only adds *)


#[local] Instance vaultGrows_refl : Reflexive vaultGrows.
Proof. intros p. exists []. symmetry. apply app_nil_r. Qed.

#[local] Instance vaultGrows_trans : Transitive vaultGrows.
Proof.
  intros p1 p2 p3 [a1 H1] [a2 H2]. exists (a1 ++ a2).
  rewrite H2, H1, app_assoc. reflexivity.
Qed.

#[local] Instance nothingPlaced_refl : Reflexive nothingPlaced.
Proof. intros p. repeat split. Qed.

#[local] Instance nothingPlaced_trans : Transitive nothingPlaced.
Proof. intros p1 p2 p3 (A1 & A2 & A3 & A4) (B1 & B2 & B3 & B4). repeat split; congruence. Qed.

Ltac grows_step :=
  first
    [ apply stable_modify; intros ?;
      first [ exists []; symmetry; apply app_nil_r | eexists; reflexivity ]
    | stable_step ].

Lemma ends_ret {A} (a : A) : ends (mret a).
Proof. intros p. left. eauto. Qed.

Lemma ends_throw {A} msg : ends (@throw A msg).
Proof. intros p. right. eauto. Qed.

Lemma ends_get : ends get.
Proof. intros p. left. eauto. Qed.

Lemma ends_modify f : ends (modify f).
Proof. intros p. left. eauto. Qed.

Lemma ends_fetch {A} (r : Fetch A) : ends (fetch r).
Proof. destruct r; [apply ends_throw|apply ends_ret]. Qed.

Lemma ends_bind {A B} (m : Async A) (f : A -> Async B) :
  ends m -> (forall a, ends (f a)) -> ends (m ≫= f).
Proof.
  intros Hm Hf p. unfold mbind, Async_bind.
  destruct (Hm p) as [(a & p' & E)|(msg & p' & E)]; rewrite E; [apply Hf|right; eauto].
Qed.

Lemma throws_throw {A} msg : throws (@throw A msg).
Proof. intros p. eauto. Qed.

Lemma throws_bind {A B} (m : Async A) (f : A -> Async B) :
  ends m -> (forall a, throws (f a)) -> throws (m ≫= f).
Proof.
  intros Hm Hf p. unfold mbind, Async_bind.
  destruct (Hm p) as [(a & p' & E)|(msg & p' & E)]; rewrite E; [apply Hf|eauto].
Qed.

Ltac ends_step :=
  first
    [ apply ends_ret | apply ends_throw | apply ends_get | apply ends_modify
    | apply ends_fetch | apply ends_bind; [|intros ?]
    | match goal with |- ends (match ?x with _ => _ end) => destruct x end
    | match goal with |- ends (if ?x then _ else _) => destruct x end ].

Lemma ends_loadTemplateContent : ends loadTemplateContent.
Proof. unfold loadTemplateContent. repeat ends_step. Qed.

Section Growth.
Context `{Host}.

Lemma transcribeRecording_vaultGrows fuel now remote audioFile :
  stable vaultGrows (transcribeRecording fuel now remote audioFile).
Proof.
  unfold transcribeRecording, fallBackToNewNote, readBinary, transcribeBody, placeInline,
    placeInNewNote, loadTemplateContent, Notice.
  repeat grows_step.
Qed.

Lemma findFilePath_stable (R : Plugin -> Plugin -> Prop) `{!Reflexive R} text regs :
  stable R (findFilePath text regs).
Proof.
  intros p. rewrite (proj1 (findFilePath_outcome text regs p)). reflexivity.
Qed.

Lemma generateFromLink_vaultGrows fuel now remote linked :
  stable vaultGrows (generateFromLink fuel now remote linked).
Proof.
  unfold generateFromLink, Notice.
  repeat first [apply transcribeRecording_vaultGrows | grows_step].
Qed.

Lemma commandGenerateTranscript_vaultGrows fuel now remote editor :
  stable vaultGrows (commandGenerateTranscript fuel now remote editor).
Proof.
  unfold commandGenerateTranscript, readBinary, Notice.
  repeat first [apply generateFromLink_vaultGrows
               | apply (findFilePath_stable vaultGrows) | grows_step].
Qed.

(** Transcribing never deletes: through [transcribeRecording], and through
    the command "Transcribe Audio" that re-transcribes a linked recording,
    every entry of the vault stays where it is, whatever the requests
    return; a folder and a note can only be added after them. *)
Theorem transcribing_never_deletes fuel now remote audioFile p :
  (exists added,
     vault (snd (transcribeRecording fuel now remote audioFile p)) = vault p ++ added) /\
  (exists added,
     vault (snd (commandTranscribeAudio fuel now remote p)) = vault p ++ added).
Proof.
  split; [apply (transcribeRecording_vaultGrows fuel now remote audioFile p)|].
  assert (stable vaultGrows (commandTranscribeAudio fuel now remote)) as Hc.
  { unfold commandTranscribeAudio, Notice.
    repeat first [apply commandGenerateTranscript_vaultGrows | grows_step]. }
  apply (Hc p).
Qed.

(** ** When no text comes back *)

Lemma stable_fetch_bind (R : Plugin -> Plugin -> Prop) `{!Reflexive R} {A B}
    (r : Fetch A) (k : A -> Async B) :
  (forall a, r = Response a -> stable R (k a)) -> stable R (fetch r ≫= k).
Proof.
  intros Hk p. destruct r as [msg|a]; [reflexivity|]. apply (Hk a eq_refl p).
Qed.

Lemma transcribeBody_noText fuel now remote audioFile mimeType :
  noText remote ->
  stable nothingPlaced (transcribeBody fuel now remote audioFile mimeType).
Proof.
  intros Hno. unfold transcribeBody, loadTemplateContent, Notice.
  repeat first
    [ match goal with
      | |- stable _ (fetch (generateResponse _ ?payload) ≫= _) =>
          apply stable_fetch_bind; [typeclasses eauto|];
          let g := fresh "g" in let Hg := fresh "Hg" in
          intros g Hg; specialize (Hno payload); rewrite Hg in Hno; rewrite Hno
      end
    | stable_step ].
Qed.


Lemma transcribeBody_noText_throws fuel now remote audioFile mimeType :
  noText remote -> throws (transcribeBody fuel now remote audioFile mimeType).
Proof.
  intros Hno. unfold transcribeBody.
  apply throws_bind; [apply ends_fetch|intros uploadUrl].
  apply throws_bind; [repeat ends_step|intros _].
  apply throws_bind; [apply ends_fetch|intros uploadData].
  apply throws_bind; [repeat ends_step|intros fileUri].
  apply throws_bind; [apply ends_modify|intros _].
  apply throws_bind; [apply ends_loadTemplateContent|intros templateContent].
  apply throws_bind; [apply ends_get|intros q].
  apply throws_bind; [apply ends_modify|intros _].
  match goal with |- throws (fetch (generateResponse _ ?payload) ≫= _) =>
    specialize (Hno payload); destruct (generateResponse remote payload) as [msg|g]
  end.
  - intros p'. eauto.
  - intros p'. unfold fetch. rewrite (bind_normal (mret g) _ p' g p' eq_refl).
    rewrite Hno. eauto.
Qed.

(** When no text comes back, nothing is placed: the vault, the active note,
    the notes opened and the transcript kept by the plugin are as before.
    With a readable audio file [transcribeRecording] still returns
    normally: the [try] block threw, and the message it threw is the last
    notice. *)
Theorem failed_generation_places_nothing fuel now remote audioFile p :
  noText remote ->
  let p' := snd (transcribeRecording fuel now remote audioFile p) in
  (vault p' = vault p /\ activeView p' = activeView p /\ opened p' = opened p /\
   transcript p' = transcript p) /\
  (isTFile (getAbstractFileByPath (vault p) (path audioFile)) = true ->
   fst (transcribeRecording fuel now remote audioFile p) = Normal tt /\
   exists message q q',
     transcribeBody fuel now remote audioFile (getMimeType audioFile) q = (Throw message, q') /\
     notices p' = notices q' ++ [message]).
Proof.
  intros Hno. cbn zeta. split.
  - assert (stable nothingPlaced (transcribeRecording fuel now remote audioFile)) as Hs.
    { unfold transcribeRecording, fallBackToNewNote, readBinary, Notice.
      repeat first [apply transcribeBody_noText; exact Hno | stable_step]. }
    apply (Hs p).
  - intros Hfile. unfold transcribeRecording.
    assert (exists q, fallBackToNewNote p = (Normal tt, q) /\ vault q = vault p) as (q & E & Hv).
    { unfold fallBackToNewNote. rewrite (bind_normal get _ p p p eq_refl).
      destruct (insertTranscriptLocation (settings p)), (activeView p); eauto. }
    rewrite (bind_normal _ _ _ _ _ E).
    rewrite (bind_normal (Notice _) _ q tt _ eq_refl).
    match goal with |- context [readBinary _ ≫= _] =>
      match goal with |- context [(_ ≫= _) ?s] => set (q1 := s) end
    end.
    assert (readBinary (path audioFile) q1 = (Normal tt, q1)) as Er.
    { unfold readBinary. rewrite (bind_normal get _ q1 q1 q1 eq_refl).
      change (vault q1) with (vault q). rewrite Hv.
      destruct (getAbstractFileByPath (vault p) (path audioFile)) as [[]|]; try discriminate.
      reflexivity. }
    rewrite (bind_normal _ _ _ _ _ Er).
    destruct (transcribeBody_noText_throws fuel now remote audioFile (getMimeType audioFile)
                Hno q1) as (msg & q' & Eb).
    unfold tryCatch. rewrite Eb. cbn. split; [reflexivity|]. eauto.
Qed.

End Growth.

(** ** The command that transcribes a linked recording *)


#[local] Instance busy_refl : Reflexive busy.
Proof. intros p _. repeat split. Qed.

#[local] Instance busy_trans : Transitive busy.
Proof.
  intros p1 p2 p3 H1 H2 Hw. specialize (H1 Hw).
  assert (writing p2 = true) as Hw2 by (destruct H1 as (_ & -> & _); exact Hw).
  specialize (H2 Hw2). unfold onlyNotices in *.
  destruct H1 as (A1 & A2 & A3 & A4 & A5 & A6 & A7 & A8 & A9).
  destruct H2 as (B1 & B2 & B3 & B4 & B5 & B6 & B7 & B8 & B9).
  repeat split; congruence.
Qed.

Section Command.
Context `{Host}.

Lemma Notice_busy msg : stable busy (Notice msg).
Proof. intros p _. repeat split. Qed.

Lemma generateFromLink_busy fuel now remote linked :
  stable busy (generateFromLink fuel now remote linked).
Proof.
  intros p Hw. unfold generateFromLink.
  rewrite (bind_normal get _ p p p eq_refl), Hw. repeat split.
Qed.

Lemma commandTranscribeAudio_busy fuel now remote :
  stable busy (commandTranscribeAudio fuel now remote).
Proof.
  unfold commandTranscribeAudio, commandGenerateTranscript, readBinary.
  repeat first [apply Notice_busy | apply generateFromLink_busy
               | apply (findFilePath_stable busy) | stable_step].
Qed.

(** [transcribeRecording] throws only when the audio file cannot be read. *)
Lemma transcribeRecording_readable fuel now remote audioFile p :
  isTFile (getAbstractFileByPath (vault p) (path audioFile)) = true ->
  forall message, fst (transcribeRecording fuel now remote audioFile p) <> Throw message.
Proof.
  intros Hfile message. unfold transcribeRecording.
  assert (exists q, fallBackToNewNote p = (Normal tt, q) /\ vault q = vault p) as (q & E & Hv).
  { unfold fallBackToNewNote. rewrite (bind_normal get _ p p p eq_refl).
    destruct (insertTranscriptLocation (settings p)), (activeView p); eauto. }
  rewrite (bind_normal _ _ _ _ _ E).
  rewrite (bind_normal (Notice _) _ q tt _ eq_refl).
  match goal with |- context [readBinary _ ≫= _] =>
    match goal with |- context [(_ ≫= _) ?s] => set (q1 := s) end
  end.
  assert (readBinary (path audioFile) q1 = (Normal tt, q1)) as Er.
  { unfold readBinary. rewrite (bind_normal get _ q1 q1 q1 eq_refl).
    change (vault q1) with (vault q). rewrite Hv.
    destruct (getAbstractFileByPath (vault p) (path audioFile)) as [[]|]; try discriminate.
    reflexivity. }
  rewrite (bind_normal _ _ _ _ _ Er).
  unfold tryCatch. destruct (transcribeBody _ _ _ _ _ q1) as [[| |] q']; cbn; discriminate.
Qed.

Lemma generateFromLink_releases fuel now remote linked p :
  writing p = false ->
  isTFile (getAbstractFileByPath (vault p) linked) = true ->
  match generateFromLink fuel now remote linked p with
  | (Normal _, p') => writing p' = false
  | (Throw _, _) => False
  | (Hang, _) => True
  end.
Proof.
  intros Hw Hfile. unfold generateFromLink.
  rewrite (bind_normal get _ p p p eq_refl), Hw.
  rewrite (bind_normal (modify _) _ p tt _ eq_refl).
  rewrite (bind_normal (Notice _) _ _ tt _ eq_refl).
  match goal with |- context [(get ≫= _) ?s] => set (q := s) end.
  rewrite (bind_normal get _ q q q eq_refl).
  change (vault q) with (vault p).
  destruct (getAbstractFileByPath (vault p) linked) as [[c|]|] eqn:E; try discriminate.
  pose proof (transcribeRecording_readable fuel now remote (tfileAt linked) q) as Hr.
  change (vault q) with (vault p) in Hr. change (path (tfileAt linked)) with linked in Hr.
  rewrite E in Hr. specialize (Hr eq_refl).
  unfold mbind, Async_bind.
  destruct (transcribeRecording fuel now remote (tfileAt linked) q) as [[[]|msg|] q'];
    cbn; [reflexivity| |exact I].
  apply (Hr msg). reflexivity.
Qed.

Lemma commandGenerateTranscript_releases fuel now remote editor p :
  writing p = false ->
  match commandGenerateTranscript fuel now remote editor p with
  | (Normal _, p') => writing p' = false
  | (Throw _, _) => False
  | (Hang, _) => True
  end.
Proof.
  intros Hw. unfold commandGenerateTranscript.
  set (text := getRange editor (cursorHead editor)).
  destruct (findFilePath_outcome text regex p) as [Hs Ho].
  destruct (findFilePath text regex p) as [[linked|msg|] p0] eqn:E; cbn in Hs, Ho; subst p0;
    [| |contradiction].
  - unfold tryCatch at 1. rewrite (bind_normal _ _ _ _ _ E).
    destruct (negb (Js.truthy (Js.afterLast "." linked))); [exact Hw|].
    unfold tryCatch. rewrite (bind_normal get _ p p p eq_refl), Ho.
    rewrite (bind_normal (mret tt) _ p tt p eq_refl).
    unfold readBinary at 1. unfold mbind at 1. unfold Async_bind at 1.
    rewrite (bind_normal get _ p p p eq_refl).
    destruct (getAbstractFileByPath (vault p) linked) as [[c|]|] eqn:Ef; try exact Hw.
    change ((mret tt : Async unit) p) with ((Normal tt, p) : Completion unit * Plugin).
    cbv iota beta.
    pose proof (generateFromLink_releases fuel now remote linked p Hw) as Hg.
    rewrite Ef in Hg. specialize (Hg eq_refl).
    destruct (generateFromLink fuel now remote linked p) as [[[]|m|] q]; try exact Hg.
    contradiction.
  - unfold tryCatch, mbind, Async_bind. rewrite E. exact Hw.
Qed.

(** The command "Transcribe Audio".  It never throws: what goes wrong is
    shown in a notice, or ends the command silently.  While a transcription
    is in progress ([writing] is set) the command changes nothing but the
    notices: no request is made, no note is written.  Otherwise, whenever
    the command returns, [writing] is cleared again, whether the
    transcription succeeded or failed. *)
Theorem command_guards_with_the_writing_flag fuel now remote p :
  let r := commandTranscribeAudio fuel now remote p in
  (forall message, fst r <> Throw message) /\
  (writing p = true -> onlyNotices p (snd r)) /\
  (writing p = false -> fst r = Normal tt -> writing (snd r) = false).
Proof.
  cbn zeta. split; [|split].
  - intros message. unfold commandTranscribeAudio.
    rewrite (bind_normal get _ p p p eq_refl).
    destruct (activeView p) as [editor|]; [|discriminate].
    unfold commandGenerateTranscript. unfold tryCatch at 1.
    match goal with |- context [(?c ≫= ?k) p] => destruct ((c ≫= k) p) as [[| |] q] end;
      discriminate.
  - apply (commandTranscribeAudio_busy fuel now remote p).
  - intros Hw. unfold commandTranscribeAudio.
    rewrite (bind_normal get _ p p p eq_refl).
    destruct (activeView p) as [editor|]; [|intros _; exact Hw].
    pose proof (commandGenerateTranscript_releases fuel now remote editor p Hw) as Hc.
    destruct (commandGenerateTranscript fuel now remote editor p) as [[[]|m|] q];
      cbn; intros Hn; try discriminate. exact Hc.
Qed.

End Command.

(** ** Settings *)

(** ** Trimming *)

Lemma trimStart_head s :
  match Js.trimStart s with
  | String c _ => Js.isWhiteSpace c = false
  | EmptyString => True
  end.
Proof.
  induction s as [|c s IH]; cbn [Js.trimStart]; [exact I|].
  destruct (Js.isWhiteSpace c) eqn:E; [exact IH|exact E].
Qed.

Lemma trimEnd_cons c s :
  Js.trimEnd (String c s) =
  match Js.trimEnd s with
  | EmptyString => if Js.isWhiteSpace c then EmptyString else String c EmptyString
  | t => String c t
  end.
Proof. reflexivity. Qed.

Lemma trimEnd_fix s : Js.trimEnd (Js.trimEnd s) = Js.trimEnd s.
Proof.
  induction s as [|c s IH]; [reflexivity|]. rewrite trimEnd_cons.
  destruct (Js.trimEnd s) as [|d t] eqn:E.
  - destruct (Js.isWhiteSpace c) eqn:Ec; [reflexivity|].
    rewrite trimEnd_cons. cbn [Js.trimEnd]. rewrite Ec. reflexivity.
  - rewrite trimEnd_cons, IH. reflexivity.
Qed.

Lemma trimEnd_head c s :
  Js.isWhiteSpace c = false -> exists t, Js.trimEnd (String c s) = String c t.
Proof.
  intros Hc. rewrite trimEnd_cons. destruct (Js.trimEnd s); [rewrite Hc|]; eauto.
Qed.

Lemma trim_fix s : Js.trim (Js.trim s) = Js.trim s.
Proof.
  unfold Js.trim. pose proof (trimStart_head s) as Hh.
  destruct (Js.trimStart s) as [|c t] eqn:E; [reflexivity|].
  destruct (trimEnd_head c t Hh) as [u Hu]. rewrite Hu.
  cbn [Js.trimStart]. rewrite Hh, <- Hu. apply trimEnd_fix.
Qed.

(** ** Settings *)

(** What [saveSettings] stores, [loadSettings] restores, whatever the
    settings are and whatever is in memory when they are loaded; with
    nothing stored, [loadSettings] gives the defaults; and with a stored
    object, every one of the nine settings is the stored value when the
    object has the key and the default when it lacks it, so that an object
    written by an earlier version is completed and, once saved, loads as
    the same settings. *)
Theorem settings_round_trip (p : Plugin) :
  let saved := snd (saveSettings p) in
  (forall q, settings (snd (loadSettings (stored <$> data saved) q)) = settings p) /\
  (forall q, settings (snd (loadSettings None q)) = DEFAULT_SETTINGS) /\
  (forall q o,
     let s := settings (snd (loadSettings (Some o) q)) in
     model s = default (model DEFAULT_SETTINGS) (storedModel o) /\
     apiKey s = default (apiKey DEFAULT_SETTINGS) (storedApiKey o) /\
     prompt s = default (prompt DEFAULT_SETTINGS) (storedPrompt o) /\
     defaultNoteFolder s =
       default (defaultNoteFolder DEFAULT_SETTINGS) (storedDefaultNoteFolder o) /\
     recordingFilePath s =
       default (recordingFilePath DEFAULT_SETTINGS) (storedRecordingFilePath o) /\
     keepAudio s = default (keepAudio DEFAULT_SETTINGS) (storedKeepAudio o) /\
     includeAudioFileLink s =
       default (includeAudioFileLink DEFAULT_SETTINGS) (storedIncludeAudioFileLink o) /\
     insertTranscriptLocation s =
       default (insertTranscriptLocation DEFAULT_SETTINGS)
         (storedInsertTranscriptLocation o) /\
     templateFilePath s =
       default (templateFilePath DEFAULT_SETTINGS) (storedTemplateFilePath o)) /\
  (forall q q' o,
     let first := snd (loadSettings (Some o) q) in
     settings (snd (loadSettings (stored <$> data (snd (saveSettings first))) q'))
     = settings first).
Proof.
  cbn zeta. split; [|split; [|split]].
  - intros q. cbn. destruct (settings p); reflexivity.
  - reflexivity.
  - intros q o. cbn. repeat split; reflexivity.
  - intros q q' o. cbn. reflexivity.
Qed.

Lemma onChange_eq c p :
  onChange c p =
  (Normal tt, set_data (Some (applyChange c (settings p)))
                (set_settings (applyChange c (settings p)) p)).
Proof. reflexivity. Qed.

Lemma onChanges_stored cs : forall p,
  cs <> [] ->
  exists p', onChanges cs p = (Normal tt, p') /\
    data p' = Some (settings p') /\
    settings p' = fold_left (fun s c => applyChange c s) cs (settings p) /\
    vault p' = vault p /\ notices p' = notices p /\ requests p' = requests p /\
    activeView p' = activeView p /\ writing p' = writing p.
Proof.
  induction cs as [|c cs IH]; intros p Hne; [contradiction|].
  cbn [onChanges fold_left]. rewrite (bind_normal _ _ _ _ _ (onChange_eq c p)).
  destruct cs as [|c' cs].
  - eexists. split; [reflexivity|]. repeat split.
  - destruct (IH (set_data (Some (applyChange c (settings p)))
                    (set_settings (applyChange c (settings p)) p)) ltac:(discriminate))
      as (p' & E & H1 & H2 & H3 & H4 & H5 & H6 & H7).
    exists p'. split; [exact E|]. repeat split; assumption.
Qed.

Lemma applyChange_trimmed c s :
  Js.trim (defaultNoteFolder s) = defaultNoteFolder s ->
  Js.trim (defaultNoteFolder (applyChange c s)) = defaultNoteFolder (applyChange c s).
Proof. destruct c; cbn; auto. intros _. apply trim_fix. Qed.

Lemma changes_trimmed cs : forall s,
  Js.trim (defaultNoteFolder s) = defaultNoteFolder s ->
  Js.trim (defaultNoteFolder (fold_left (fun s c => applyChange c s) cs s)) =
  defaultNoteFolder (fold_left (fun s c => applyChange c s) cs s).
Proof.
  induction cs as [|c cs IH]; intros s Hs; [exact Hs|].
  cbn [fold_left]. apply IH, applyChange_trimmed, Hs.
Qed.

Lemma changes_trim_folder cs : forall s value,
  In (ChangeDefaultNoteFolder value) cs ->
  Js.trim (defaultNoteFolder (fold_left (fun s c => applyChange c s) cs s)) =
  defaultNoteFolder (fold_left (fun s c => applyChange c s) cs s).
Proof.
  induction cs as [|c cs IH]; intros s value Hin; [contradiction|].
  cbn [fold_left]. destruct Hin as [->|Hin]; [|apply (IH _ value Hin)].
  apply changes_trimmed. cbn. apply trim_fix.
Qed.

(** Every change made in the settings tab is stored at once: after any
    changes the stored data are the settings in memory, whatever those held
    before (a placement preference switched by a fallback is stored with
    them).  Nothing else is touched.  The default note folder is stored
    trimmed, so the trimming [transcribeRecording] applies to it changes
    nothing. *)
Theorem setting_changes_are_stored (cs : list SettingChange) (p : Plugin) :
  cs <> [] ->
  let r := onChanges cs p in
  fst r = Normal tt /\
  data (snd r) = Some (settings (snd r)) /\
  settings (snd r) = fold_left (fun s c => applyChange c s) cs (settings p) /\
  (vault (snd r) = vault p /\ notices (snd r) = notices p /\
   requests (snd r) = requests p /\ activeView (snd r) = activeView p) /\
  (Js.trim (defaultNoteFolder (settings p)) = defaultNoteFolder (settings p) ->
   Js.trim (defaultNoteFolder (settings (snd r))) = defaultNoteFolder (settings (snd r))) /\
  (forall value, In (ChangeDefaultNoteFolder value) cs ->
   Js.trim (defaultNoteFolder (settings (snd r))) = defaultNoteFolder (settings (snd r))).
Proof.
  intros Hne. cbn zeta.
  destruct (onChanges_stored cs p Hne) as (p' & E & H1 & H2 & H3 & H4 & H5 & H6 & H7).
  rewrite E. cbn [fst snd]. split; [reflexivity|]. split; [exact H1|]. split; [exact H2|].
  split; [auto|]. rewrite H2. split.
  - apply changes_trimmed.
  - intros value. apply changes_trim_folder.
Qed.

(** ** Saving the recording *)

#[local] Instance choicesKept_refl : Reflexive choicesKept.
Proof. intros p. split; [reflexivity|left; reflexivity]. Qed.

#[local] Instance choicesKept_trans : Transitive choicesKept.
Proof.
  intros p1 p2 p3 [A1 A2] [B1 B2]. split; [congruence|].
  destruct A2 as [A2|A2], B2 as [B2|B2]; rewrite B2, A2; auto.
Qed.

Ltac choices_step :=
  first
    [ apply stable_modify; intros ?;
      (split; [reflexivity|first [left; reflexivity|right; reflexivity]])
    | stable_step ].

Lemma bind_throw {A B} (m : Async A) (f : A -> Async B) p message p' :
  m p = (Throw message, p') -> (m ≫= f) p = (Throw message, p').
Proof. intros E. unfold mbind, Async_bind. rewrite E. reflexivity. Qed.

Lemma bind_hang {A B} (m : Async A) (f : A -> Async B) p p' :
  m p = (Hang, p') -> (m ≫= f) p = (Hang, p').
Proof. intros E. unfold mbind, Async_bind. rewrite E. reflexivity. Qed.

Lemma In_delete (v : Vault) x e : In e (delete v x) <-> In e v /\ fst e <> x.
Proof.
  unfold delete. rewrite filter_In. split; intros [H1 H2]; split; try exact H1.
  - intros E. rewrite E, String.eqb_refl in H2. discriminate.
  - destruct (String.eqb_spec (fst e) x); [contradiction|reflexivity].
Qed.

Lemma present_delete (v : Vault) x : present (delete v x) x = false.
Proof.
  unfold present, getAbstractFileByPath.
  destruct (List.find _ (delete v x)) as [e|] eqn:E; [|reflexivity].
  apply find_some in E as [Hin He]. apply In_delete in Hin as [_ Hne].
  apply String.eqb_eq in He. contradiction.
Qed.

Section RecordingFacts.
Context `{Host}.

Lemma untilFree_ext taken taken' next : forall fuel count name,
  (forall n, taken n = taken' n) ->
  untilFree taken next fuel count name = untilFree taken' next fuel count name.
Proof.
  induction fuel as [|fuel IH]; intros count name E; cbn [untilFree]; rewrite E; [reflexivity|].
  destruct (taken' name); [apply IH, E|reflexivity].
Qed.

(** [handleAudioRecording] up to the point where the recording is saved
    and the settings are stored. *)
Lemma handleAudioRecording_saved fuel now later remote blob transcribe keep incl p
    fileName v file :
  chosenRecordingName fuel now p = Some fileName ->
  saveFile (vault p) blob fileName (recordingFilePath (settings p)) = Some (v, file) ->
  handleAudioRecording fuel now later remote (Some blob) transcribe keep incl p =
  tryCatch (afterSaving fuel later remote file transcribe keep incl)
           (fun _ => Notice "Failed to handle audio recording")
           (saved v keep incl p).
Proof.
  intros Hname Hsave. unfold handleAudioRecording, tryCatch.
  rewrite (bind_normal get _ p p p eq_refl).
  unfold chosenRecordingName in Hname.
  match goal with |- context [(?c ≫= ?k) p] =>
    assert (c p = (Normal fileName, p)) as E
  end.
  { destruct (Js.truthy (Js.trim (recordingFilePath (settings p)))); unfold loopUntilFree;
      rewrite Hname; reflexivity. }
  rewrite (bind_normal _ _ _ _ _ E). rewrite Hsave.
  reflexivity.
Qed.

Lemma handleAudioRecording_unsaved fuel now later remote blob transcribe keep incl p fileName :
  chosenRecordingName fuel now p = Some fileName ->
  saveFile (vault p) blob fileName (recordingFilePath (settings p)) = None ->
  handleAudioRecording fuel now later remote (Some blob) transcribe keep incl p =
  (Normal tt, set_notices (notices p ++ ["Failed to handle audio recording"]) p).
Proof.
  intros Hname Hsave. unfold handleAudioRecording, tryCatch.
  rewrite (bind_normal get _ p p p eq_refl).
  unfold chosenRecordingName in Hname.
  match goal with |- context [(?c ≫= ?k) p] =>
    assert (c p = (Normal fileName, p)) as E
  end.
  { destruct (Js.truthy (Js.trim (recordingFilePath (settings p)))); unfold loopUntilFree;
      rewrite Hname; reflexivity. }
  rewrite (bind_normal _ _ _ _ _ E). rewrite Hsave.
  reflexivity.
Qed.

(** Without audio nothing happens at all; and when the recording cannot be
    saved, one notice is shown and everything else is as before: the
    choices of the modal are not stored and nothing is transcribed, even
    when "Transcribe" was pressed. *)
Theorem nothing_saved_nothing_done fuel now later remote transcribe keep incl p :
  handleAudioRecording fuel now later remote None transcribe keep incl p = (Normal tt, p) /\
  forall blob fileName,
    chosenRecordingName fuel now p = Some fileName ->
    saveFile (vault p) blob fileName (recordingFilePath (settings p)) = None ->
    let r := handleAudioRecording fuel now later remote (Some blob) transcribe keep incl p in
    fst r = Normal tt /\
    notices (snd r) = notices p ++ ["Failed to handle audio recording"] /\
    onlyNotices p (snd r).
Proof.
  split; [reflexivity|]. intros blob fileName Hname Hsave. cbn zeta.
  rewrite (handleAudioRecording_unsaved _ _ _ _ _ _ _ _ _ _ Hname Hsave).
  repeat split.
Qed.

(** The stop square only saves.  With [transcribe] off and the recording
    saved, no request is made and no note is written; the vault is as
    [saveFile] left it.  The embed of the recording is inserted at the
    cursor when both choices are on and inline placement is configured; if
    then no note is open, a notice says so. *)
Theorem stop_square_only_saves fuel now later remote blob keep incl p fileName v file :
  chosenRecordingName fuel now p = Some fileName ->
  saveFile (vault p) blob fileName (recordingFilePath (settings p)) = Some (v, file) ->
  let r := handleAudioRecording fuel now later remote (Some blob) false keep incl p in
  let linking := incl && keep &&
                 match insertTranscriptLocation (settings p) with
                 | inline => true
                 | newNote => false
                 end in
  fst r = Normal tt /\
  requests (snd r) = requests p /\ vault (snd r) = v /\
  opened (snd r) = opened p /\ transcript (snd r) = transcript p /\
  activeView (snd r) =
    (if linking
     then (fun editor => replaceRange ("![[" +:+ path file +:+ "]]") (cursorHead editor) editor)
            <$> activeView p
     else activeView p) /\
  notices (snd r) =
    notices p ++
    match linking, activeView p with
    | true, None => ["No active editor found. Audio file link not inserted."]
    | _, _ => []
    end.
Proof.
  intros Hname Hsave. cbn zeta.
  rewrite (handleAudioRecording_saved _ _ _ _ _ _ _ _ _ _ _ _ Hname Hsave).
  unfold tryCatch, afterSaving.
  rewrite (bind_normal get _ _ _ _ eq_refl).
  change (insertTranscriptLocation (settings (saved v keep incl p)))
    with (insertTranscriptLocation (settings p)).
  change (activeView (saved v keep incl p)) with (activeView p).
  destruct (incl && keep && _) eqn:El; [destruct (activeView p) as [editor|] eqn:Ev|];
    unfold_async; cbn; rewrite ?app_nil_r, ?Ev; repeat split; reflexivity.
Qed.

Lemma transcribeRecording_choicesKept fuel now remote audioFile :
  stable choicesKept (transcribeRecording fuel now remote audioFile).
Proof.
  unfold transcribeRecording, fallBackToNewNote, readBinary, transcribeBody, placeInline,
    placeInNewNote, loadTemplateContent, Notice.
  repeat choices_step.
Qed.

Lemma afterSaving_choicesKept fuel later remote file transcribe keep incl :
  stable choicesKept (afterSaving fuel later remote file transcribe keep incl).
Proof.
  unfold afterSaving, cleanup, Notice.
  repeat first [apply transcribeRecording_choicesKept | choices_step].
Qed.

(** Once the recording is saved, the two choices made in the modal are the
    stored defaults, whatever happens afterwards (a failed transcription, a
    fallback to a new note, the cleanup): the stored data are the settings
    with "keep audio" and "include link" as chosen, and the settings in
    memory differ from them at most in the placement preference. *)
Theorem choices_of_the_modal_are_stored fuel now later remote blob transcribe keep incl p
    fileName v file :
  chosenRecordingName fuel now p = Some fileName ->
  saveFile (vault p) blob fileName (recordingFilePath (settings p)) = Some (v, file) ->
  let p' := snd (handleAudioRecording fuel now later remote (Some blob)
                   transcribe keep incl p) in
  let chosen := set_includeAudioFileLink incl (set_keepAudio keep (settings p)) in
  data p' = Some chosen /\
  keepAudio (settings p') = keep /\ includeAudioFileLink (settings p') = incl /\
  (settings p' = chosen \/ settings p' = set_insertTranscriptLocation newNote chosen).
Proof.
  intros Hname Hsave. cbn zeta.
  rewrite (handleAudioRecording_saved _ _ _ _ _ _ _ _ _ _ _ _ Hname Hsave).
  assert (stable choicesKept
            (tryCatch (afterSaving fuel later remote file transcribe keep incl)
                      (fun _ => Notice "Failed to handle audio recording"))) as Hs.
  { unfold Notice. repeat first [apply afterSaving_choicesKept | choices_step]. }
  destruct (Hs (saved v keep incl p)) as [Hd Hset].
  match goal with |- context [snd ?r] => set (p' := snd r) in * end.
  change (data (saved v keep incl p))
    with (Some (set_includeAudioFileLink incl (set_keepAudio keep (settings p)))) in Hd.
  change (settings (saved v keep incl p))
    with (set_includeAudioFileLink incl (set_keepAudio keep (settings p))) in Hset.
  split; [exact Hd|].
  destruct Hset as [->| ->]; cbn; auto.
Qed.

Lemma children_nil (v : Vault) f e :
  children v f = [] -> In e v -> isChildOf f (fst e) = false.
Proof.
  unfold children. intros Hc Hin.
  destruct (isChildOf f (fst e)) eqn:E; [|reflexivity].
  assert (In e (List.filter (fun e => isChildOf f (fst e)) v)) as Hf
    by (apply filter_In; auto).
  rewrite Hc in Hf. contradiction.
Qed.

Lemma cleanup_cases file q :
  let f := recordingFilePath (settings q) in
  let v1 := delete (vault q) (path file) in
  (cleanup file q = (Normal tt, set_vault v1 q) /\
   (isTAbstractFile (getAbstractFileByPath v1 f) = false \/ children v1 f <> [])) \/
  (cleanup file q = (Normal tt, set_vault (delete v1 f) q) /\ children v1 f = []) \/
  cleanup file q =
    (Throw "Cannot read properties of undefined (reading 'length')", set_vault v1 q).
Proof.
  cbn zeta. unfold cleanup.
  rewrite (bind_normal (modify _) _ q tt _ eq_refl).
  match goal with |- context [(get ≫= _) ?s] => set (q1 := s) end.
  rewrite (bind_normal get _ q1 q1 q1 eq_refl).
  change (settings q1) with (settings q).
  change (vault q1) with (delete (vault q) (path file)).
  destruct (getAbstractFileByPath _ (recordingFilePath (settings q))) as [[c|]|] eqn:Ef.
  - right. right. reflexivity.
  - destruct (length (children _ _) =? 0) eqn:Ec.
    + right. left. apply Nat.eqb_eq, length_zero_iff_nil in Ec. split; [reflexivity|exact Ec].
    + left. split; [reflexivity|]. right. intros E. rewrite E in Ec. discriminate.
  - left. split; [reflexivity|]. left. reflexivity.
Qed.

(** The cleanup of [handleAudioRecording], with "keep audio" off and
    "Transcribe" pressed, removes nothing but the new recording and the
    recording folder: every other entry stays.  The folder goes only when
    nothing is left directly in it: if another entry lies directly in the
    folder, only the recording is removed.  And when the call returns
    without the notice of a failure, the recording is gone. *)
Theorem cleanup_removes_only_the_recording fuel now later remote blob incl p
    fileName v file :
  chosenRecordingName fuel now p = Some fileName ->
  saveFile (vault p) blob fileName (recordingFilePath (settings p)) = Some (v, file) ->
  let r := handleAudioRecording fuel now later remote (Some blob) true false incl p in
  let folder := recordingFilePath (settings p) in
  (forall e, In e v -> fst e <> path file -> fst e <> folder -> In e (vault (snd r))) /\
  ((exists sibling, In sibling v /\ isChildOf folder (fst sibling) = true /\
                    fst sibling <> path file) ->
   forall e, In e v -> fst e <> path file -> In e (vault (snd r))) /\
  (fst r = Normal tt ->
   present (vault (snd r)) (path file) = false \/
   last (notices (snd r)) = Some "Failed to handle audio recording").
Proof.
  intros Hname Hsave. cbn zeta.
  rewrite (handleAudioRecording_saved _ _ _ _ _ _ _ _ _ _ _ _ Hname Hsave).
  set (q := saved v false incl p).
  unfold tryCatch, afterSaving.
  rewrite (bind_normal get _ q q q eq_refl).
  rewrite andb_false_r. cbn [andb].
  rewrite (bind_normal (mret tt) _ q tt q eq_refl). cbn [negb].
  destruct (transcribeRecording_vaultGrows fuel later remote file q) as [added Hgrow].
  destruct (transcribeRecording_choicesKept fuel later remote file q) as [_ Hset].
  change (vault q) with v in Hgrow.
  assert (recordingFilePath (settings (snd (transcribeRecording fuel later remote file q)))
          = recordingFilePath (settings p)) as Hfolder.
  { destruct Hset as [->| ->]; reflexivity. }
  destruct (transcribeRecording fuel later remote file q) as [[[]|msg|] q'] eqn:Et;
    cbn [fst snd] in *;
    [rewrite (bind_normal _ _ _ _ _ Et)|rewrite (bind_throw _ _ _ _ _ Et)
    |rewrite (bind_hang _ _ _ _ Et)].
  - pose proof (cleanup_cases file q') as Hc. cbn zeta in Hc.
    rewrite Hfolder, Hgrow in Hc.
    set (f := recordingFilePath (settings p)) in *.
    set (v1 := delete (v ++ added) (path file)) in *.
    assert (forall e, In e v -> fst e <> path file -> In e v1) as Hv1.
    { intros e Hin Hne. apply In_delete. split; [apply in_or_app; auto|exact Hne]. }
    assert (present v1 (path file) = false) as Hgone by apply present_delete.
    destruct Hc as [[-> _]|[[-> Hempty]| ->]]; cbn [fst snd vault set_vault].
    + split; [intros e Hin Hne _; apply Hv1; assumption|].
      split; [intros _ e Hin Hne; apply Hv1; assumption|]. intros _. left. exact Hgone.
    + split; [|split].
      * intros e Hin Hne Hnf. apply In_delete. split; [apply Hv1; assumption|exact Hnf].
      * intros (sib & Hin & Hchild & Hne). exfalso.
        pose proof (children_nil v1 f sib Hempty (Hv1 sib Hin Hne)) as Hc. congruence.
      * intros _. left. unfold present, getAbstractFileByPath.
        destruct (List.find _ (delete v1 f)) as [e|] eqn:E; [|reflexivity].
        apply find_some in E as [Hin He]. apply String.eqb_eq in He.
        apply In_delete in Hin as [Hin _]. apply In_delete in Hin as [_ Hne]. contradiction.
    + unfold Notice, modify. cbn [fst snd vault set_vault set_notices notices].
      split; [intros e Hin Hne _; apply Hv1; assumption|].
      split; [intros _ e Hin Hne; apply Hv1; assumption|].
      intros _. right. rewrite last_snoc. reflexivity.
  - unfold Notice, modify. cbn [fst snd vault set_vault set_notices notices]. rewrite Hgrow.
    split; [intros e Hin _ _; apply in_or_app; auto|].
    split; [intros _ e Hin _; apply in_or_app; auto|].
    intros _. right. rewrite last_snoc. reflexivity.
  - cbn [fst snd]. rewrite Hgrow.
    split; [intros e Hin _ _; apply in_or_app; auto|].
    split; [intros _ e Hin _; apply in_or_app; auto|]. discriminate.
Qed.

End RecordingFacts.

(** ** Errors that escape *)

Section Escapes.
Context `{Host}.

Lemma transcribeRecording_unreadable fuel now remote audioFile p :
  isTFile (getAbstractFileByPath (vault p) (path audioFile)) = false ->
  exists message p',
    transcribeRecording fuel now remote audioFile p = (Throw message, p') /\
    vault p' = vault p /\ requests p' = requests p /\ activeView p' = activeView p /\
    opened p' = opened p.
Proof.
  intros Hfile. unfold transcribeRecording.
  assert (exists q, fallBackToNewNote p = (Normal tt, q) /\ vault q = vault p /\
            requests q = requests p /\ activeView q = activeView p /\ opened q = opened p)
    as (q & E & Hv & Hr & Ha & Ho).
  { unfold fallBackToNewNote. rewrite (bind_normal get _ p p p eq_refl).
    destruct (insertTranscriptLocation (settings p)), (activeView p) eqn:Ev;
      (eexists; split; [reflexivity|]); cbn; rewrite ?Ev; auto. }
  rewrite (bind_normal _ _ _ _ _ E).
  rewrite (bind_normal (Notice _) _ q tt _ eq_refl).
  match goal with |- context [(_ ≫= _) ?s] => set (q1 := s) end.
  assert (exists message, readBinary (path audioFile) q1 = (Throw message, q1)) as [msg Er].
  { unfold readBinary. rewrite (bind_normal get _ q1 q1 q1 eq_refl).
    change (vault q1) with (vault q). rewrite Hv.
    destruct (getAbstractFileByPath (vault p) (path audioFile)) as [[]|]; try discriminate;
      eexists; reflexivity. }
  rewrite (bind_throw _ _ _ _ _ Er). exists msg, q1. split; [reflexivity|].
  repeat split; assumption.
Qed.

(** The audio file is read before the [try] block of
    [transcribeRecording]: an error escapes [transcribeRecording] exactly
    when the audio file is not a readable file of the vault, and then
    nothing was requested or placed.  Every other failure is caught and
    shown.  [handleAudioRecording] lets no error escape at all. *)
Theorem errors_escape_only_from_an_unreadable_file fuel now later remote audioFile p :
  let r := transcribeRecording fuel now remote audioFile p in
  ((exists message, fst r = Throw message) <->
   isTFile (getAbstractFileByPath (vault p) (path audioFile)) = false) /\
  (isTFile (getAbstractFileByPath (vault p) (path audioFile)) = false ->
   vault (snd r) = vault p /\ requests (snd r) = requests p /\
   activeView (snd r) = activeView p /\ opened (snd r) = opened p) /\
  (forall blob transcribe keep incl message,
     fst (handleAudioRecording fuel now later remote blob transcribe keep incl p)
     <> Throw message).
Proof.
  cbn zeta. split; [split|split].
  - intros [message Hm].
    destruct (isTFile (getAbstractFileByPath (vault p) (path audioFile))) eqn:E; [|reflexivity].
    exfalso. exact (transcribeRecording_readable fuel now remote audioFile p E message Hm).
  - intros Hfile.
    destruct (transcribeRecording_unreadable fuel now remote audioFile p Hfile)
      as (message & p' & E & _). exists message. rewrite E. reflexivity.
  - intros Hfile.
    destruct (transcribeRecording_unreadable fuel now remote audioFile p Hfile)
      as (message & p' & E & H1 & H2 & H3 & H4). rewrite E. auto.
  - intros blob transcribe keep incl message. unfold handleAudioRecording, tryCatch.
    match goal with |- context [match ?c p with _ => _ end] =>
      destruct (c p) as [[| |] q] end; discriminate.
Qed.

End Escapes.

(** ** From the request to the note *)

#[local] Instance sameTranscript_refl : Reflexive sameTranscript.
Proof. intros p. reflexivity. Qed.

#[local] Instance sameTranscript_trans : Transitive sameTranscript.
Proof. intros p1 p2 p3 H1 H2. unfold sameTranscript in *. congruence. Qed.

Section HappyPath.
Context `{Host}.

Lemma tryCatch_normal {A} (body : Async A) handler p a p' :
  body p = (Normal a, p') -> tryCatch body handler p = (Normal a, p').
Proof. intros E. unfold tryCatch. rewrite E. reflexivity. Qed.

Lemma tryCatch_throw {A} (body : Async A) handler p message p' :
  body p = (Throw message, p') -> tryCatch body handler p = handler message p'.
Proof. intros E. unfold tryCatch. rewrite E. reflexivity. Qed.

Lemma loadTemplateContent_same p q :
  templateFilePath (settings q) = templateFilePath (settings p) -> vault q = vault p ->
  exists t, loadTemplateContent p = (Normal t, p) /\ loadTemplateContent q = (Normal t, q).
Proof.
  intros Hs Hv. unfold loadTemplateContent.
  rewrite (bind_normal get _ p p p eq_refl), (bind_normal get _ q q q eq_refl).
  rewrite Hs, Hv.
  destruct (Js.truthy _ && _); [|eauto].
  destruct (getAbstractFileByPath _ _) as [[c|]|]; eauto.
Qed.

Lemma fallBackToNewNote_returns p :
  fallBackToNewNote p = (Normal tt, snd (fallBackToNewNote p)) /\
  vault (snd (fallBackToNewNote p)) = vault p /\
  model (settings (snd (fallBackToNewNote p))) = model (settings p) /\
  prompt (settings (snd (fallBackToNewNote p))) = prompt (settings p) /\
  templateFilePath (settings (snd (fallBackToNewNote p))) = templateFilePath (settings p).
Proof.
  unfold fallBackToNewNote. rewrite (bind_normal get _ p p p eq_refl).
  destruct (insertTranscriptLocation (settings p)), (activeView p); repeat split; reflexivity.
Qed.

(** The step of the new-note branch that makes the default folder. *)
Lemma defaultFolder_step q :
  match noteFolder q with
  | DefaultFolder defaultFolder =>
      if present (vault q) defaultFolder then mret tt
      else
        tryCatch (createFolder defaultFolder)
          (fun _ => Notice ("Failed to create folder: " +:+ defaultFolder
                            +:+ ". Using vault root instead."))
  | _ => mret tt
  end q =
  (Normal tt,
   mkPlugin (settings q) (writing q) (transcript q) (data q) (withDefaultFolder q)
     (activeView q) (activeFile q) (notices q ++ folderNotice q) (requests q) (opened q)).
Proof.
  unfold withDefaultFolder, folderNotice.
  destruct q as [s w t d v av af ns rs os].
  cbn [settings writing transcript data vault activeView activeFile notices requests opened].
  destruct (noteFolder _) as [folder|f|]; try (rewrite app_nil_r; reflexivity).
  destruct (present v folder) eqn:Ep; cbn [orb negb andb]; [rewrite app_nil_r; reflexivity|].
  unfold tryCatch, createFolder.
  match goal with |- context [(get ≫= ?f) ?q] => rewrite (bind_normal get f q q q eq_refl) end.
  cbn [vault]. rewrite Ep.
  destruct (underFile v folder); [reflexivity|]. rewrite app_nil_r. reflexivity.
Qed.

(** The new-note branch when the title loop ends and the note can be
    made. *)
Lemma placeInNewNote_created fuel now audioFile q title :
  let dest := noteFolder q in
  let notePath := notePathOf dest title in
  let content := transcriptContent (includeAudioFileLink (settings q)) audioFile
                   (transcript q) in
  finalTitle fuel (withDefaultFolder q) dest (isoDate now) (period (hours now)) = Some title ->
  present (withDefaultFolder q) notePath = false ->
  underFile (withDefaultFolder q) notePath = false ->
  placeInNewNote fuel now audioFile q =
    (Normal tt,
     mkPlugin (settings q) (writing q) (transcript q) (data q)
       (withDefaultFolder q ++ [(notePath, FileNode (Text content))])
       (viewAfterOpening notePath content (activeView q))
       (fileAfterOpening notePath content (activeFile q))
       (notices q ++ folderNotice q
          ++ ["Transcript generated in a new note: " +:+ title +:+ ".md"])
       (requests q) (opened q ++ [notePath])).
Proof.
  cbn zeta. intros Htitle Hfree Hroom. unfold placeInNewNote.
  rewrite (bind_normal get _ q q q eq_refl).
  rewrite (bind_normal _ _ _ _ _ (defaultFolder_step q)).
  match goal with |- context [(get ≫= ?f) ?s] =>
    set (q1 := s); rewrite (bind_normal get f q1 q1 q1 eq_refl) end.
  change (vault q1) with (withDefaultFolder q). rewrite Htitle.
  apply tryCatch_normal. unfold create.
  match goal with |- context [(get ≫= ?f)] => rewrite (bind_normal (get ≫= f) _ q1 tt
    (set_vault (withDefaultFolder q ++
                [(notePathOf (noteFolder q) title,
                  FileNode (Text (transcriptContent (includeAudioFileLink (settings q))
                                    audioFile (transcript q))))]) q1)) end.
  2:{ rewrite (bind_normal get _ q1 q1 q1 eq_refl).
      change (vault q1) with (withDefaultFolder q). rewrite Hfree, Hroom. reflexivity. }
  rewrite (bind_normal (Notice _) _ _ tt _ eq_refl).
  unfold openInNewLeaf, viewAfterOpening, fileAfterOpening.
  rewrite (bind_normal (modify _) _ _ tt _ eq_refl).
  unfold transcriptContent.
  destruct (openFile _ _) as [[editor folderPath]|]; cbn; rewrite <- ?app_assoc; reflexivity.
Qed.

(** The new-note branch when the note cannot be made: an entry is at its
    path, or a file lies above it. *)
Lemma placeInNewNote_refused fuel now audioFile q title :
  let dest := noteFolder q in
  let notePath := notePathOf dest title in
  finalTitle fuel (withDefaultFolder q) dest (isoDate now) (period (hours now)) = Some title ->
  present (withDefaultFolder q) notePath || underFile (withDefaultFolder q) notePath = true ->
  placeInNewNote fuel now audioFile q =
    (Normal tt,
     mkPlugin (settings q) (writing q) (transcript q) (data q) (withDefaultFolder q)
       (activeView q) (activeFile q)
       (notices q ++ folderNotice q ++ ["Failed to create new note for transcript."])
       (requests q) (opened q)).
Proof.
  cbn zeta. intros Htitle Hno. unfold placeInNewNote.
  rewrite (bind_normal get _ q q q eq_refl).
  rewrite (bind_normal _ _ _ _ _ (defaultFolder_step q)).
  match goal with |- context [(get ≫= ?f) ?s] =>
    set (q1 := s); rewrite (bind_normal get f q1 q1 q1 eq_refl) end.
  change (vault q1) with (withDefaultFolder q). rewrite Htitle.
  assert (exists message,
            create (notePathOf (noteFolder q) title)
              ((if includeAudioFileLink (settings q)
                then "![[" +:+ path audioFile +:+ "]]

"
                else "") +:+ transcript q) q1 = (Throw message, q1)) as [message Ec].
  { unfold create. rewrite (bind_normal get _ q1 q1 q1 eq_refl).
    change (vault q1) with (withDefaultFolder q).
    destruct (present (withDefaultFolder q) _); [eauto|].
    cbn [orb] in Hno. rewrite Hno. eauto. }
  rewrite (tryCatch_throw _ _ q1 message q1).
  - unfold Notice, modify, set_notices, q1.
    cbn [settings writing transcript data vault activeView activeFile notices requests opened].
    rewrite <- app_assoc. reflexivity.
  - rewrite (bind_throw _ _ _ _ _ Ec). reflexivity.
Qed.

(** With a readable audio file and an upload that gives a file URI,
    [transcribeRecording] makes the generation request. *)
Lemma pipeline_reaches_request fuel now remote audioFile p uploadUrl fileUri templateContent :
  isTFile (getAbstractFileByPath (vault p) (path audioFile)) = true ->
  initResponse remote = Response (Some uploadUrl) -> Js.truthy uploadUrl = true ->
  uploadResponse remote = Response (UploadedFile (Some fileUri)) -> Js.truthy fileUri = true ->
  fst (loadTemplateContent p) = Normal templateContent ->
  let payload := mkPayload (model (settings p))
                   (combinedPrompt (prompt (settings p)) templateContent)
                   (getMimeType audioFile) fileUri in
  let q := snd (fallBackToNewNote p) in
  transcribeRecording fuel now remote audioFile p =
    tryCatch
      (generateData ← fetch (generateResponse remote payload);
       match firstText generateData with
       | Some t =>
           modify (set_transcript t);;
           p ← get;
           match insertTranscriptLocation (settings p) with
           | inline => placeInline
           | newNote => placeInNewNote fuel now audioFile
           end
       | None => throw "No text returned from AI model."
       end)
      (fun message => Notice message) (atRequest payload q).
Proof.
  intros Hfile Hinit Hurl Hupload Huri Htempl payload q.
  destruct (fallBackToNewNote_returns p) as (Ef & Hv & Hm & Hp & Ht).
  fold q in Ef, Hv, Hm, Hp, Ht.
  unfold transcribeRecording.
  rewrite (bind_normal _ _ _ _ _ Ef).
  rewrite (bind_normal (Notice _) _ q tt _ eq_refl).
  match goal with |- context [(_ ≫= _) ?s] => set (p1 := s) end.
  assert (readBinary (path audioFile) p1 = (Normal tt, p1)) as Er.
  { unfold readBinary. rewrite (bind_normal get _ p1 p1 p1 eq_refl).
    change (vault p1) with (vault q). rewrite Hv.
    destruct (getAbstractFileByPath (vault p) (path audioFile)) as [[]|]; try discriminate.
    reflexivity. }
  rewrite (bind_normal _ _ _ _ _ Er).
  unfold tryCatch at 1 2. f_equal.
  unfold transcribeBody.
  rewrite Hinit.
  rewrite (bind_normal (fetch (Response (Some uploadUrl))) _ p1 (Some uploadUrl) p1 eq_refl).
  rewrite Hurl.
  rewrite (bind_normal (mret tt) _ p1 tt p1 eq_refl).
  rewrite Hupload.
  rewrite (bind_normal (fetch (Response (UploadedFile (Some fileUri)))) _ p1 _ p1 eq_refl).
  rewrite Huri.
  rewrite (bind_normal (mret fileUri) _ p1 _ p1 eq_refl).
  rewrite (bind_normal (Notice _) _ p1 tt _ eq_refl).
  match goal with |- context [(loadTemplateContent ≫= _) ?s] => set (p2 := s) end.
  assert (loadTemplateContent p2 = (Normal templateContent, p2)) as Et.
  { destruct (loadTemplateContent_same p p2 Ht Hv) as (t' & E1 & E2).
    rewrite E1 in Htempl. cbn in Htempl. injection Htempl as ->. exact E2. }
  rewrite (bind_normal _ _ _ _ _ Et).
  rewrite (bind_normal get _ p2 p2 p2 eq_refl).
  change (settings p2) with (settings q). rewrite Hm, Hp. fold payload.
  rewrite (bind_normal (modify _) _ p2 tt _ eq_refl).
  match goal with |- context [(fetch _ ≫= _) ?s] => assert (s = atRequest payload q) as -> end;
    [|reflexivity].
  unfold p2, p1, atRequest, set_requests, Notice, modify.
  cbn [settings writing transcript data vault activeView activeFile notices requests opened
       set_notices snd]. rewrite <- app_assoc. reflexivity.
Qed.

(** The request is made whatever the answer will be. *)
Lemma pipeline_makes_request fuel now remote audioFile p uploadUrl fileUri templateContent :
  isTFile (getAbstractFileByPath (vault p) (path audioFile)) = true ->
  initResponse remote = Response (Some uploadUrl) -> Js.truthy uploadUrl = true ->
  uploadResponse remote = Response (UploadedFile (Some fileUri)) -> Js.truthy fileUri = true ->
  fst (loadTemplateContent p) = Normal templateContent ->
  requests (snd (transcribeRecording fuel now remote audioFile p)) =
    requests p ++ [mkPayload (model (settings p))
                     (combinedPrompt (prompt (settings p)) templateContent)
                     (getMimeType audioFile) fileUri].
Proof.
  intros Hfile Hinit Hurl Hupload Huri Htempl.
  rewrite (pipeline_reaches_request fuel now remote audioFile p uploadUrl fileUri
             templateContent Hfile Hinit Hurl Hupload Huri Htempl).
  match goal with |- requests (snd (tryCatch ?body ?handler ?s)) = _ =>
    assert (stable sameRequests (tryCatch body handler)) as Hs
  end.
  { repeat first [apply Notice_sameRequests | apply placeInline_sameRequests
                 | apply placeInNewNote_sameRequests | stable_step]. }
  rewrite (Hs _). unfold atRequest. cbn [requests].
  assert (requests (snd (fallBackToNewNote p)) = requests p) as ->; [|reflexivity].
  unfold fallBackToNewNote. rewrite (bind_normal get _ p p p eq_refl).
  destruct (insertTranscriptLocation (settings p)), (activeView p); reflexivity.
Qed.

(** With an answer that holds a text, it comes to the placement of the
    text. *)
Lemma pipeline_reaches_placement fuel now remote audioFile p
    uploadUrl fileUri templateContent generateData t :
  isTFile (getAbstractFileByPath (vault p) (path audioFile)) = true ->
  initResponse remote = Response (Some uploadUrl) -> Js.truthy uploadUrl = true ->
  uploadResponse remote = Response (UploadedFile (Some fileUri)) -> Js.truthy fileUri = true ->
  fst (loadTemplateContent p) = Normal templateContent ->
  let payload := mkPayload (model (settings p))
                   (combinedPrompt (prompt (settings p)) templateContent)
                   (getMimeType audioFile) fileUri in
  generateResponse remote payload = Response generateData ->
  firstText generateData = Some t ->
  let q := snd (fallBackToNewNote p) in
  transcribeRecording fuel now remote audioFile p =
    tryCatch
      match insertTranscriptLocation (settings q) with
      | inline => placeInline
      | newNote => placeInNewNote fuel now audioFile
      end
      (fun message => Notice message) (atPlacement payload t q).
Proof.
  intros Hfile Hinit Hurl Hupload Huri Htempl payload Hgen Htext q.
  rewrite (pipeline_reaches_request fuel now remote audioFile p uploadUrl fileUri
             templateContent Hfile Hinit Hurl Hupload Huri Htempl).
  fold payload q. unfold tryCatch at 1 2. f_equal.
  rewrite Hgen.
  rewrite (bind_normal (fetch (Response generateData)) _ (atRequest payload q) _ _ eq_refl).
  rewrite Htext.
  rewrite (bind_normal (modify _) _ (atRequest payload q) tt _ eq_refl).
  change (set_transcript t (atRequest payload q)) with (atPlacement payload t q).
  rewrite (bind_normal get _ _ _ _ eq_refl). reflexivity.
Qed.

(** The text the answer holds is the transcript the plugin keeps, however
    the placement ends. *)
Lemma pipeline_keeps_text fuel now remote audioFile p
    uploadUrl fileUri templateContent generateData t :
  isTFile (getAbstractFileByPath (vault p) (path audioFile)) = true ->
  initResponse remote = Response (Some uploadUrl) -> Js.truthy uploadUrl = true ->
  uploadResponse remote = Response (UploadedFile (Some fileUri)) -> Js.truthy fileUri = true ->
  fst (loadTemplateContent p) = Normal templateContent ->
  generateResponse remote
    (mkPayload (model (settings p)) (combinedPrompt (prompt (settings p)) templateContent)
       (getMimeType audioFile) fileUri) = Response generateData ->
  firstText generateData = Some t ->
  transcript (snd (transcribeRecording fuel now remote audioFile p)) = t.
Proof.
  intros Hfile Hinit Hurl Hupload Huri Htempl Hgen Htext.
  rewrite (pipeline_reaches_placement fuel now remote audioFile p uploadUrl fileUri
             templateContent generateData t Hfile Hinit Hurl Hupload Huri Htempl Hgen Htext).
  match goal with |- transcript (snd (tryCatch ?body ?handler ?s)) = _ =>
    assert (stable sameTranscript (tryCatch body handler)) as Hs
  end.
  { unfold placeInline, placeInNewNote, createFolder, create, openInNewLeaf, Notice.
    repeat stable_step. }
  rewrite (Hs _). reflexivity.
Qed.

(** The outcome of the new-note branch, whether newNote was configured or
    the fallback switched to it; [q] is the state the fallback leaves. *)
Lemma new_note_outcome fuel now remote audioFile p
    uploadUrl fileUri templateContent generateData t title :
  let q := snd (fallBackToNewNote p) in
  insertTranscriptLocation (settings q) = newNote ->
  isTFile (getAbstractFileByPath (vault p) (path audioFile)) = true ->
  initResponse remote = Response (Some uploadUrl) -> Js.truthy uploadUrl = true ->
  uploadResponse remote = Response (UploadedFile (Some fileUri)) -> Js.truthy fileUri = true ->
  fst (loadTemplateContent p) = Normal templateContent ->
  let payload := mkPayload (model (settings p))
                   (combinedPrompt (prompt (settings p)) templateContent)
                   (getMimeType audioFile) fileUri in
  generateResponse remote payload = Response generateData ->
  firstText generateData = Some t ->
  let dest := noteFolder q in
  let notePath := notePathOf dest title in
  let content := transcriptContent (includeAudioFileLink (settings q)) audioFile t in
  finalTitle fuel (withDefaultFolder q) dest (isoDate now) (period (hours now)) = Some title ->
  (present (withDefaultFolder q) notePath = false ->
   underFile (withDefaultFolder q) notePath = false ->
   transcribeRecording fuel now remote audioFile p =
     (Normal tt,
      mkPlugin (settings q) (writing q) t (data q)
        (withDefaultFolder q ++ [(notePath, FileNode (Text content))])
        (viewAfterOpening notePath content (activeView q))
        (fileAfterOpening notePath content (activeFile q))
        (notices q ++ ["Processing audio for transcription...";
                       "Audio uploaded. Generating transcript..."]
           ++ folderNotice q
           ++ ["Transcript generated in a new note: " +:+ title +:+ ".md"])
        (requests q ++ [payload])
        (opened q ++ [notePath]))) /\
  (present (withDefaultFolder q) notePath || underFile (withDefaultFolder q) notePath = true ->
   transcribeRecording fuel now remote audioFile p =
     (Normal tt,
      mkPlugin (settings q) (writing q) t (data q) (withDefaultFolder q)
        (activeView q) (activeFile q)
        (notices q ++ ["Processing audio for transcription...";
                       "Audio uploaded. Generating transcript..."]
           ++ folderNotice q
           ++ ["Failed to create new note for transcript."])
        (requests q ++ [payload])
        (opened q))).
Proof.
  intros q Hloc Hfile Hinit Hurl Hupload Huri Htempl payload Hgen Htext dest notePath content
    Htitle.
  rewrite (pipeline_reaches_placement fuel now remote audioFile p uploadUrl fileUri
             templateContent generateData t Hfile Hinit Hurl Hupload Huri Htempl Hgen Htext).
  fold payload q. rewrite Hloc. split.
  - intros Hfree Hroom. apply tryCatch_normal.
    rewrite (placeInNewNote_created fuel now audioFile (atPlacement payload t q) title
               Htitle Hfree Hroom).
    unfold atPlacement.
    cbn [settings writing transcript data vault activeView activeFile notices requests opened].
    fold dest notePath content. rewrite <- !app_assoc. reflexivity.
  - intros Hno. apply tryCatch_normal.
    rewrite (placeInNewNote_refused fuel now audioFile (atPlacement payload t q) title
               Htitle Hno).
    unfold atPlacement.
    cbn [settings writing transcript data vault activeView activeFile notices requests opened].
    rewrite <- !app_assoc. reflexivity.
Qed.

(** The outcome of [transcribeRecording] when a new note is configured,
    the audio file is read, the upload gives a file URI, the generation
    request (the prompt, with the template if there is one) is answered
    with a text and the title loop ends.  A default folder that is missing
    is created first, or a notice says that it cannot be.  When nothing is
    at the note path and no file lies above it, exactly one note is added:
    it holds the embed of the recording (when "include link" is on) and
    the text, it is opened in a new leaf, and the host decides whether it
    becomes the active note.  Otherwise no note is made and the last
    notice tells the failure; the text stays in [transcript] only.  In both
    cases one request was made and the settings are as before. *)
Theorem transcript_goes_to_a_new_note fuel now remote audioFile p
    uploadUrl fileUri templateContent generateData t title :
  insertTranscriptLocation (settings p) = newNote ->
  isTFile (getAbstractFileByPath (vault p) (path audioFile)) = true ->
  initResponse remote = Response (Some uploadUrl) -> Js.truthy uploadUrl = true ->
  uploadResponse remote = Response (UploadedFile (Some fileUri)) -> Js.truthy fileUri = true ->
  fst (loadTemplateContent p) = Normal templateContent ->
  let payload := mkPayload (model (settings p))
                   (combinedPrompt (prompt (settings p)) templateContent)
                   (getMimeType audioFile) fileUri in
  generateResponse remote payload = Response generateData ->
  firstText generateData = Some t ->
  let dest := noteFolder p in
  let notePath := notePathOf dest title in
  let content := transcriptContent (includeAudioFileLink (settings p)) audioFile t in
  finalTitle fuel (withDefaultFolder p) dest (isoDate now) (period (hours now)) = Some title ->
  (present (withDefaultFolder p) notePath = false ->
   underFile (withDefaultFolder p) notePath = false ->
   transcribeRecording fuel now remote audioFile p =
     (Normal tt,
      mkPlugin (settings p) (writing p) t (data p)
        (withDefaultFolder p ++ [(notePath, FileNode (Text content))])
        (viewAfterOpening notePath content (activeView p))
        (fileAfterOpening notePath content (activeFile p))
        (notices p ++ ["Processing audio for transcription...";
                       "Audio uploaded. Generating transcript..."]
           ++ folderNotice p
           ++ ["Transcript generated in a new note: " +:+ title +:+ ".md"])
        (requests p ++ [payload])
        (opened p ++ [notePath]))) /\
  (present (withDefaultFolder p) notePath || underFile (withDefaultFolder p) notePath = true ->
   transcribeRecording fuel now remote audioFile p =
     (Normal tt,
      mkPlugin (settings p) (writing p) t (data p) (withDefaultFolder p)
        (activeView p) (activeFile p)
        (notices p ++ ["Processing audio for transcription...";
                       "Audio uploaded. Generating transcript..."]
           ++ folderNotice p
           ++ ["Failed to create new note for transcript."])
        (requests p ++ [payload])
        (opened p))).
Proof.
  intros Hloc Hfile Hinit Hurl Hupload Huri Htempl payload Hgen Htext dest notePath content
    Htitle.
  pose proof (new_note_outcome fuel now remote audioFile p uploadUrl fileUri templateContent
                generateData t title) as Hn.
  cbn zeta in Hn. rewrite (fallBackToNewNote_other p (or_introl Hloc)) in Hn.
  cbn [snd] in Hn.
  exact (Hn Hloc Hfile Hinit Hurl Hupload Huri Htempl Hgen Htext Htitle).
Qed.

(** C5, as the code has it.  When inline placement is configured and no
    markdown view is active, [transcribeRecording] overwrites the setting in
    memory: afterwards [insertTranscriptLocation] is newNote and every other
    setting is as before.  The invocation itself stores nothing (the saved
    data are untouched), but the changed settings object is what every later
    invocation reads and what the next [saveSettings] stores.  And the text
    is placed in a new note: when the audio file is read, the upload gives
    a file URI, the answer holds a text and the note can be made, the run
    ends as it does with newNote configured, after the notice of the
    fallback, with the note added to the vault. *)
Theorem inline_fallback_is_kept fuel now remote audioFile p :
  insertTranscriptLocation (settings p) = inline -> activeView p = None ->
  let r := transcribeRecording fuel now remote audioFile p in
  let p' := snd r in
  (settings p' = set_insertTranscriptLocation newNote (settings p) /\
   insertTranscriptLocation (settings p') = newNote /\
   data p' = data p /\
   data (snd (saveSettings p')) = Some (set_insertTranscriptLocation newNote (settings p))) /\
  forall uploadUrl fileUri templateContent generateData t title,
    isTFile (getAbstractFileByPath (vault p) (path audioFile)) = true ->
    initResponse remote = Response (Some uploadUrl) -> Js.truthy uploadUrl = true ->
    uploadResponse remote = Response (UploadedFile (Some fileUri)) ->
    Js.truthy fileUri = true ->
    fst (loadTemplateContent p) = Normal templateContent ->
    let payload := mkPayload (model (settings p))
                     (combinedPrompt (prompt (settings p)) templateContent)
                     (getMimeType audioFile) fileUri in
    generateResponse remote payload = Response generateData ->
    firstText generateData = Some t ->
    let dest := noteFolder p in
    let notePath := notePathOf dest title in
    let content := transcriptContent (includeAudioFileLink (settings p)) audioFile t in
    finalTitle fuel (withDefaultFolder p) dest (isoDate now) (period (hours now))
      = Some title ->
    present (withDefaultFolder p) notePath = false ->
    underFile (withDefaultFolder p) notePath = false ->
    r = (Normal tt,
         mkPlugin (set_insertTranscriptLocation newNote (settings p)) (writing p) t (data p)
           (withDefaultFolder p ++ [(notePath, FileNode (Text content))])
           (viewAfterOpening notePath content None)
           (fileAfterOpening notePath content (activeFile p))
           (notices p
              ++ ["No active file open. Defaulting to generating the transcript in a new note.";
                  "Processing audio for transcription...";
                  "Audio uploaded. Generating transcript..."]
              ++ folderNotice p
              ++ ["Transcript generated in a new note: " +:+ title +:+ ".md"])
           (requests p ++ [payload])
           (opened p ++ [notePath])).
Proof.
  intros Hloc Hview. cbn zeta. split.
  - unfold transcribeRecording.
    rewrite (bind_normal _ _ _ _ _ (fallBackToNewNote_inline p Hloc Hview)).
    match goal with |- context [snd (?c ?q)] =>
      destruct (afterFallback_sameConfig fuel now remote audioFile q) as [Hs Hd]
    end.
    cbn zeta in *. repeat split; cbn; rewrite ?Hs, ?Hd; reflexivity.
  - intros uploadUrl fileUri templateContent generateData t title
      Hfile Hinit Hurl Hupload Huri Htempl Hgen Htext Htitle Hfree Hroom.
    pose proof (new_note_outcome fuel now remote audioFile p uploadUrl fileUri templateContent
                  generateData t title) as Hn.
    cbn zeta in Hn. rewrite (fallBackToNewNote_inline p Hloc Hview) in Hn.
    cbn [snd] in Hn.
    destruct (Hn eq_refl Hfile Hinit Hurl Hupload Huri Htempl Hgen Htext Htitle) as [Hc _].
    rewrite (Hc Hfree Hroom). f_equal.
    unfold set_settings, set_notices.
    cbn [settings writing transcript data vault activeView activeFile notices requests opened].
    rewrite Hview, <- !app_assoc. reflexivity.
Qed.

(** C9.  [loadTemplateContent] always returns and changes nothing.  When the
    template path is empty or blank, or does not lead to a file of the
    vault, it returns the empty string and the pipeline goes on as it does
    without a template: once the audio file is read and the upload gave a
    file URI, [transcribeRecording] makes the generation request, whose
    instruction text is exactly the configured prompt; and when the answer
    holds a text, that text is kept as the transcript and the run comes to
    its placement.  The section that starts with "Template:" is appended
    to the prompt only for non-empty template content. *)
Theorem missing_template_is_not_fatal (p : Plugin) :
  let templatePath := templateFilePath (settings p) in
  let configured := prompt (settings p) in
  (exists t, loadTemplateContent p = (Normal t, p)) /\
  (Js.trim templatePath = "" \/
   isTFile (getAbstractFileByPath (vault p) templatePath) = false ->
   loadTemplateContent p = (Normal "", p) /\
   (forall fuel now remote audioFile mimeType,
      let p' := snd (transcribeBody fuel now remote audioFile mimeType p) in
      requests p' = requests p \/
      exists fileUri,
        requests p' =
        requests p ++ [mkPayload (model (settings p)) configured mimeType fileUri]) /\
   (forall fuel now remote audioFile uploadUrl fileUri,
      isTFile (getAbstractFileByPath (vault p) (path audioFile)) = true ->
      initResponse remote = Response (Some uploadUrl) -> Js.truthy uploadUrl = true ->
      uploadResponse remote = Response (UploadedFile (Some fileUri)) ->
      Js.truthy fileUri = true ->
      let payload := mkPayload (model (settings p)) configured
                       (getMimeType audioFile) fileUri in
      let r := transcribeRecording fuel now remote audioFile p in
      requests (snd r) = requests p ++ [payload] /\
      forall generateData t,
        generateResponse remote payload = Response generateData ->
        firstText generateData = Some t ->
        transcript (snd r) = t /\
        r = tryCatch
              match insertTranscriptLocation (settings (snd (fallBackToNewNote p))) with
              | inline => placeInline
              | newNote => placeInNewNote fuel now audioFile
              end
              (fun message => Notice message)
              (atPlacement payload t (snd (fallBackToNewNote p))))) /\
  combinedPrompt configured "" = configured /\
  (forall t, t <> "" ->
     combinedPrompt configured t = configured +:+ "

Template:
" +:+ t).
Proof.
  cbn zeta. split.
  { destruct (loadTemplateContent_ext p p eq_refl eq_refl) as (t & Ht & _). eauto. }
  assert (combinedPrompt (prompt (settings p)) "" = prompt (settings p)) as Hplain.
  { unfold combinedPrompt. cbn [Js.truthy]. apply append_nil_r. }
  split.
  { intros Hmissing. pose proof (loadTemplateContent_missing p Hmissing) as Hload.
    split; [exact Hload|]. split.
    - intros fuel now remote audioFile mimeType. cbn zeta.
      destruct (transcribeBody_request fuel now remote audioFile mimeType p)
        as (t & Ht & Hreq).
      rewrite Hload in Ht. injection Ht as <-.
      rewrite Hplain in Hreq. exact Hreq.
    - intros fuel now remote audioFile uploadUrl fileUri Hfile Hinit Hurl Hupload Huri.
      assert (fst (loadTemplateContent p) = Normal "") as Htempl by (rewrite Hload; reflexivity).
      split.
      + rewrite (pipeline_makes_request fuel now remote audioFile p uploadUrl fileUri ""
                   Hfile Hinit Hurl Hupload Huri Htempl).
        rewrite Hplain. reflexivity.
      + intros generateData t Hgen Htext. rewrite <- Hplain in Hgen |- *. split.
        * apply (pipeline_keeps_text fuel now remote audioFile p uploadUrl fileUri ""
                   generateData t Hfile Hinit Hurl Hupload Huri Htempl Hgen Htext).
        * apply (pipeline_reaches_placement fuel now remote audioFile p uploadUrl fileUri ""
                   generateData t Hfile Hinit Hurl Hupload Huri Htempl Hgen Htext). }
  split; [exact Hplain|].
  intros t Ht. unfold combinedPrompt. destruct t; [contradiction|reflexivity].
Qed.

End HappyPath.

(** ** Recorded as audio/wav, sent as audio/mp3 *)

Section SessionRecordings.
Context `{Host}.

Lemma requests_after {A B} (m : Async A) (f : A -> Async B) handler s :
  (forall a, stable sameRequests (f a)) ->
  (forall message, stable sameRequests (handler message)) ->
  requests (snd (tryCatch (m ≫= f) handler s)) = requests (snd (m s)).
Proof.
  intros Hf Hh. unfold tryCatch, mbind, Async_bind.
  destruct (m s) as [[a|message|] s'] eqn:E; cbn [snd].
  - specialize (Hf a s').
    destruct (f a s') as [[b|message|] s''] eqn:E'; cbn [snd] in *; try exact Hf.
    rewrite (Hh message s''). exact Hf.
  - apply (Hh message s').
  - reflexivity.
Qed.

Lemma chosenRecordingName_candidate fuel now p fileName :
  chosenRecordingName fuel now p = Some fileName ->
  exists k, 1 <= k /\ fileName = nameCandidate (isoDate now) (period (hours now)) k.
Proof.
  unfold chosenRecordingName. intros E.
  apply untilFree_Some in E as (j & _ & -> & _).
  exists (S j). rewrite tried_name. split; [lia|reflexivity].
Qed.

(** Every artifact the modal hands on is a blob declared as audio/wav.  A
    recording that [handleAudioRecording] saves has one of the names
    recording-<date>-<bucket>.mp3, ...-2.mp3, ...; with a [saveFile] that
    gives the file the extension of the name it is handed, [getMimeType]
    gives the file audio/mp3, and every generation request that
    [handleAudioRecording] causes, whatever it is called with, declares
    audio/mp3.  Such a request is made: when "Transcribe" was pressed, the
    saved file is read and the upload gives a file URI, the one request
    declares audio/mp3 for the recording. *)
Theorem session_recordings_are_sent_as_mp3 fuel now later remote blob keep incl p
    fileName v file uploadUrl fileUri :
  (forall v blob fileName folder v' file,
     saveFile v blob fileName folder = Some (v', file) ->
     extension file = extname fileName) ->
  chosenRecordingName fuel now p = Some fileName ->
  saveFile (vault p) blob fileName (recordingFilePath (settings p)) = Some (v, file) ->
  isTFile (getAbstractFileByPath v (path file)) = true ->
  initResponse remote = Response (Some uploadUrl) -> Js.truthy uploadUrl = true ->
  uploadResponse remote = Response (UploadedFile (Some fileUri)) -> Js.truthy fileUri = true ->
  let r := handleAudioRecording fuel now later remote (Some blob) true keep incl p in
  (forall keep' incl' es,
     Forall (fun b => Modal.type b = "audio/wav")
            (Modal.artifacts (Modal.run (Modal.new keep' incl') es))) /\
  (exists k, 1 <= k /\ fileName = nameCandidate (isoDate now) (period (hours now)) k) /\
  extension file = "mp3" /\
  getMimeType file = "audio/mp3" /\
  (forall audioFile transcribe keepAudio includeAudioFileLink q,
     exists sent,
       requests (snd (handleAudioRecording fuel now later remote audioFile
                        transcribe keepAudio includeAudioFileLink q)) =
       requests q ++ sent /\
       Forall (fun x => payloadMimeType x = "audio/mp3") sent) /\
  exists text,
    requests (snd r) =
      requests p ++ [mkPayload (model (settings p)) text "audio/mp3" fileUri].
Proof.
  intros Hlaw Hname Hsave Hfile Hinit Hurl Hupload Huri. cbn zeta.
  pose proof (Hlaw _ _ _ _ _ _ Hsave) as Hext.
  split; [intros keep' incl' es; apply ModalFacts.artifacts_are_wav|].
  destruct (chosenRecordingName_candidate fuel now p fileName Hname) as (k & Hk & Ek).
  split; [exists k; auto|].
  assert (extension file = "mp3") as Hmp3.
  { rewrite Hext, Ek. apply nameCandidate_mp3. }
  split; [exact Hmp3|].
  pose proof (getMimeType_mp3 file Hmp3) as Hmime.
  split; [exact Hmime|].
  split.
  { intros audioFile transcribe keepAudio includeAudioFileLink q.
    apply (handleAudioRecording_mp3Only fuel now later remote audioFile transcribe
             keepAudio includeAudioFileLink Hlaw q). }
  rewrite (handleAudioRecording_saved fuel now later remote blob true keep incl p fileName v
             file Hname Hsave).
  set (s0 := saved v keep incl p).
  assert (exists s1,
            (vault s1 = v /\ settings s1 = settings s0 /\ requests s1 = requests p) /\
            forall (f : unit -> Async unit),
              (get ≫= (fun q =>
                 (if incl && keep &&
                     match insertTranscriptLocation (settings q) with
                     | newNote => false
                     | inline => true
                     end
                  then match activeView q with
                       | Some editor =>
                           modify (set_activeView
                                     (Some (replaceRange ("![[" +:+ path file +:+ "]]")
                                              (cursorHead editor) editor)))
                       | None =>
                           Notice "No active editor found. Audio file link not inserted."
                       end
                  else mret tt) ≫= f)) s0 = f tt s1) as (s1 & (Hv & Hs & Hr) & Hstep).
  { destruct (incl && keep &&
              match insertTranscriptLocation (settings s0) with
              | newNote => false
              | inline => true
              end) eqn:Ec.
    - destruct (activeView s0) as [editor|] eqn:Ea.
      + eexists. split; [|intros f; rewrite (bind_normal get _ s0 s0 s0 eq_refl);
                          rewrite Ec, Ea; reflexivity].
        repeat split.
      + eexists. split; [|intros f; rewrite (bind_normal get _ s0 s0 s0 eq_refl);
                          rewrite Ec, Ea; reflexivity].
        repeat split.
    - exists s0. split; [repeat split|].
      intros f. rewrite (bind_normal get _ s0 s0 s0 eq_refl). rewrite Ec. reflexivity. }
  unfold afterSaving, tryCatch. rewrite Hstep. fold (@tryCatch unit).
  destruct (loadTemplateContent_ext s1 s1 eq_refl eq_refl) as (templateContent & Et & _).
  exists (combinedPrompt (prompt (settings p)) templateContent).
  change (requests
            (snd (tryCatch
                    (transcribeRecording fuel later remote file ≫=
                     (fun _ => if negb keep then cleanup file else mret tt))
                    (fun _ => Notice "Failed to handle audio recording") s1)) =
          requests p ++ [mkPayload (model (settings p))
                           (combinedPrompt (prompt (settings p)) templateContent)
                           "audio/mp3" fileUri]).
  rewrite requests_after.
  - rewrite (pipeline_makes_request fuel later remote file s1 uploadUrl fileUri
               templateContent); [|rewrite Hv; exact Hfile|exact Hinit|exact Hurl|exact Hupload
                                  |exact Huri|rewrite Et; reflexivity].
    rewrite Hr, Hs, Hmime. reflexivity.
  - intros _. unfold cleanup. repeat stable_step.
  - intros message. apply Notice_sameRequests.
Qed.

End SessionRecordings.

(** ** Requests *)

Section Requests.
Context `{Host}.

Lemma loadTemplateContent_reads p q :
  templateFilePath (settings q) = templateFilePath (settings p) -> vault q = vault p ->
  exists t, loadTemplateContent p = (Normal t, p) /\ loadTemplateContent q = (Normal t, q).
Proof.
  intros Hs Hv. unfold loadTemplateContent.
  rewrite (bind_normal get _ p p p eq_refl), (bind_normal get _ q q q eq_refl).
  rewrite Hs, Hv.
  destruct (Js.truthy _ && _); [|eauto].
  destruct (getAbstractFileByPath _ _) as [[c|]|]; eauto.
Qed.

(** One invocation, at most one generation request.  The request carries
    the configured model, the configured prompt (followed by the template
    when there is one), the content type [getMimeType] gives the file, and
    the URI of the upload. *)
Theorem at_most_one_request_per_transcription fuel now remote audioFile p :
  let p' := snd (transcribeRecording fuel now remote audioFile p) in
  requests p' = requests p \/
  exists fileUri templateContent,
    fst (loadTemplateContent p) = Normal templateContent /\
    requests p' =
      requests p ++ [mkPayload (model (settings p))
                       (combinedPrompt (prompt (settings p)) templateContent)
                       (getMimeType audioFile) fileUri].
Proof.
  cbn zeta. unfold transcribeRecording.
  assert (exists q, fallBackToNewNote p = (Normal tt, q) /\ vault q = vault p /\
            requests q = requests p /\ model (settings q) = model (settings p) /\
            prompt (settings q) = prompt (settings p) /\
            templateFilePath (settings q) = templateFilePath (settings p))
    as (q & E & Hv & Hr & Hm & Hp & Ht).
  { unfold fallBackToNewNote. rewrite (bind_normal get _ p p p eq_refl).
    destruct (insertTranscriptLocation (settings p)), (activeView p);
      (eexists; split; [reflexivity|]); cbn; auto. }
  rewrite (bind_normal _ _ _ _ _ E).
  rewrite (bind_normal (Notice _) _ q tt _ eq_refl).
  match goal with |- context [(_ ≫= _) ?s] => set (q1 := s) end.
  assert ((exists message, readBinary (path audioFile) q1 = (Throw message, q1)) \/
          readBinary (path audioFile) q1 = (Normal tt, q1)) as [[message Er]|Er].
  { unfold readBinary. rewrite (bind_normal get _ q1 q1 q1 eq_refl).
    destruct (getAbstractFileByPath (vault q1) (path audioFile)) as [[c|]|]; eauto. }
  { rewrite (bind_throw _ _ _ _ _ Er). left. exact Hr. }
  rewrite (bind_normal _ _ _ _ _ Er).
  destruct (transcribeBody_request fuel now remote audioFile (getMimeType audioFile) q1)
    as (t & Hload & Hreq).
  assert (requests (snd (tryCatch (transcribeBody fuel now remote audioFile (getMimeType audioFile))
                           (fun message => Notice message) q1)) =
          requests (snd (transcribeBody fuel now remote audioFile (getMimeType audioFile) q1)))
    as Htc.
  { unfold tryCatch. destruct (transcribeBody _ _ _ _ _ q1) as [[| |] q2]; reflexivity. }
  change (requests q1) with (requests q) in Hreq.
  change (settings q1) with (settings q) in Hreq.
  rewrite Hr, Hm, Hp in Hreq.
  destruct Hreq as [Hreq|[uri Hreq]]; [left; exact (eq_trans Htc Hreq)|].
  right. exists uri, t. split; [|exact (eq_trans Htc Hreq)].
  destruct (loadTemplateContent_reads p q1 Ht Hv) as (t' & E1 & E2).
  rewrite E2 in Hload. injection Hload as <-. rewrite E1. reflexivity.
Qed.

End Requests.

(** ** The loops end *)


#[local] Instance sameFolders_refl : Reflexive sameFolders.
Proof. intros p. repeat split. Qed.

#[local] Instance sameFolders_trans : Transitive sameFolders.
Proof. intros p1 p2 p3 (A1 & A2 & A3) (B1 & B2 & B3). repeat split; congruence. Qed.

Lemma nameCandidate_inj d a i j :
  1 <= i -> 1 <= j -> nameCandidate d a i = nameCandidate d a j -> i = j.
Proof.
  unfold nameCandidate, recordingName, recordingNameN. intros Hi Hj.
  destruct (Nat.eqb_spec i 1), (Nat.eqb_spec j 1); subst; auto; intros E.
  - do 3 apply append_inj_l in E. apply (f_equal String.length) in E.
    rewrite !append_length in E. simpl in E. lia.
  - do 3 apply append_inj_l in E. apply (f_equal String.length) in E.
    rewrite !append_length in E. simpl in E. lia.
  - do 5 apply append_inj_l in E. apply append_inj_r in E. apply natToString_inj, E.
Qed.

Ltac simple_step :=
  first [ solve [repeat ends_step]
        | solve [unfold Notice; repeat stable_step] ].

Section Ends.
Context `{Host}.

(** The naming loop of [handleAudioRecording] ends: in a vault of [n]
    entries it needs at most [n] further iterations, because the paths it
    tests differ from one another (for recordings in a folder: provided the
    host's [normalizePath] keeps them apart).  The name it ends with is the
    first of recording-<date>-<bucket>.mp3, ...-2.mp3, ...-3.mp3, ... whose
    tested path is not in the vault. *)
Theorem recording_name_is_found fuel now p :
  let recordingFolder := Js.trim (recordingFilePath (settings p)) in
  let tested := fun n => if Js.truthy recordingFolder
                         then normalizePath (recordingFolder +:+ "/" +:+ n) else n in
  let candidate := nameCandidate (isoDate now) (period (hours now)) in
  length (vault p) <= fuel ->
  (recordingFolder = "" \/ distinctPaths tested candidate) ->
  exists fileName k,
    chosenRecordingName fuel now p = Some fileName /\
    1 <= k /\ fileName = candidate k /\
    present (vault p) (tested fileName) = false /\
    (forall j, 1 <= j < k -> present (vault p) (tested (candidate j)) = true).
Proof.
  cbn zeta. intros Hfuel Hd.
  set (recordingFolder := Js.trim (recordingFilePath (settings p))) in *.
  set (tested := fun n => if Js.truthy recordingFolder
                          then normalizePath (recordingFolder +:+ "/" +:+ n) else n) in *.
  assert (chosenRecordingName fuel now p =
          untilFree (fun n => present (vault p) (tested n))
            (recordingNameN (isoDate now) (period (hours now))) fuel 1
            (recordingName (isoDate now) (period (hours now)))) as Ec.
  { unfold chosenRecordingName. apply untilFree_ext. intros n. unfold tested.
    fold recordingFolder. destruct (Js.truthy recordingFolder); reflexivity. }
  assert (distinctPaths tested (nameCandidate (isoDate now) (period (hours now)))) as Hdist.
  { destruct Hd as [He|Hd]; [|exact Hd].
    intros i j Hi Hj. unfold tested. rewrite He. cbn. apply nameCandidate_inj; assumption. }
  destruct (untilFree_total (vault p) tested
              (recordingNameN (isoDate now) (period (hours now))) 1
              (recordingName (isoDate now) (period (hours now))) fuel) as [fileName Hf];
    [|exact Hfuel|].
  { intros i j _ _. rewrite !tried_name. intros E.
    assert (S i = S j); [|lia]. apply Hdist; [lia|lia|exact E]. }
  rewrite Ec, Hf.
  apply untilFree_Some in Hf as (j & Hj & -> & Hfree & Hall).
  exists (tried (recordingNameN (isoDate now) (period (hours now))) 1
            (recordingName (isoDate now) (period (hours now))) j), (S j).
  rewrite tried_name in *. repeat split; [lia|exact Hfree|].
  intros [|i] Hi; [lia|]. specialize (Hall i ltac:(lia)). rewrite tried_name in Hall. exact Hall.
Qed.

Lemma finalTitle_found fuel v dest d a :
  length v <= fuel ->
  distinctPaths (testedPath dest) (titleCandidate d a) ->
  is_Some (finalTitle fuel v dest d a).
Proof.
  intros Hfuel Hd. unfold finalTitle.
  apply (untilFree_total v (testedPath dest)); [|exact Hfuel].
  intros i j _ _. rewrite !tried_title. intros E.
  assert (S i = S j); [|lia]. apply Hd; [lia|lia|exact E].
Qed.

Lemma distinct_unless_default dest d a :
  match dest with DefaultFolder _ => False | _ => True end ->
  distinctPaths (testedPath dest) (titleCandidate d a).
Proof.
  intros Hdest i j Hi Hj E. apply testedPath_inj in E; [|exact Hdest].
  apply (titleCandidate_inj d a); assumption.
Qed.


Lemma placeInNewNote_ends fuel now audioFile q :
  loopEnds fuel now q -> fst (placeInNewNote fuel now audioFile q) <> Hang.
Proof.
  intros [Hfuel Hd].
  assert (length (withDefaultFolder q) <= fuel) as Hl.
  { unfold withDefaultFolder. destruct (noteFolder q); try lia.
    destruct (_ || _); [lia|]. rewrite length_app. cbn [length]. lia. }
  destruct (finalTitle_found fuel (withDefaultFolder q) (noteFolder q) (isoDate now)
              (period (hours now)) Hl Hd) as [title Ht].
  destruct (present (withDefaultFolder q) (notePathOf (noteFolder q) title)
            || underFile (withDefaultFolder q) (notePathOf (noteFolder q) title)) eqn:E.
  - rewrite (placeInNewNote_refused fuel now audioFile q title Ht E). discriminate.
  - apply orb_false_elim in E as [E1 E2].
    rewrite (placeInNewNote_created fuel now audioFile q title Ht E1 E2). discriminate.
Qed.

Lemma placeInline_ends q : fst (placeInline q) <> Hang.
Proof.
  unfold placeInline. rewrite (bind_normal get _ q q q eq_refl).
  destruct (activeView q) as [ed|]; [|discriminate].
  destruct (getNextNewLine ed (fst (cursorTo ed))). discriminate.
Qed.

Lemma loopEnds_sameFolders fuel now p q : sameFolders p q -> loopEnds fuel now p -> loopEnds fuel now q.
Proof.
  intros (Hv & Hd & Ha) [H1 H2]. unfold loopEnds, noteFolder in *. rewrite Hv, Hd, Ha. auto.
Qed.

Lemma noHang_bind {A B} (m : Async A) (f : A -> Async B) (P : Plugin -> Prop) p :
  P p -> ends m -> stable sameFolders m ->
  (forall q, sameFolders p q -> P q) ->
  (forall a q, P q -> fst (f a q) <> Hang) ->
  fst ((m ≫= f) p) <> Hang.
Proof.
  intros HP Hm Hs Hq Hf. unfold mbind, Async_bind.
  specialize (Hs p).
  destruct (Hm p) as [(a & p' & E)|(msg & p' & E)]; rewrite E in *; cbn in *;
    [|discriminate].
  apply Hf, Hq, Hs.
Qed.


Lemma noHang_ends P {A} (c : Async A) : ends c -> noHang P c.
Proof.
  intros Hc q _. destruct (Hc q) as [(a & p' & E)|(msg & p' & E)]; rewrite E; discriminate.
Qed.

Lemma noHang_seq fuel now {A B} (m : Async A) (f : A -> Async B) :
  ends m -> stable sameFolders m ->
  (forall a, noHang (loopEnds fuel now) (f a)) ->
  noHang (loopEnds fuel now) (m ≫= f).
Proof.
  intros Hm Hs Hf q HP. unfold mbind, Async_bind.
  specialize (Hs q).
  destruct (Hm q) as [(a & p' & E)|(msg & p' & E)]; rewrite E in *; cbn in *;
    [|discriminate].
  apply Hf. apply (loopEnds_sameFolders fuel now q p' Hs HP).
Qed.


Lemma transcribeBody_ends fuel now remote audioFile mimeType :
  noHang (loopEnds fuel now) (transcribeBody fuel now remote audioFile mimeType).
Proof.
  unfold transcribeBody.
  apply noHang_seq; [simple_step|simple_step|intros uploadUrl].
  apply noHang_seq; [simple_step|simple_step|intros _].
  apply noHang_seq; [simple_step|simple_step|intros uploadData].
  apply noHang_seq; [simple_step|simple_step|intros fileUri].
  apply noHang_seq; [unfold Notice; simple_step|simple_step|intros _].
  apply noHang_seq; [apply ends_loadTemplateContent
                    |unfold loadTemplateContent; repeat stable_step|intros templateContent].
  apply noHang_seq; [simple_step|simple_step|intros q0].
  apply noHang_seq; [simple_step|simple_step|intros _].
  apply noHang_seq; [simple_step|simple_step|intros generateData].
  destruct (firstText generateData) as [t|]; [|apply noHang_ends; simple_step].
  apply noHang_seq; [simple_step|simple_step|intros _].
  intros q Hq. rewrite (bind_normal get _ q q q eq_refl).
  destruct (insertTranscriptLocation (settings q));
    [apply placeInline_ends|apply placeInNewNote_ends, Hq].
Qed.

(** [transcribeRecording] ends.  The only loop on its way is the title
    loop of a new note, and in a vault of fewer than [fuel] entries that
    loop finds a free title, because the paths it tests differ from one
    another (with a default note folder: provided the host's
    [normalizePath] keeps them apart).  So the call returns, or throws
    because the audio file cannot be read. *)
Theorem transcription_ends fuel now remote audioFile p :
  length (vault p) < fuel ->
  (match noteFolder p with DefaultFolder _ => False | _ => True end \/
   distinctPaths (testedPath (noteFolder p))
     (titleCandidate (isoDate now) (period (hours now)))) ->
  let r := transcribeRecording fuel now remote audioFile p in
  fst r <> Hang /\
  (isTFile (getAbstractFileByPath (vault p) (path audioFile)) = true -> fst r = Normal tt).
Proof.
  intros Hfuel Hd. cbn zeta.
  assert (loopEnds fuel now p) as HP.
  { split; [exact Hfuel|]. destruct Hd as [Hd|Hd]; [|exact Hd].
    apply distinct_unless_default, Hd. }
  assert (noHang (loopEnds fuel now) (transcribeRecording fuel now remote audioFile)) as Hn.
  { unfold transcribeRecording.
    apply noHang_seq; [unfold fallBackToNewNote, Notice; simple_step
                      |unfold fallBackToNewNote, Notice; simple_step|intros _].
    apply noHang_seq; [unfold Notice; simple_step|simple_step|intros _].
    apply noHang_seq; [unfold readBinary; simple_step|unfold readBinary; simple_step|intros _].
    intros q Hq. unfold tryCatch.
    pose proof (transcribeBody_ends fuel now remote audioFile (getMimeType audioFile) q Hq) as Hb.
    destruct (transcribeBody _ _ _ _ _ q) as [[| |] q']; cbn in *; try discriminate.
    contradiction. }
  split; [apply Hn, HP|]. intros Hfile.
  pose proof (Hn p HP) as H1.
  pose proof (transcribeRecording_readable fuel now remote audioFile p Hfile) as H2.
  destruct (transcribeRecording fuel now remote audioFile p) as [[[]|msg|] q]; cbn in *;
    [reflexivity|exfalso; apply (H2 msg); reflexivity|contradiction].
Qed.

End Ends.


(** ** Further worked examples *)

(** A note of four lines, the third of them blank. *)
Lemma getNextNewLine_finds_first_blank_line_witness :
  let ed := mkEditor ["# Day"; "walked"; "  "; "slept"] (0, 5) (0, 5) in
  let n := fst (getNextNewLine ed 0) in
  let ed' := snd (getNextNewLine ed 0) in
  (0 < length (doc ed) /\ n = 2) /\
  0 <= n <= length (doc ed) /\
  n < length (doc ed') /\
  Js.trim (getLine ed' n) = "" /\
  (forall i, 0 <= i < n -> Js.trim (getLine ed i) <> "") /\
  (doc ed' = doc ed \/ (n = length (doc ed) /\ doc ed' = doc ed ++ [""])) /\
  cursorHead ed' = cursorHead ed /\ cursorTo ed' = cursorTo ed.
Proof.
  cbv zeta. split; [split; [cbn; lia|reflexivity]|].
  apply (getNextNewLine_finds_first_blank_line
           (mkEditor ["# Day"; "walked"; "  "; "slept"] (0, 5) (0, 5)) 0).
  cbn; lia.
Defined.

(** The cursor is in the heading; the transcript goes to the blank third
    line. *)
Lemma inline_placement_keeps_the_note_witness :
  let configured := mkSettings "gemini-2.0-flash" "key" "Summarise." "" "recordings"
                      true false inline "" in
  let ed := mkEditor ["# Day"; "walked"; "  "; "slept"] (0, 5) (0, 5) in
  let p := mkPlugin configured false "Rested." (Some configured) [] (Some ed) None [] [] [] in
  (activeView p = Some ed /\ fst (cursorTo ed) < length (doc ed)) /\
  exists n,
    fst (cursorTo ed) <= n <= length (doc ed) /\
    Js.trim (getLine ed n) = "" /\
    (forall i, fst (cursorTo ed) <= i < n -> Js.trim (getLine ed i) <> "") /\
    placeInline p =
      (Normal tt,
       set_notices (notices p ++ ["Transcript generated and inserted inline."])
         (set_activeView
            (Some (mkEditor
                     (firstn n (doc ed)
                        ++ Js.split "010" (transcript p +:+ getLine ed n)
                        ++ skipn (S n) (doc ed))
                     (cursorHead ed) (cursorTo ed))) p)).
Proof.
  cbv zeta. split; [split; [reflexivity|cbn; lia]|].
  refine (inline_placement_keeps_the_note
            (mkPlugin (mkSettings "gemini-2.0-flash" "key" "Summarise." "" "recordings"
                         true false inline "")
               false "Rested."
               (Some (mkSettings "gemini-2.0-flash" "key" "Summarise." "" "recordings"
                        true false inline ""))
               [] (Some (mkEditor ["# Day"; "walked"; "  "; "slept"] (0, 5) (0, 5)))
               None [] [] [])
            (mkEditor ["# Day"; "walked"; "  "; "slept"] (0, 5) (0, 5)) eq_refl _).
  cbn; lia.
Defined.

(** Two lines of text written from the second line on. *)
Lemma writeText_replaces_a_blank_line_witness :
  let ed := mkEditor ["# Day"; "walked"; "  "; "slept"] (0, 5) (0, 5) in
  let text := String " " ("Rested." +:+ String "010" "Slept. ") in
  let n := fst (writeText ed 1 text) in
  let ed' := snd (writeText ed 1 text) in
  (1 < length (doc ed) /\
   doc ed' = ["# Day"; "walked"; ""; "Rested."; "Slept."; ""; "slept"]) /\
  n = fst (getNextNewLine ed 1) /\
  1 <= n <= length (doc ed) /\
  Js.trim (getLine ed n) = "" /\
  (forall i, 1 <= i < n -> Js.trim (getLine ed i) <> "") /\
  doc ed' = firstn n (doc ed) ++ [""] ++ Js.split "010" (Js.trim text) ++ [""]
              ++ skipn (S n) (doc ed) /\
  cursorHead ed' = cursorHead ed /\ cursorTo ed' = cursorTo ed.
Proof.
  cbv zeta. split; [split; [cbn; lia|vm_compute; reflexivity]|].
  apply (writeText_replaces_a_blank_line
           (mkEditor ["# Day"; "walked"; "  "; "slept"] (0, 5) (0, 5)) 1
           (String " " ("Rested." +:+ String "010" "Slept. "))).
  cbn; lia.
Defined.

(** A wiki link that embeds a.mp3. *)
Lemma matches_are_audio_link_targets_witness :
  let text := "see ![[a.mp3]] now" in
  (7, "a.mp3") ∈ execAll WikiLink text /\
  Js.sliceTo (String.length "a.mp3") (Js.sliceFrom 7 text) = "a.mp3" /\
  (exists body ext,
     "a.mp3" = body +:+ "." +:+ ext /\ (ext = "mp3" \/ ext = "wav") /\
     body <> "" /\ hasBracket body = false) /\
  (exists pre, Js.sliceTo 7 text = pre +:+ opener WikiLink) /\
  String.prefix (closer WikiLink) (Js.sliceFrom (7 + String.length "a.mp3") text) = true.
Proof.
  cbv zeta.
  assert ((7, "a.mp3") ∈ execAll WikiLink "see ![[a.mp3]] now") as Hin
    by (vm_compute; left).
  split; [exact Hin|].
  exact (matches_are_audio_link_targets WikiLink "see ![[a.mp3]] now" 7 "a.mp3" Hin).
Defined.

(** The generation request is answered without candidates. *)
Lemma failed_generation_places_nothing_witness :
  let configured := mkSettings "gemini-2.0-flash" "key" "Summarise." "" "recordings"
                      true false newNote "" in
  let p := mkPlugin configured false "" (Some configured)
             [("recordings/a.mp3", FileNode (Binary []))] None None [] [] [] in
  let remote := mkRemote (Response (Some "https://upload.example"))
                  (Response (UploadedFile (Some "files/1")))
                  (fun _ => Response None) in
  let now := mkClock "2024-01-01" 9 in
  let audioFile := tfileAt "recordings/a.mp3" in
  let p' := snd (@transcribeRecording exampleHost 3 now remote audioFile p) in
  noText remote /\
  (vault p' = vault p /\ activeView p' = activeView p /\ opened p' = opened p /\
   transcript p' = transcript p) /\
  (isTFile (getAbstractFileByPath (vault p) (path audioFile)) = true ->
   fst (@transcribeRecording exampleHost 3 now remote audioFile p) = Normal tt /\
   exists message q q',
     @transcribeBody exampleHost 3 now remote audioFile (getMimeType audioFile) q
       = (Throw message, q') /\
     notices p' = notices q' ++ [message]).
Proof.
  cbv zeta.
  assert (noText (mkRemote (Response (Some "https://upload.example"))
                    (Response (UploadedFile (Some "files/1")))
                    (fun _ => Response None))) as Hno
    by (intros payload; reflexivity).
  split; [exact Hno|].
  exact (@failed_generation_places_nothing exampleHost 3 (mkClock "2024-01-01" 9)
           (mkRemote (Response (Some "https://upload.example"))
              (Response (UploadedFile (Some "files/1")))
              (fun _ => Response None))
           (tfileAt "recordings/a.mp3")
           (mkPlugin (mkSettings "gemini-2.0-flash" "key" "Summarise." "" "recordings"
                        true false newNote "")
              false ""
              (Some (mkSettings "gemini-2.0-flash" "key" "Summarise." "" "recordings"
                       true false newNote ""))
              [("recordings/a.mp3", FileNode (Binary []))] None None [] [] [])
           Hno).
Defined.

(** The audio is kept off and the default folder is typed with spaces
    around it. *)
Lemma setting_changes_are_stored_witness :
  let configured := mkSettings "gemini-2.0-flash" "key" "Summarise." "" "recordings"
                      true false inline "" in
  let p := mkPlugin configured false "" None [("recordings", FolderNode)]
             None None [] [] [] in
  let cs := [ChangeKeepAudio false; ChangeDefaultNoteFolder " Logs "] in
  let r := onChanges cs p in
  (length cs = 2 /\ defaultNoteFolder (settings (snd r)) = "Logs") /\
  fst r = Normal tt /\
  data (snd r) = Some (settings (snd r)) /\
  settings (snd r) = fold_left (fun s c => applyChange c s) cs (settings p) /\
  (vault (snd r) = vault p /\ notices (snd r) = notices p /\
   requests (snd r) = requests p /\ activeView (snd r) = activeView p) /\
  (Js.trim (defaultNoteFolder (settings p)) = defaultNoteFolder (settings p) ->
   Js.trim (defaultNoteFolder (settings (snd r))) = defaultNoteFolder (settings (snd r))) /\
  (forall value, In (ChangeDefaultNoteFolder value) cs ->
   Js.trim (defaultNoteFolder (settings (snd r))) = defaultNoteFolder (settings (snd r))).
Proof.
  cbv zeta. split; [split; [reflexivity|vm_compute; reflexivity]|].
  apply (setting_changes_are_stored
           [ChangeKeepAudio false; ChangeDefaultNoteFolder " Logs "]
           (mkPlugin (mkSettings "gemini-2.0-flash" "key" "Summarise." "" "recordings"
                        true false inline "")
              false "" None [("recordings", FolderNode)] None None [] [] [])).
  discriminate.
Defined.

(** The stop square, with "keep audio" and "include link" on, inline
    placement and an open note: the embed goes to the cursor. *)
Lemma stop_square_only_saves_witness :
  let configured := mkSettings "gemini-2.0-flash" "key" "Summarise." "" "recordings"
                      true false inline "" in
  let ed := mkEditor ["# Day"] (0, 5) (0, 5) in
  let p := mkPlugin configured false "" (Some configured) [("recordings", FolderNode)]
             (Some ed) None [] [] [] in
  let now := mkClock "2024-01-01" 9 in
  let remote := mkRemote (NetworkError "offline") (NetworkError "offline")
                  (fun _ => NetworkError "offline") in
  let blob := Modal.mkBlob [Modal.mkPart 0 "pcm"] "audio/wav" in
  let fileName := "recording-2024-01-01-Morning.mp3" in
  let file := mkTFile "recordings/recording-2024-01-01-Morning.mp3" fileName "mp3" in
  let v := [("recordings", FolderNode);
            ("recordings/recording-2024-01-01-Morning.mp3",
             FileNode (Binary [Modal.mkPart 0 "pcm"]))] in
  let r := @handleAudioRecording exampleHost 3 now now remote (Some blob) false true true p in
  (@chosenRecordingName exampleHost 3 now p = Some fileName /\
   saveFile (Host := exampleHost) (vault p) blob fileName
     (recordingFilePath (settings p)) = Some (v, file)) /\
  fst r = Normal tt /\
  requests (snd r) = requests p /\ vault (snd r) = v /\
  opened (snd r) = opened p /\ transcript (snd r) = transcript p /\
  activeView (snd r) =
    Some (replaceRange ("![[" +:+ path file +:+ "]]") (cursorHead ed) ed) /\
  notices (snd r) = notices p ++ [].
Proof.
  cbv zeta. split; [split; vm_compute; reflexivity|].
  exact (@stop_square_only_saves exampleHost 3 (mkClock "2024-01-01" 9)
           (mkClock "2024-01-01" 9)
           (mkRemote (NetworkError "offline") (NetworkError "offline")
              (fun _ => NetworkError "offline"))
           (Modal.mkBlob [Modal.mkPart 0 "pcm"] "audio/wav") true true
           (mkPlugin (mkSettings "gemini-2.0-flash" "key" "Summarise." "" "recordings"
                        true false inline "")
              false ""
              (Some (mkSettings "gemini-2.0-flash" "key" "Summarise." "" "recordings"
                       true false inline ""))
              [("recordings", FolderNode)] (Some (mkEditor ["# Day"] (0, 5) (0, 5)))
              None [] [] [])
           "recording-2024-01-01-Morning.mp3"
           [("recordings", FolderNode);
            ("recordings/recording-2024-01-01-Morning.mp3",
             FileNode (Binary [Modal.mkPart 0 "pcm"]))]
           (mkTFile "recordings/recording-2024-01-01-Morning.mp3"
              "recording-2024-01-01-Morning.mp3" "mp3")
           eq_refl eq_refl).
Defined.

(** "Transcribe" is pressed with "keep audio" off and "include link" on,
    inline placement is configured and no note is open: the fallback
    switches the preference in memory, the stored data hold the choices. *)
Lemma choices_of_the_modal_are_stored_witness :
  let configured := mkSettings "gemini-2.0-flash" "key" "Summarise." "" "recordings"
                      true false inline "" in
  let p := mkPlugin configured false "" None [("recordings", FolderNode)]
             None None [] [] [] in
  let now := mkClock "2024-01-01" 9 in
  let remote := mkRemote (NetworkError "offline") (NetworkError "offline")
                  (fun _ => NetworkError "offline") in
  let blob := Modal.mkBlob [Modal.mkPart 0 "pcm"] "audio/wav" in
  let fileName := "recording-2024-01-01-Morning.mp3" in
  let file := mkTFile "recordings/recording-2024-01-01-Morning.mp3" fileName "mp3" in
  let v := [("recordings", FolderNode);
            ("recordings/recording-2024-01-01-Morning.mp3",
             FileNode (Binary [Modal.mkPart 0 "pcm"]))] in
  let p' := snd (@handleAudioRecording exampleHost 3 now now remote (Some blob)
                   true false true p) in
  let chosen := set_includeAudioFileLink true (set_keepAudio false (settings p)) in
  (@chosenRecordingName exampleHost 3 now p = Some fileName /\
   saveFile (Host := exampleHost) (vault p) blob fileName
     (recordingFilePath (settings p)) = Some (v, file)) /\
  data p' = Some chosen /\
  keepAudio (settings p') = false /\ includeAudioFileLink (settings p') = true /\
  (settings p' = chosen \/ settings p' = set_insertTranscriptLocation newNote chosen).
Proof.
  cbv zeta. split; [split; vm_compute; reflexivity|].
  exact (@choices_of_the_modal_are_stored exampleHost 3 (mkClock "2024-01-01" 9)
           (mkClock "2024-01-01" 9)
           (mkRemote (NetworkError "offline") (NetworkError "offline")
              (fun _ => NetworkError "offline"))
           (Modal.mkBlob [Modal.mkPart 0 "pcm"] "audio/wav") true false true
           (mkPlugin (mkSettings "gemini-2.0-flash" "key" "Summarise." "" "recordings"
                        true false inline "")
              false "" None [("recordings", FolderNode)] None None [] [] [])
           "recording-2024-01-01-Morning.mp3"
           [("recordings", FolderNode);
            ("recordings/recording-2024-01-01-Morning.mp3",
             FileNode (Binary [Modal.mkPart 0 "pcm"]))]
           (mkTFile "recordings/recording-2024-01-01-Morning.mp3"
              "recording-2024-01-01-Morning.mp3" "mp3")
           eq_refl eq_refl).
Defined.

(** The recording folder holds an older recording: the cleanup removes the
    new recording and keeps the folder and the older one. *)
Lemma cleanup_removes_only_the_recording_witness :
  let configured := mkSettings "gemini-2.0-flash" "key" "Summarise." "" "recordings"
                      false false newNote "" in
  let p := mkPlugin configured false "" None
             [("recordings", FolderNode); ("recordings/old.mp3", FileNode (Binary []))]
             None None [] [] [] in
  let now := mkClock "2024-01-01" 9 in
  let remote := mkRemote (NetworkError "offline") (NetworkError "offline")
                  (fun _ => NetworkError "offline") in
  let blob := Modal.mkBlob [Modal.mkPart 0 "pcm"] "audio/wav" in
  let fileName := "recording-2024-01-01-Morning.mp3" in
  let file := mkTFile "recordings/recording-2024-01-01-Morning.mp3" fileName "mp3" in
  let v := [("recordings", FolderNode); ("recordings/old.mp3", FileNode (Binary []));
            ("recordings/recording-2024-01-01-Morning.mp3",
             FileNode (Binary [Modal.mkPart 0 "pcm"]))] in
  let r := @handleAudioRecording exampleHost 3 now now remote (Some blob)
             true false false p in
  let folder := recordingFilePath (settings p) in
  (@chosenRecordingName exampleHost 3 now p = Some fileName /\
   saveFile (Host := exampleHost) (vault p) blob fileName
     (recordingFilePath (settings p)) = Some (v, file) /\
   vault (snd r) = vault p) /\
  (forall e, In e v -> fst e <> path file -> fst e <> folder -> In e (vault (snd r))) /\
  ((exists sibling, In sibling v /\ isChildOf folder (fst sibling) = true /\
                    fst sibling <> path file) ->
   forall e, In e v -> fst e <> path file -> In e (vault (snd r))) /\
  (fst r = Normal tt ->
   present (vault (snd r)) (path file) = false \/
   last (notices (snd r)) = Some "Failed to handle audio recording").
Proof.
  cbv zeta. split; [repeat split; vm_compute; reflexivity|].
  exact (@cleanup_removes_only_the_recording exampleHost 3 (mkClock "2024-01-01" 9)
           (mkClock "2024-01-01" 9)
           (mkRemote (NetworkError "offline") (NetworkError "offline")
              (fun _ => NetworkError "offline"))
           (Modal.mkBlob [Modal.mkPart 0 "pcm"] "audio/wav") false
           (mkPlugin (mkSettings "gemini-2.0-flash" "key" "Summarise." "" "recordings"
                        false false newNote "")
              false "" None
              [("recordings", FolderNode); ("recordings/old.mp3", FileNode (Binary []))]
              None None [] [] [])
           "recording-2024-01-01-Morning.mp3"
           [("recordings", FolderNode); ("recordings/old.mp3", FileNode (Binary []));
            ("recordings/recording-2024-01-01-Morning.mp3",
             FileNode (Binary [Modal.mkPart 0 "pcm"]))]
           (mkTFile "recordings/recording-2024-01-01-Morning.mp3"
              "recording-2024-01-01-Morning.mp3" "mp3")
           eq_refl eq_refl).
Defined.


(** Recordings go to the vault root, where this morning's first name is
    taken: the second name is chosen. *)
Lemma recording_name_is_found_witness :
  let configured := mkSettings "gemini-2.0-flash" "key" "Summarise." "" " "
                      true false newNote "" in
  let p := mkPlugin configured false "" None
             [("recording-2024-01-01-Morning.mp3", FileNode (Binary []))]
             None None [] [] [] in
  let now := mkClock "2024-01-01" 9 in
  let recordingFolder := Js.trim (recordingFilePath (settings p)) in
  let tested := fun n => if Js.truthy recordingFolder
                         then normalizePath (Host := exampleHost)
                                (recordingFolder +:+ "/" +:+ n)
                         else n in
  let candidate := nameCandidate (isoDate now) (period (hours now)) in
  (length (vault p) <= 1 /\ recordingFolder = "" /\
   @chosenRecordingName exampleHost 1 now p = Some "recording-2024-01-01-Morning-2.mp3") /\
  exists fileName k,
    @chosenRecordingName exampleHost 1 now p = Some fileName /\
    1 <= k /\ fileName = candidate k /\
    present (vault p) (tested fileName) = false /\
    (forall j, 1 <= j < k -> present (vault p) (tested (candidate j)) = true).
Proof.
  cbv zeta. split; [split; [cbn; lia|split; vm_compute; reflexivity]|].
  refine (@recording_name_is_found exampleHost 1 (mkClock "2024-01-01" 9)
            (mkPlugin (mkSettings "gemini-2.0-flash" "key" "Summarise." "" " "
                         true false newNote "")
               false "" None
               [("recording-2024-01-01-Morning.mp3", FileNode (Binary []))]
               None None [] [] [])
            _ (or_introl eq_refl)).
  cbn; lia.
Defined.



(** Inline placement is configured, no note is open, and the answer holds
    a text: the text goes to a new note in the vault root. *)
Lemma inline_fallback_is_kept_witness :
  let configured := mkSettings "gemini-2.0-flash" "key" "Summarise." "" "recordings"
                      true false inline "" in
  let p := mkPlugin configured false "" (Some configured)
             [("recordings/a.mp3", FileNode (Binary []))] None None [] [] [] in
  let remote := mkRemote (Response (Some "https://upload.example"))
                  (Response (UploadedFile (Some "files/1")))
                  (fun _ => Response (Some (mkGenerateData (Some
                     [mkCandidate (Some (mkContent (Some [mkPartText (Some "Walked.")])))])))) in
  let r := @transcribeRecording exampleHost 3 (mkClock "2024-01-01" 9) remote
             (tfileAt "recordings/a.mp3") p in
  (insertTranscriptLocation (settings p) = inline /\ activeView p = None) /\
  (settings (snd r) = set_insertTranscriptLocation newNote (settings p) /\
   insertTranscriptLocation (settings (snd r)) = newNote /\
   data (snd r) = data p /\
   data (snd (saveSettings (snd r))) =
     Some (set_insertTranscriptLocation newNote (settings p))) /\
  r = (Normal tt,
       mkPlugin (set_insertTranscriptLocation newNote configured) false "Walked."
         (Some configured)
         [("recordings/a.mp3", FileNode (Binary []));
          ("Captain's Log 2024-01-01-Morning.md", FileNode (Text "Walked."))]
         None None
         ["No active file open. Defaulting to generating the transcript in a new note.";
          "Processing audio for transcription...";
          "Audio uploaded. Generating transcript...";
          "Transcript generated in a new note: Captain's Log 2024-01-01-Morning.md"]
         [mkPayload "gemini-2.0-flash" "Summarise." "audio/mp3" "files/1"]
         ["Captain's Log 2024-01-01-Morning.md"]).
Proof.
  cbv zeta. split; [split; reflexivity|].
  destruct (@inline_fallback_is_kept exampleHost 3 (mkClock "2024-01-01" 9)
              (mkRemote (Response (Some "https://upload.example"))
                 (Response (UploadedFile (Some "files/1")))
                 (fun _ => Response (Some (mkGenerateData (Some
                    [mkCandidate
                       (Some (mkContent (Some [mkPartText (Some "Walked.")])))])))))
              (tfileAt "recordings/a.mp3")
              (mkPlugin (mkSettings "gemini-2.0-flash" "key" "Summarise." "" "recordings"
                           true false inline "")
                 false ""
                 (Some (mkSettings "gemini-2.0-flash" "key" "Summarise." "" "recordings"
                          true false inline ""))
                 [("recordings/a.mp3", FileNode (Binary []))] None None [] [] [])
              eq_refl eq_refl) as [Hkept Hplaced].
  split; [exact Hkept|].
  exact (Hplaced "https://upload.example" "files/1" ""
           (Some (mkGenerateData (Some
              [mkCandidate (Some (mkContent (Some [mkPartText (Some "Walked.")])))])))
           "Walked." "Captain's Log 2024-01-01-Morning"
           eq_refl eq_refl eq_refl eq_refl eq_refl eq_refl eq_refl eq_refl
           eq_refl eq_refl eq_refl).
Defined.

(** The template path names a note that is not in the vault, and the
    answer holds a text: the request carries the prompt alone and the text
    ends in a new note. *)
Lemma missing_template_witness :
  let configured := mkSettings "gemini-2.0-flash" "key" "Summarise." "" "recordings"
                      true false newNote "Templates/Log.md" in
  let p := mkPlugin configured false "" None
             [("recordings/a.mp3", FileNode (Binary []))] None None [] [] [] in
  let remote := mkRemote (Response (Some "https://upload.example"))
                  (Response (UploadedFile (Some "files/1")))
                  (fun _ => Response (Some (mkGenerateData (Some
                     [mkCandidate (Some (mkContent (Some [mkPartText (Some "Walked.")])))])))) in
  let r := @transcribeRecording exampleHost 3 (mkClock "2024-01-01" 9) remote
             (tfileAt "recordings/a.mp3") p in
  isTFile (getAbstractFileByPath (vault p) (templateFilePath (settings p))) = false /\
  loadTemplateContent p = (Normal "", p) /\
  requests (snd r) =
    requests p ++ [mkPayload "gemini-2.0-flash" "Summarise." "audio/mp3" "files/1"] /\
  transcript (snd r) = "Walked." /\
  fst r = Normal tt /\
  vault (snd r) =
    [("recordings/a.mp3", FileNode (Binary []));
     ("Captain's Log 2024-01-01-Morning.md", FileNode (Text "Walked."))].
Proof.
  cbv zeta. split; [reflexivity|].
  pose proof (@missing_template_is_not_fatal exampleHost
                (mkPlugin (mkSettings "gemini-2.0-flash" "key" "Summarise." "" "recordings"
                             true false newNote "Templates/Log.md")
                   false "" None [("recordings/a.mp3", FileNode (Binary []))]
                   None None [] [] [])) as (_ & Hm & _).
  cbv zeta in Hm. destruct (Hm (or_intror eq_refl)) as (Hload & _ & Hrun).
  split; [exact Hload|].
  destruct (Hrun 3 (mkClock "2024-01-01" 9)
              (mkRemote (Response (Some "https://upload.example"))
                 (Response (UploadedFile (Some "files/1")))
                 (fun _ => Response (Some (mkGenerateData (Some
                    [mkCandidate
                       (Some (mkContent (Some [mkPartText (Some "Walked.")])))])))))
              (tfileAt "recordings/a.mp3") "https://upload.example" "files/1"
              eq_refl eq_refl eq_refl eq_refl eq_refl) as [Hreq Htext].
  split; [exact Hreq|].
  destruct (Htext _ "Walked." eq_refl eq_refl) as [Hkeep _].
  split; [exact Hkeep|]. split; vm_compute; reflexivity.
Defined.

(** A host that brings the new note to the front.  The default folder Logs
    is missing: it is created, the note is made in it and becomes the
    active note.  With the note notes.md as default folder no note can be
    made below it: the vault is as before and the last notice tells the
    failure. *)
Lemma transcript_goes_to_a_new_note_witness :
  let configured := fun folder =>
    mkSettings "gemini-2.0-flash" "key" "Summarise." folder "recordings"
      true true newNote "" in
  let p := mkPlugin (configured "Logs") false "" (Some (configured "Logs"))
             [("recordings/a.mp3", FileNode (Binary []))] None None [] [] [] in
  let p' := mkPlugin (configured "notes.md") false "" (Some (configured "notes.md"))
              [("recordings/a.mp3", FileNode (Binary []));
               ("notes.md", FileNode (Text "x"))] None None [] [] [] in
  let now := mkClock "2024-01-01" 9 in
  let generateData :=
    Some (mkGenerateData
            (Some [mkCandidate (Some (mkContent (Some [mkPartText (Some "Walked.")])))])) in
  let remote := mkRemote (Response (Some "https://upload.example"))
                  (Response (UploadedFile (Some "files/1")))
                  (fun _ => Response generateData) in
  let audioFile := tfileAt "recordings/a.mp3" in
  let payload := mkPayload "gemini-2.0-flash" "Summarise." "audio/mp3" "files/1" in
  let title := "Captain's Log 2024-01-01-Morning" in
  (insertTranscriptLocation (settings p) = newNote /\
   isTFile (getAbstractFileByPath (vault p) (path audioFile)) = true /\
   fst (loadTemplateContent p) = Normal "" /\
   firstText generateData = Some "Walked." /\
   @finalTitle frontHost 3 (withDefaultFolder p) (noteFolder p)
     (isoDate now) (period (hours now)) = Some title /\
   present (withDefaultFolder p) (@notePathOf frontHost (noteFolder p) title) = false /\
   underFile (withDefaultFolder p) (@notePathOf frontHost (noteFolder p) title) = false /\
   underFile (withDefaultFolder p') (@notePathOf frontHost (noteFolder p') title) = true) /\
  @transcribeRecording frontHost 3 now remote audioFile p =
    (Normal tt,
     mkPlugin (configured "Logs") false "Walked." (Some (configured "Logs"))
       [("recordings/a.mp3", FileNode (Binary []));
        ("Logs", FolderNode);
        ("Logs/Captain's Log 2024-01-01-Morning.md",
         FileNode (Text (transcriptContent true audioFile "Walked.")))]
       (Some (mkEditor ["![[recordings/a.mp3]]"; ""; "Walked."] (0, 0) (0, 0)))
       (Some "Logs")
       ["Processing audio for transcription...";
        "Audio uploaded. Generating transcript...";
        "Transcript generated in a new note: Captain's Log 2024-01-01-Morning.md"]
       [payload]
       ["Logs/Captain's Log 2024-01-01-Morning.md"]) /\
  @transcribeRecording frontHost 3 now remote audioFile p' =
    (Normal tt,
     mkPlugin (configured "notes.md") false "Walked." (Some (configured "notes.md"))
       [("recordings/a.mp3", FileNode (Binary []));
        ("notes.md", FileNode (Text "x"))]
       None None
       ["Processing audio for transcription...";
        "Audio uploaded. Generating transcript...";
        "Failed to create new note for transcript."]
       [payload] []).
Proof.
  cbv zeta. split; [repeat split; vm_compute; reflexivity|]. split.
  - exact (proj1
             (@transcript_goes_to_a_new_note frontHost 3 (mkClock "2024-01-01" 9)
                (mkRemote (Response (Some "https://upload.example"))
                   (Response (UploadedFile (Some "files/1")))
                   (fun _ => Response
                      (Some (mkGenerateData
                               (Some [mkCandidate
                                        (Some (mkContent
                                                 (Some [mkPartText (Some "Walked.")])))])))))
                (tfileAt "recordings/a.mp3")
                (mkPlugin (mkSettings "gemini-2.0-flash" "key" "Summarise." "Logs"
                             "recordings" true true newNote "")
                   false ""
                   (Some (mkSettings "gemini-2.0-flash" "key" "Summarise." "Logs"
                            "recordings" true true newNote ""))
                   [("recordings/a.mp3", FileNode (Binary []))] None None [] [] [])
                "https://upload.example" "files/1" ""
                (Some (mkGenerateData
                         (Some [mkCandidate
                                  (Some (mkContent (Some [mkPartText (Some "Walked.")])))])))
                "Walked." "Captain's Log 2024-01-01-Morning"
                eq_refl eq_refl eq_refl eq_refl eq_refl eq_refl eq_refl eq_refl eq_refl
                eq_refl)
             eq_refl eq_refl).
  - exact (proj2
             (@transcript_goes_to_a_new_note frontHost 3 (mkClock "2024-01-01" 9)
                (mkRemote (Response (Some "https://upload.example"))
                   (Response (UploadedFile (Some "files/1")))
                   (fun _ => Response
                      (Some (mkGenerateData
                               (Some [mkCandidate
                                        (Some (mkContent
                                                 (Some [mkPartText (Some "Walked.")])))])))))
                (tfileAt "recordings/a.mp3")
                (mkPlugin (mkSettings "gemini-2.0-flash" "key" "Summarise." "notes.md"
                             "recordings" true true newNote "")
                   false ""
                   (Some (mkSettings "gemini-2.0-flash" "key" "Summarise." "notes.md"
                            "recordings" true true newNote ""))
                   [("recordings/a.mp3", FileNode (Binary []));
                    ("notes.md", FileNode (Text "x"))] None None [] [] [])
                "https://upload.example" "files/1" ""
                (Some (mkGenerateData
                         (Some [mkCandidate
                                  (Some (mkContent (Some [mkPartText (Some "Walked.")])))])))
                "Walked." "Captain's Log 2024-01-01-Morning"
                eq_refl eq_refl eq_refl eq_refl eq_refl eq_refl eq_refl eq_refl eq_refl
                eq_refl)
             eq_refl).
Defined.

(** The answer holds a text and this morning's first title is taken: the
    title loop runs once more and the note gets the second title.  With no
    iteration allowed the model of the loop does not come to an end, so the
    bound on the vault is what the statement rests on. *)
Lemma transcription_ends_witness :
  let configured := mkSettings "gemini-2.0-flash" "key" "Summarise." "" "recordings"
                      true false newNote "" in
  let p := mkPlugin configured false "" (Some configured)
             [("recordings/a.mp3", FileNode (Binary []));
              ("Captain's Log 2024-01-01-Morning.md", FileNode (Text "first"))]
             None None [] [] [] in
  let now := mkClock "2024-01-01" 9 in
  let remote := mkRemote (Response (Some "https://upload.example"))
                  (Response (UploadedFile (Some "files/1")))
                  (fun _ => Response (Some (mkGenerateData (Some
                     [mkCandidate (Some (mkContent (Some [mkPartText (Some "Walked.")])))])))) in
  let audioFile := tfileAt "recordings/a.mp3" in
  let r := @transcribeRecording exampleHost 3 now remote audioFile p in
  (length (vault p) < 3 /\ noteFolder p = VaultRoot /\
   @finalTitle exampleHost 3 (vault p) VaultRoot "2024-01-01" (period 9) =
     Some "Captain's Log 2024-01-01-Morning-2" /\
   map fst (vault (snd r)) =
     ["recordings/a.mp3"; "Captain's Log 2024-01-01-Morning.md";
      "Captain's Log 2024-01-01-Morning-2.md"] /\
   fst (@transcribeRecording exampleHost 0 now remote audioFile p) = Hang) /\
  fst r <> Hang /\
  (isTFile (getAbstractFileByPath (vault p) (path audioFile)) = true -> fst r = Normal tt).
Proof.
  cbv zeta. split; [split; [cbn; lia|repeat split; vm_compute; reflexivity]|].
  refine (@transcription_ends exampleHost 3 (mkClock "2024-01-01" 9)
            (mkRemote (Response (Some "https://upload.example"))
               (Response (UploadedFile (Some "files/1")))
               (fun _ => Response (Some (mkGenerateData (Some
                  [mkCandidate
                     (Some (mkContent (Some [mkPartText (Some "Walked.")])))])))))
            (tfileAt "recordings/a.mp3")
            (mkPlugin (mkSettings "gemini-2.0-flash" "key" "Summarise." "" "recordings"
                         true false newNote "")
               false ""
               (Some (mkSettings "gemini-2.0-flash" "key" "Summarise." "" "recordings"
                        true false newNote ""))
               [("recordings/a.mp3", FileNode (Binary []));
                ("Captain's Log 2024-01-01-Morning.md", FileNode (Text "first"))]
               None None [] [] [])
            _ (or_introl I)).
  cbn; lia.
Defined.


(** A recording made in the morning is saved and transcribed. *)
Lemma session_recordings_are_sent_as_mp3_witness :
  let configured := mkSettings "gemini-2.0-flash" "key" "Summarise." "" "recordings"
                      true false newNote "" in
  let p := mkPlugin configured false "" None [("recordings", FolderNode)]
             None None [] [] [] in
  let now := mkClock "2024-01-01" 9 in
  let remote := mkRemote (Response (Some "https://upload.example"))
                  (Response (UploadedFile (Some "files/1")))
                  (fun _ => Response None) in
  let blob := Modal.mkBlob [Modal.mkPart 0 "pcm"] "audio/wav" in
  let fileName := "recording-2024-01-01-Morning.mp3" in
  let file := mkTFile "recordings/recording-2024-01-01-Morning.mp3" fileName "mp3" in
  let v := [("recordings", FolderNode);
            ("recordings/recording-2024-01-01-Morning.mp3",
             FileNode (Binary [Modal.mkPart 0 "pcm"]))] in
  let r := @handleAudioRecording exampleHost 3 now now remote (Some blob) true true false p in
  ((forall v blob fileName folder v' file,
      saveFile (Host := exampleHost) v blob fileName folder = Some (v', file) ->
      extension file = extname fileName) /\
   @chosenRecordingName exampleHost 3 now p = Some fileName /\
   saveFile (Host := exampleHost) (vault p) blob fileName
     (recordingFilePath (settings p)) = Some (v, file) /\
   isTFile (getAbstractFileByPath v (path file)) = true /\
   Modal.type blob = "audio/wav") /\
  getMimeType file = "audio/mp3" /\
  exists text,
    requests (snd r) =
      requests p ++ [mkPayload (model (settings p)) text "audio/mp3" "files/1"].
Proof.
  cbv zeta.
  assert (forall v blob fileName folder v' file,
            saveFile (Host := exampleHost) v blob fileName folder = Some (v', file) ->
            extension file = extname fileName) as Hlaw.
  { intros v blob fileName folder v' file. cbn [saveFile exampleHost].
    destruct (present v _); [discriminate|]. intros [= _ <-]. reflexivity. }
  split; [split; [exact Hlaw|repeat split; vm_compute; reflexivity]|].
  refine ((fun H => conj (proj1 (proj2 (proj2 (proj2 H))))
                         (proj2 (proj2 (proj2 (proj2 (proj2 H))))))
           (@session_recordings_are_sent_as_mp3 exampleHost 3 (mkClock "2024-01-01" 9)
              (mkClock "2024-01-01" 9)
              (mkRemote (Response (Some "https://upload.example"))
                 (Response (UploadedFile (Some "files/1")))
                 (fun _ => Response None))
              (Modal.mkBlob [Modal.mkPart 0 "pcm"] "audio/wav") true false
              (mkPlugin (mkSettings "gemini-2.0-flash" "key" "Summarise." "" "recordings"
                           true false newNote "")
                 false "" None [("recordings", FolderNode)] None None [] [] [])
              "recording-2024-01-01-Morning.mp3"
              [("recordings", FolderNode);
               ("recordings/recording-2024-01-01-Morning.mp3",
                FileNode (Binary [Modal.mkPart 0 "pcm"]))]
              (mkTFile "recordings/recording-2024-01-01-Morning.mp3"
                 "recording-2024-01-01-Morning.mp3" "mp3")
              "https://upload.example" "files/1"
              Hlaw eq_refl eq_refl eq_refl eq_refl eq_refl eq_refl eq_refl)).
Defined.


End PluginFacts.
